(** * GCP project activity analyzer: a shallow embedding of
      [last_project_activity.py] and the properties of its probes,
      aggregator, sort and report writer.

    Python values are modelled as they are used by the script: dictionaries
    with string keys as [gmap string pyval], [None]-or-value results as
    [option], exceptions as an explicit [result] type, and the order in which
    the probes are called as a trace threaded through a small monad. *)

From Stdlib Require Import ZArith Ascii String.
From stdpp Require Import base option list gmap strings sorting.

Local Open Scope Z_scope.

(** ** Exceptions *)

(** The subclasses of Python's [Exception] that the script distinguishes or
    that its own operations raise.  [HttpError] is [googleapiclient]'s; its
    payload is [e.resp.status] and the text of [str(e)].  [OtherError] stands
    for every other exception class raised by a client library.  Exceptions
    outside [Exception] ([KeyboardInterrupt], [SystemExit]) are no part of
    the model: no handler of the script catches them. *)
Inductive exn :=
  | HttpError (status : Z) (msg : string)
  | KeyError (key : string)
  | TypeError (msg : string)
  | ValueError (msg : string)
  | AttributeError (msg : string)
  | OtherError (msg : string).

(** [str(e)] *)
Definition exn_str (e : exn) : string :=
  match e with
  | HttpError _ msg => msg
  | KeyError key => "'" +:+ key +:+ "'"
  | TypeError msg => msg
  | ValueError msg => msg
  | AttributeError msg => msg
  | OtherError msg => msg
  end.

Inductive result (A : Type) :=
  | Ok (a : A)
  | Raise (e : exn).
Arguments Ok {A} a.
Arguments Raise {A} e.

#[global] Instance result_ret : MRet result := λ A a, Ok a.
#[global] Instance result_bind : MBind result := λ A B f m,
  match m with
  | Ok a => f a
  | Raise e => Raise e
  end.

(** [try: body except Exception as e: handler(e)] *)
Definition try_except {A} (body : result A) (handler : exn → result A) : result A :=
  match body with
  | Ok a => Ok a
  | Raise e => handler e
  end.

(** ** Computations that also record which probe functions were entered *)

Inductive probe := Compute | Storage | ServiceUsage.

Inductive event := Called (p : probe).

Definition M (A : Type) : Type := list event → result A * list event.

#[global] Instance M_ret : MRet M := λ A a tr, (Ok a, tr).
#[global] Instance M_bind : MBind M := λ A B f m tr,
  match m tr with
  | (Ok a, tr') => f a tr'
  | (Raise e, tr') => (Raise e, tr')
  end.

Definition tell (ev : event) : M unit := λ tr, (Ok tt, tr ++ [ev]).

Definition lift {A} (r : result A) : M A := λ tr, (r, tr).

Definition M_try_except {A} (body : M A) (handler : exn → M A) : M A := λ tr,
  match body tr with
  | (Ok a, tr') => (Ok a, tr')
  | (Raise e, tr') => handler e tr'
  end.

(** ** [datetime.datetime] *)

(** A datetime is its civil fields together with [utcoffset()]: [None] for a
    naive datetime, [Some o] for an aware one, [o] in microseconds. *)
Record datetime := mk_datetime {
  dt_year : Z;
  dt_month : Z;
  dt_day : Z;
  dt_hour : Z;
  dt_minute : Z;
  dt_second : Z;
  dt_microsecond : Z;
  dt_utcoffset : option Z
}.

Definition is_leap (y : Z) : bool :=
  (y mod 4 =? 0) && (negb (y mod 100 =? 0) || (y mod 400 =? 0)).

Definition days_before_year (year : Z) : Z :=
  let y := year - 1 in y * 365 + y / 4 - y / 100 + y / 400.

Definition days_before_month_table : list Z :=
  [0; 0; 31; 59; 90; 120; 151; 181; 212; 243; 273; 304; 334].

Definition days_before_month (year month : Z) : Z :=
  nth (Z.to_nat month) days_before_month_table 0
  + (if (2 <? month) && is_leap year then 1 else 0).

Definition days_in_month (year month : Z) : Z :=
  if (month =? 2) && is_leap year then 29
  else nth (Z.to_nat month) [0; 31; 28; 31; 30; 31; 30; 31; 31; 30; 31; 30; 31] 0.

(** [date.toordinal()]: 1 for 0001-01-01. *)
Definition ymd2ord (year month day : Z) : Z :=
  days_before_year year + days_before_month year month + day.

Definition us_per_second : Z := 1000000.
Definition us_per_day : Z := 86400 * us_per_second.

(** Microseconds of the civil fields since 0001-01-01T00:00:00, day 1. *)
Definition local_micros (d : datetime) : Z :=
  (((ymd2ord (dt_year d) (dt_month d) (dt_day d) * 24 + dt_hour d) * 60
    + dt_minute d) * 60 + dt_second d) * us_per_second + dt_microsecond d.

(** The position on the time line that comparisons and differences use:
    the civil fields moved back by the UTC offset (naive: as they are). *)
Definition instant (d : datetime) : Z :=
  local_micros d - default 0 (dt_utcoffset d).

Definition aware (d : datetime) : bool :=
  match dt_utcoffset d with Some _ => true | None => false end.

(** The invariant of every [datetime] object Python can construct. *)
Definition valid_datetime (d : datetime) : Prop :=
  1 ≤ dt_year d ≤ 9999 ∧ 1 ≤ dt_month d ≤ 12 ∧
  1 ≤ dt_day d ≤ days_in_month (dt_year d) (dt_month d) ∧
  0 ≤ dt_hour d < 24 ∧ 0 ≤ dt_minute d < 60 ∧ 0 ≤ dt_second d < 60 ∧
  0 ≤ dt_microsecond d < 1000000 ∧
  match dt_utcoffset d with
  | Some o => - us_per_day < o < us_per_day
  | None => True
  end.

(** [datetime.min] *)
Definition datetime_min : datetime := mk_datetime 1 1 1 0 0 0 0 None.

(** [a == b]: a naive and an aware datetime are never equal. *)
Definition dt_eq (a b : datetime) : bool :=
  bool_decide (aware a = aware b) && (instant a =? instant b).

(** [a < b] and [a > b] *)
Definition dt_lt (a b : datetime) : result bool :=
  if bool_decide (aware a = aware b) then Ok (instant a <? instant b)
  else Raise (TypeError "can't compare offset-naive and offset-aware datetimes").

Definition dt_gt (a b : datetime) : result bool := dt_lt b a.

(** [(a - b)], a [timedelta], as its total number of microseconds. *)
Definition dt_sub (a b : datetime) : result Z :=
  if bool_decide (aware a = aware b) then Ok (instant a - instant b)
  else Raise (TypeError "can't subtract offset-naive and offset-aware datetimes").

(** [timedelta.days]: timedeltas are normalised with [0 <= seconds < 86400],
    so [days] is the floor of the quotient. *)
Definition td_days (td : Z) : Z := td / us_per_day.

(** ** Strings *)

Definition digit_char (d : Z) : ascii := ascii_of_nat (48 + Z.to_nat d).

Fixpoint digits_go (fuel : nat) (n : Z) (acc : string) : string :=
  match fuel with
  | O => acc
  | S fuel' =>
      let acc' := String (digit_char (n mod 10)) acc in
      if n <? 10 then acc' else digits_go fuel' (n / 10) acc'
  end.

(** Decimal digits of a non-negative integer. *)
Definition str_nat (n : Z) : string :=
  digits_go (S (Z.to_nat (Z.log2 n))) n "".

(** [str(z)] for an [int]. *)
Definition str_int (z : Z) : string :=
  if z <? 0 then "-" +:+ str_nat (- z) else str_nat z.

Fixpoint zeros (n : nat) : string :=
  match n with
  | O => ""
  | S n' => String "0" (zeros n')
  end.

(** [s.zfill(width)] for a string of digits. *)
Definition zfill (width : nat) (s : string) : string :=
  zeros (width - String.length s) +:+ s.

(** A [str] is held as its UTF-8 text.  [len(s)] counts characters: the bytes
    that do not continue one. *)
Definition continuation_byte (c : ascii) : bool :=
  let n := nat_of_ascii c in (128 <=? n)%nat && (n <? 192)%nat.

Fixpoint str_len (s : string) : nat :=
  match s with
  | EmptyString => O
  | String c rest => if continuation_byte c then str_len rest else S (str_len rest)
  end.

(** [needle in hay] *)
Fixpoint contains (needle hay : string) : bool :=
  String.prefix needle hay ||
  match hay with
  | EmptyString => false
  | String _ rest => contains needle rest
  end.

(** [s.replace(c, by)] for a one-character [c]. *)
Fixpoint replace_char (c : ascii) (by_ : string) (s : string) : string :=
  match s with
  | EmptyString => EmptyString
  | String c' rest =>
      if Ascii.eqb c' c then by_ +:+ replace_char c by_ rest
      else String c' (replace_char c by_ rest)
  end.

(** [sep.join(l)] *)
Definition join (sep : string) (l : list string) : string := String.concat sep l.

(** One [strftime] directive.  [%Y] is the year as a decimal number, as the
    C library prints it: without leading zeros. *)
Definition strftime_directive (d : datetime) (c : ascii) : string :=
  if Ascii.eqb c "Y" then str_nat (dt_year d)
  else if Ascii.eqb c "m" then zfill 2 (str_nat (dt_month d))
  else if Ascii.eqb c "d" then zfill 2 (str_nat (dt_day d))
  else if Ascii.eqb c "H" then zfill 2 (str_nat (dt_hour d))
  else if Ascii.eqb c "M" then zfill 2 (str_nat (dt_minute d))
  else if Ascii.eqb c "S" then zfill 2 (str_nat (dt_second d))
  else String "%" (String c EmptyString).

(** [d.strftime(fmt)] for the directives above. *)
Fixpoint strftime (d : datetime) (fmt : string) : string :=
  match fmt with
  | EmptyString => EmptyString
  | String c rest =>
      if Ascii.eqb c "%" then
        match rest with
        | String c' rest' => strftime_directive d c' +:+ strftime d rest'
        | EmptyString => String c EmptyString
        end
      else String c (strftime d rest)
  end.

(** ** Python values held by dictionaries and spreadsheet cells *)

Inductive pyval :=
  | VNone
  | VInt (z : Z)
  | VStr (s : string)
  | VDate (d : datetime).

(** Truth value: [None], [0] and [""] are false, a datetime is always true. *)
Definition truthy (v : pyval) : bool :=
  match v with
  | VNone => false
  | VInt z => negb (z =? 0)
  | VStr s => negb (String.eqb s "")
  | VDate _ => true
  end.

Definition type_name (v : pyval) : string :=
  match v with
  | VNone => "NoneType"
  | VInt _ => "int"
  | VStr _ => "str"
  | VDate _ => "datetime.datetime"
  end.

(** [str(v)] *)
Definition py_str (v : pyval) : string :=
  match v with
  | VNone => "None"
  | VInt z => str_int z
  | VStr s => s
  | VDate d => strftime d "%Y-%m-%d %H:%M:%S"
  end.

(** [len(v)]: only strings have a length here. *)
Definition py_len (v : pyval) : result nat :=
  match v with
  | VStr s => Ok (str_len s)
  | _ => Raise (TypeError ("object of type '" +:+ type_name v +:+ "' has no len()"))
  end.

(** [a == b] *)
Definition py_eq (a b : pyval) : bool :=
  match a, b with
  | VNone, VNone => true
  | VInt x, VInt y => x =? y
  | VStr x, VStr y => String.eqb x y
  | VDate x, VDate y => dt_eq x y
  | _, _ => false
  end.

(** [a < b] *)
Definition py_lt (a b : pyval) : result bool :=
  match a, b with
  | VInt x, VInt y => Ok (x <? y)
  | VStr x, VStr y => Ok (String.ltb x y)
  | VDate x, VDate y => dt_lt x y
  | _, _ => Raise (TypeError ("'<' not supported between instances of '"
                              +:+ type_name a +:+ "' and '" +:+ type_name b +:+ "'"))
  end.

Definition of_option_date (o : option datetime) : pyval :=
  match o with Some d => VDate d | None => VNone end.

Definition of_option_str (o : option string) : pyval :=
  match o with Some s => VStr s | None => VNone end.

(** [d[key]] *)
Definition getitem (d : gmap string pyval) (key : string) : result pyval :=
  match d !! key with
  | Some v => Ok v
  | None => Raise (KeyError key)
  end.

(** ** Worksheets *)

(** An [openpyxl] worksheet: the values of the cells that exist, the extent
    of the sheet, the cells with a bold font or a fill colour, and the column
    widths by column letter.  Rows and columns count from 1. *)
Record worksheet := mk_worksheet {
  ws_title : string;
  ws_cells : gmap (nat * nat) pyval;
  ws_max_row : nat;
  ws_max_column : nat;
  ws_bold : gset (nat * nat);
  ws_fill : gmap (nat * nat) string;
  ws_width : gmap string nat
}.

(** ** The cloud APIs, as the script sees them *)

(** One entry of [items[zone]['instances']]. A key the response lacks is
    [None]. *)
Record instance := mk_instance {
  creationTimestamp : option string;
  lastStartTimestamp : option string
}.

(** One value of the [items] dictionary: ['instances'] may be absent. *)
Record zone_entry := mk_zone_entry {
  zone_instances : option (list instance)
}.

Record compute_response := mk_compute_response {
  items : option (list (string * zone_entry))
}.

Record blob := mk_blob {
  blob_updated : option datetime
}.

Record bucket := mk_bucket {
  bucket_name : string;
  bucket_time_created : option datetime;
  bucket_updated : option datetime
}.

Record services_response := mk_services_response {
  services : option (list string)
}.

(** Everything outside the script that a run depends on: each remote call
    either returns or raises, [fromisoformat] is the library's parser,
    [clock] holds the civil fields of the current UTC time, and [wb_save] is
    what writing a workbook with the one sheet to a file name does. *)
Record world := mk_world {
  build : string → result unit;
  aggregatedList : string → result compute_response;
  storage_client : string → result unit;
  list_buckets : string → result (list bucket);
  list_blobs : string → nat → result (list blob);
  services_list : string → result services_response;
  fromisoformat : string → result datetime;
  clock : datetime;
  wb_save : string → worksheet → result unit
}.

(** [datetime.datetime.now(datetime.timezone.utc)]: always aware, offset 0. *)
Definition datetime_now_utc (w : world) : datetime :=
  let c := clock w in
  mk_datetime (dt_year c) (dt_month c) (dt_day c) (dt_hour c) (dt_minute c)
              (dt_second c) (dt_microsecond c) (Some 0).

(** [for x in l: s = body(s, x)] *)
Fixpoint for_each {A S : Type} (l : list A) (s : S) (body : S → A → result S)
    : result S :=
  match l with
  | [] => Ok s
  | x :: l' => s' ← body s x; for_each l' s' body
  end.

(** [latest_activity is None or candidate > latest_activity] *)
Definition newer (candidate : datetime) (latest_activity : option datetime)
    : result bool :=
  match latest_activity with
  | None => Ok true
  | Some l => dt_gt candidate l
  end.

(** [if x and (latest_activity is None or x > latest_activity): latest_activity = x] *)
Definition bump (x : option datetime) (latest_activity : option datetime)
    : result (option datetime) :=
  match x with
  | Some u => b ← newer u latest_activity; Ok (if b : bool then Some u else latest_activity)
  | None => Ok latest_activity
  end.

(** ** The three probes *)

Definition marker : string := "API not enabled".

Definition compute_instance (w : world) (latest_activity : option datetime)
    (inst : instance) : result (option datetime) :=
  ts ← match creationTimestamp inst with
       | Some s => Ok s
       | None => Raise (KeyError "creationTimestamp")
       end;
  created ← fromisoformat w (replace_char "Z" "+00:00" ts);
  b ← newer created latest_activity;
  let latest_activity := if b : bool then Some created else latest_activity in
  match lastStartTimestamp inst with
  | Some s =>
      last_start ← fromisoformat w (replace_char "Z" "+00:00" s);
      b ← newer last_start latest_activity;
      Ok (if b : bool then Some last_start else latest_activity)
  | None => Ok latest_activity
  end.

(** The [try] block of [check_compute_last_activity]. *)
Definition compute_try (w : world) (project_id : string)
    : result (option datetime * option string) :=
  build w "compute";;
  response ← aggregatedList w project_id;
  latest_activity ←
    for_each (default [] (items response)) None
      (λ latest_activity (zi : string * zone_entry),
      match zone_instances zi.2 with
      | Some l => for_each l latest_activity (compute_instance w)
      | None => Ok latest_activity
      end);
  Ok (latest_activity, None).

(** The two [except] clauses shared by the Compute and Service-Usage probes:
    [HttpError] first, then every other [Exception]. *)
Definition http_except (e : exn) : option datetime * option string :=
  match e with
  | HttpError status _ =>
      if (status =? 403) && contains "accessNotConfigured" (exn_str e)
      then (None, Some marker)
      else (None, Some (exn_str e))
  | _ => (None, Some (exn_str e))
  end.

Definition check_compute_last_activity (w : world) (project_id : string)
    : M (option datetime * option string) :=
  tell (Called Compute);;
  lift (try_except (compute_try w project_id) (λ e, Ok (http_except e))).

Definition storage_bucket (w : world) (latest_activity : option datetime)
    (b : bucket) : result (option datetime) :=
  c ← match latest_activity with
      | None => Ok true
      | Some l =>
          match bucket_time_created b with
          | Some t => dt_gt t l
          | None => Raise (TypeError
              "'>' not supported between instances of 'NoneType' and 'datetime.datetime'")
          end
      end;
  let latest_activity := if c : bool then bucket_time_created b else latest_activity in
  latest_activity ← bump (bucket_updated b) latest_activity;
  blobs ← list_blobs w (bucket_name b) 10;
  for_each blobs latest_activity (λ latest_activity bl,
    bump (blob_updated bl) latest_activity).

(** The [try] block of [check_storage_last_activity]. *)
Definition storage_try (w : world) (project_id : string)
    : result (option datetime * option string) :=
  storage_client w project_id;;
  buckets ← list_buckets w project_id;
  latest_activity ← for_each buckets None (storage_bucket w);
  Ok (latest_activity, None).

Definition storage_except (e : exn) : option datetime * option string :=
  if contains "accessNotConfigured" (exn_str e)
  then (None, Some marker)
  else (None, Some (exn_str e)).

Definition check_storage_last_activity (w : world) (project_id : string)
    : M (option datetime * option string) :=
  tell (Called Storage);;
  lift (try_except (storage_try w project_id) (λ e, Ok (storage_except e))).

(** The [try] block of [check_api_usage_last_activity]. *)
Definition api_try (w : world) (project_id : string)
    : result (option datetime * option string) :=
  build w "serviceusage";;
  response ← services_list w project_id;
  match services response with
  | Some _ => Ok (Some (datetime_now_utc w), None)
  | None => Ok (None, None)
  end.

Definition check_api_usage_last_activity (w : world) (project_id : string)
    : M (option datetime * option string) :=
  tell (Called ServiceUsage);;
  lift (try_except (api_try w project_id) (λ e, Ok (http_except e))).

(** ** The aggregator *)

(** [if error: access_issues.append(f"{prefix}{error}")] *)
Definition append_issue (access_issues : list string) (prefix : string)
    (error : option string) : list string :=
  match error with
  | Some e => if truthy (VStr e) then access_issues ++ [prefix +:+ e] else access_issues
  | None => access_issues
  end.

(** [activity and (last_activity_date is None or activity > last_activity_date)] *)
Definition wins (activity : option datetime) (last_activity_date : option datetime)
    : result bool :=
  match activity with
  | Some a => newer a last_activity_date
  | None => Ok false
  end.

(** The [try] block of [get_project_last_activity]. *)
Definition aggregate_try (w : world) (project_id : string) : M (gmap string pyval) :=
  let project_info : gmap string pyval := {[ "project_id" := VStr project_id ]} in
  let last_activity_date : option datetime := None in
  let activity_source : string := "None" in
  let access_issues : list string := [] in
  c ← check_compute_last_activity w project_id;
  let access_issues := append_issue access_issues "Compute: " c.2 in
  b ← lift (wins c.1 last_activity_date);
  let last_activity_date := if b : bool then c.1 else last_activity_date in
  let activity_source := if b : bool then "Compute Engine" else activity_source in
  s ← check_storage_last_activity w project_id;
  let access_issues := append_issue access_issues "Storage: " s.2 in
  b ← lift (wins s.1 last_activity_date);
  let last_activity_date := if b : bool then s.1 else last_activity_date in
  let activity_source := if b : bool then "Cloud Storage" else activity_source in
  st ← match last_activity_date with
       | None =>
           a ← check_api_usage_last_activity w project_id;
           let access_issues := append_issue access_issues "API: " a.2 in
           mret (match a.1 with
                 | Some _ => (a.1, "API Usage", access_issues)
                 | None => (last_activity_date, activity_source, access_issues)
                 end)
       | Some _ => mret (last_activity_date, activity_source, access_issues)
       end;
  let '(last_activity_date, activity_source, access_issues) := st in
  let project_info := <[ "last_activity_date" := of_option_date last_activity_date ]> project_info in
  let project_info := <[ "activity_source" := VStr activity_source ]> project_info in
  let project_info :=
    <[ "access_issues" := match access_issues with
                          | [] => VNone
                          | _ => VStr (join "; " access_issues)
                          end ]> project_info in
  mret project_info.

(** The dictionary built by the [except] clause. *)
Definition error_record (project_id : string) (e : exn) : gmap string pyval :=
  <[ "project_id" := VStr project_id ]>
  (<[ "last_activity_date" := VNone ]>
  (<[ "activity_source" := VStr "Error" ]>
  (<[ "access_issues" := VStr (exn_str e) ]> ∅))).

Definition get_project_last_activity (w : world) (project_id : string)
    : M (gmap string pyval) :=
  M_try_except (aggregate_try w project_id) (λ e, mret (error_record project_id e)).

(** ** Sorting the results *)

(** [(x['last_activity_date'] is None,
      x['last_activity_date'] if x['last_activity_date'] else datetime.datetime.min)] *)
Definition sort_key (x : gmap string pyval) : result (bool * pyval) :=
  v ← getitem x "last_activity_date";
  Ok (match v with VNone => true | _ => false end,
      if truthy v then v else VDate datetime_min).

(** [a < b] on two such tuples: the first position where they differ under
    [==] decides, by [<] at that position. *)
Definition key_lt (a b : bool * pyval) : result bool :=
  if Bool.eqb a.1 b.1 then
    if py_eq a.2 b.2 then Ok false else py_lt a.2 b.2
  else Ok (negb a.1 && b.1).

(** [list.sort(key=..., reverse=True)] is a stable sort into descending key
    order that only ever asks [<] of two keys; it is given here by insertion. *)
Fixpoint insert_desc {A : Type} (x : (bool * pyval) * A)
    (l : list ((bool * pyval) * A)) : result (list ((bool * pyval) * A)) :=
  match l with
  | [] => Ok [x]
  | y :: l' =>
      c ← key_lt x.1 y.1;
      if c : bool then r ← insert_desc x l'; Ok (y :: r)
      else Ok (x :: y :: l')
  end.

Fixpoint sort_desc {A : Type} (l : list ((bool * pyval) * A))
    : result (list ((bool * pyval) * A)) :=
  match l with
  | [] => Ok []
  | x :: l' => s ← sort_desc l'; insert_desc x s
  end.

(** The [projects_activity.sort(...)] statement of [main]: the keys are
    computed first, then the list is sorted by them. *)
Definition sort_projects (projects_activity : list (gmap string pyval))
    : result (list (gmap string pyval)) :=
  keyed ← mapM (M:=result) (λ x, k ← sort_key x; Ok (k, x)) projects_activity;
  sorted ← sort_desc keyed;
  Ok (sorted.*2).

(** ** The spreadsheet *)

(** [Workbook().active] *)
Definition new_worksheet : worksheet := mk_worksheet "Sheet" ∅ 0 0 ∅ ∅ ∅.

(** The sheet after [ws.cell(row=row, column=column, value=value)] has
    returned: the cell is created when it does not exist, and takes the value
    unless the value is [None]. *)
Definition put_cell (ws : worksheet) (row column : nat) (value : pyval) : worksheet :=
  mk_worksheet (ws_title ws)
    (match value with
     | VNone => partial_alter (λ o, Some (default VNone o)) (row, column) (ws_cells ws)
     | _ => <[ (row, column) := value ]> (ws_cells ws)
     end)
    (ws_max_row ws `max` row) (ws_max_column ws `max` column)
    (ws_bold ws) (ws_fill ws) (ws_width ws).

(** The characters a cell refuses: the control characters other than tab,
    line feed and carriage return. *)
Definition illegal_character (c : ascii) : bool :=
  let n := nat_of_ascii c in
  (n <=? 8)%nat || ((11 <=? n)%nat && (n <=? 12)%nat) || ((14 <=? n)%nat && (n <=? 31)%nat).

Fixpoint has_illegal_character (s : string) : bool :=
  match s with
  | EmptyString => false
  | String c rest => illegal_character c || has_illegal_character rest
  end.

(** [ws.cell(row=row, column=column, value=value)]: a string with a character
    the cell refuses raises [IllegalCharacterError]. *)
Definition ws_cell (ws : worksheet) (row column : nat) (value : pyval)
    : result worksheet :=
  match value with
  | VStr s =>
      if has_illegal_character s
      then Raise (OtherError (s +:+ " cannot be used in worksheets."))
      else Ok (put_cell ws row column value)
  | _ => Ok (put_cell ws row column value)
  end.

(** [cell.value] of the cell at a position; a cell never written holds [None]. *)
Definition ws_value (ws : worksheet) (row column : nat) : pyval :=
  default VNone (ws_cells ws !! (row, column)).

Definition set_title (ws : worksheet) (title : string) : worksheet :=
  mk_worksheet title (ws_cells ws) (ws_max_row ws) (ws_max_column ws)
    (ws_bold ws) (ws_fill ws) (ws_width ws).

Definition set_bold (ws : worksheet) (row column : nat) : worksheet :=
  mk_worksheet (ws_title ws) (ws_cells ws) (ws_max_row ws) (ws_max_column ws)
    ({[ (row, column) ]} ∪ ws_bold ws) (ws_fill ws) (ws_width ws).

Definition set_fill (ws : worksheet) (row column : nat) (colour : string) : worksheet :=
  mk_worksheet (ws_title ws) (ws_cells ws) (ws_max_row ws) (ws_max_column ws)
    (ws_bold ws) (<[ (row, column) := colour ]> (ws_fill ws)) (ws_width ws).

Definition set_width (ws : worksheet) (letter : string) (width : nat) : worksheet :=
  mk_worksheet (ws_title ws) (ws_cells ws) (ws_max_row ws) (ws_max_column ws)
    (ws_bold ws) (ws_fill ws) (<[ letter := width ]> (ws_width ws)).

(** [enumerate(l, start=start)] *)
Definition enumerate {A : Type} (start : nat) (l : list A) : list (nat * A) :=
  zip (seq start (length l)) l.

(** [cell.column_letter], for the first 26 columns. *)
Definition column_letter (column : nat) : string :=
  String (ascii_of_nat (64 + column)) EmptyString.

Definition headers : list string :=
  ["Project ID"; "Last Activity Date"; "Activity Source"; "Days Since Activity";
   "Access Issues"].

Definition write_headers (ws : worksheet) : result worksheet :=
  for_each (enumerate 1 headers) ws (λ ws ch,
    ws ← ws_cell ws 1 ch.1 (VStr ch.2);
    Ok (set_bold ws 1 ch.1)).

Definition access_issue_fill : string := "FFF2CC".

(** The body of the loop over [enumerate(projects_activity, start=2)]. *)
Definition write_row (now : datetime) (ws : worksheet)
    (rp : nat * gmap string pyval) : result worksheet :=
  let row := rp.1 in
  let project := rp.2 in
  project_id ← getitem project "project_id";
  ws ← ws_cell ws row 1 project_id;
  last_activity_date ← getitem project "last_activity_date";
  ws ← (if truthy last_activity_date then
          match last_activity_date with
          | VDate activity_date =>
              ws ← ws_cell ws row 2
                     (VStr (strftime activity_date "%Y-%m-%d %H:%M:%S"));
              delta ← dt_sub now activity_date;
              let days_since := td_days delta in
              ws_cell ws row 4 (VInt days_since)
          | v => Raise (AttributeError
                   ("'" +:+ type_name v +:+ "' object has no attribute 'strftime'"))
          end
        else
          ws ← ws_cell ws row 2 (VStr "No activity found");
          ws_cell ws row 4 (VStr "N/A"));
  activity_source ← getitem project "activity_source";
  ws ← ws_cell ws row 3 activity_source;
  match project !! "access_issues" with
  | Some issues =>
      if truthy issues then
        ws ← ws_cell ws row 5 issues;
        for_each (seq 1 5) ws (λ ws col,
          ws ← ws_cell ws row col VNone;
          Ok (set_fill ws row col access_issue_fill))
      else Ok ws
  | None => Ok ws
  end.

(** The body of the loop over the cells of one column:
    [try: if len(str(cell.value)) > max_length: max_length = len(cell.value)]
    [except: pass] *)
Definition width_step (max_length : nat) (value : pyval) : nat :=
  match (if (max_length <? str_len (py_str value))%nat
         then py_len value else Ok max_length) with
  | Ok n => n
  | Raise _ => max_length
  end.

(** The values of one element of [ws.columns]: rows 1 to [max_row]. *)
Definition column_values (ws : worksheet) (column : nat) : list pyval :=
  (λ row, ws_value ws row column) <$> seq 1 (ws_max_row ws).

Definition adjust_column (ws : worksheet) (column : nat) : worksheet :=
  let max_length := foldl width_step 0%nat (column_values ws column) in
  let adjusted_width := (max_length + 2)%nat in
  set_width ws (column_letter column) adjusted_width.

(** The [try] block of [write_to_excel]; it returns the sheet it saved. *)
Definition write_try (w : world) (projects_activity : list (gmap string pyval))
    (filename : string) : result worksheet :=
  let ws := set_title new_worksheet "Project Activity" in
  ws ← write_headers ws;
  let now := datetime_now_utc w in
  ws ← for_each (enumerate 2 projects_activity) ws (write_row now);
  let ws := foldl adjust_column ws (seq 1 (ws_max_column ws)) in
  wb_save w filename ws;;
  Ok ws.

(** [write_to_excel]: the sheet that is saved, or nothing when the [try]
    block raised (the error is only logged). *)
Definition write_to_excel (w : world) (projects_activity : list (gmap string pyval))
    (filename : string) : option worksheet :=
  match write_try w projects_activity filename with
  | Ok ws => Some ws
  | Raise _ => None
  end.

(** ** Enumerating the projects of a folder *)

(** [s.split(sep)] for a one-character [sep]: the pieces between the
    separators; the list is never empty. *)
Fixpoint str_split (sep : ascii) (s : string) : list string :=
  match s with
  | EmptyString => [EmptyString]
  | String c rest =>
      if Ascii.eqb c sep then EmptyString :: str_split sep rest
      else match str_split sep rest with
           | piece :: pieces => String c piece :: pieces
           | [] => [String c EmptyString]
           end
  end.

(** [l[-1]] *)
Definition getitem_last {A : Type} (l : list A) : result A :=
  match last l with
  | Some x => Ok x
  | None => Raise (OtherError "list index out of range")
  end.

(** What iterating over a pager gives: the items of the pages that arrived
    and, when the request for a further page failed, its error. *)
Record pager (A : Type) := mk_pager {
  pager_items : list A;
  pager_error : option exn
}.
Arguments mk_pager {A} _ _.
Arguments pager_items {A} _.
Arguments pager_error {A} _.

(** [for x in pager: body] *)
Definition for_each_page {A S : Type} (p : pager A) (s : S)
    (body : S → A → result S) : result S :=
  s ← for_each (pager_items p) s body;
  match pager_error p with
  | Some e => Raise e
  | None => Ok s
  end.

(** The Resource Manager API: the two clients, the project ids of the
    projects a query finds, and the names of the folders under a parent. *)
Record resource_manager := mk_resource_manager {
  FoldersClient : result unit;
  ProjectsClient : result unit;
  search_projects : string → result (pager string);
  list_folders : string → result (pager string)
}.

(** The inner function of [get_projects_recursive], with the list [projects]
    of the enclosing call passed along.  The interpreter bounds the nesting of
    calls: [depth] calls of [traverse_folder] fit inside one another, and one
    more raises [RecursionError]. *)
Fixpoint traverse_folder (depth : nat) (rm : resource_manager)
    (folder_id : string) (projects : list string) : result (list string) :=
  match depth with
  | O => Raise (OtherError "maximum recursion depth exceeded")
  | S depth' =>
      let folder_filter := "parent.type:folder parent.id:" +:+ folder_id in
      found ← search_projects rm folder_filter;
      projects ← for_each_page found projects (λ projects project_id,
        Ok (projects ++ [project_id]));
      subfolders ← list_folders rm ("folders/" +:+ folder_id);
      for_each_page subfolders projects (λ projects name,
        folder_id ← getitem_last (str_split "/" name);
        traverse_folder depth' rm folder_id projects)
  end.

Definition get_projects_recursive (depth : nat) (rm : resource_manager)
    (folder_id : string) : result (list string) :=
  FoldersClient rm;;
  ProjectsClient rm;;
  traverse_folder depth rm folder_id [].

(** ** The main program *)

(** The command line, as [parse_arguments] returns it. *)
Record arguments := mk_arguments {
  args_folder_id : string;
  args_output : string;
  args_max_workers : Z
}.

(** What a run depends on besides the APIs: whether the file of credentials
    loads, how many calls of [traverse_folder] fit inside one another, and the
    order in which [as_completed] hands over the futures it was given. *)
Record host := mk_host {
  from_authorized_user_file : result unit;
  recursion_limit : nat;
  as_completed :
    list (result (gmap string pyval)) → list (result (gmap string pyval))
}.

(** [get_credentials]: a failure is logged and raised again. *)
Definition get_credentials (h : host) : result unit :=
  try_except (from_authorized_user_file h) (λ e, Raise e).

(** [ThreadPoolExecutor(max_workers=n)] *)
Definition ThreadPoolExecutor (max_workers : Z) : result unit :=
  if max_workers <=? 0 then Raise (ValueError "max_workers must be greater than 0")
  else Ok tt.

(** [if d:] for a dictionary *)
Definition dict_truthy (d : gmap string pyval) : bool := bool_decide (d ≠ ∅).

(** The [try] block of [main].  A future holds what its call of
    [get_project_last_activity] returned or raised; [future.result()] hands
    that over. *)
Definition main_try (h : host) (w : world) (rm : resource_manager)
    (args : arguments) : result (option worksheet) :=
  get_credentials h;;
  projects ← get_projects_recursive (recursion_limit h) rm (args_folder_id args);
  ThreadPoolExecutor (args_max_workers args);;
  let future_to_project :=
    (λ project_id, (get_project_last_activity w project_id []).1) <$> projects in
  projects_activity ←
    for_each (as_completed h future_to_project) []
      (λ projects_activity future,
         res ← future;
         if dict_truthy res then
           getitem res "project_id";;
           Ok (projects_activity ++ [res])
         else Ok projects_activity);
  projects_activity ← sort_projects projects_activity;
  Ok (write_to_excel w projects_activity (args_output args)).

(** [main]: the sheet that is saved, or nothing when [write_to_excel] saved
    none or the [try] block raised (the error is only logged). *)
Definition main (h : host) (w : world) (rm : resource_manager)
    (args : arguments) : option worksheet :=
  match main_try h w rm args with
  | Ok saved => saved
  | Raise _ => None
  end.

(** * The vocabulary of the properties *)

(** ** Probes, runs and records *)

(** The [try] block of each probe. *)
Definition probe_try (p : probe) (w : world) (project_id : string)
    : result (option datetime * option string) :=
  match p with
  | Compute => compute_try w project_id
  | Storage => storage_try w project_id
  | ServiceUsage => api_try w project_id
  end.

(** The probe functions themselves. *)
Definition run_probe (p : probe) (w : world) (project_id : string)
    : M (option datetime * option string) :=
  match p with
  | Compute => check_compute_last_activity w project_id
  | Storage => check_storage_last_activity w project_id
  | ServiceUsage => check_api_usage_last_activity w project_id
  end.

(** What each probe takes for the API-not-enabled denial: the Compute and
    Service-Usage probes an [HttpError] with status 403 whose text mentions
    [accessNotConfigured], the Storage probe (whose client library raises its
    own exception classes) any exception whose text mentions it. *)
Definition access_denied (p : probe) (e : exn) : bool :=
  match p, e with
  | Storage, _ => contains "accessNotConfigured" (exn_str e)
  | _, HttpError status msg => (status =? 403) && contains "accessNotConfigured" msg
  | _, _ => false
  end.

(** The pair a probe hands back, as a value. *)
Definition probe_result (p : probe) (w : world) (project_id : string)
    : option datetime * option string :=
  match probe_try p w project_id with
  | Ok r => r
  | Raise e => (None, Some (if access_denied p e then marker else exn_str e))
  end.

(** A run of a computation from the empty trace. *)
Definition run {A : Type} (m : M A) : result A * list event := m [].

(** The name under which a probe's timestamp is credited, and the prefix
    under which its error is listed. *)
Definition source_name (p : probe) : string :=
  match p with
  | Compute => "Compute Engine"
  | Storage => "Cloud Storage"
  | ServiceUsage => "API Usage"
  end.

Definition issue_prefix (p : probe) : string :=
  match p with
  | Compute => "Compute: "
  | Storage => "Storage: "
  | ServiceUsage => "API: "
  end.

(** The dictionary the [try] block returns, from its three final values. *)
Definition record_of (project_id : string) (last_activity_date : option datetime)
    (activity_source : string) (access_issues : list string) : gmap string pyval :=
  <[ "access_issues" := match access_issues with
                        | [] => VNone
                        | _ => VStr (join "; " access_issues)
                        end ]>
  (<[ "activity_source" := VStr activity_source ]>
  (<[ "last_activity_date" := of_option_date last_activity_date ]>
  {[ "project_id" := VStr project_id ]})).

(** The issues collected once the first two probes ran, and once all three did. *)
Definition issues2 (w : world) (project_id : string) : list string :=
  append_issue (append_issue [] "Compute: " (probe_result Compute w project_id).2)
               "Storage: " (probe_result Storage w project_id).2.

Definition issues3 (w : world) (project_id : string) : list string :=
  append_issue (issues2 w project_id) "API: " (probe_result ServiceUsage w project_id).2.

(** What one call contributes to [access_issues], and the list a sequence of
    calls leaves behind. *)
Definition issue_of (w : world) (project_id : string) (ev : event) : list string :=
  match ev with
  | Called p => append_issue [] (issue_prefix p) (probe_result p w project_id).2
  end.

Definition reported_issues (w : world) (project_id : string) (calls : list event)
    : list string :=
  flat_map (issue_of w project_id) calls.

(** A record as the aggregator returns it for a project with instances only. *)
Definition activity (project_id : string) (last_activity_date : option datetime)
    : gmap string pyval :=
  record_of project_id last_activity_date "Compute Engine" [].

(** ** The Service-Usage listing *)

(** The listing of enabled services came back and named at least one. *)
Definition lists_enabled_services (w : world) (project_id : string) : Prop :=
  (∃ u, build w "serviceusage" = Ok u) ∧
  ∃ response l, services_list w project_id = Ok response ∧
                services response = Some l ∧ l ≠ [].

(** The listing of enabled services came back and its response carries the
    ['services'] key. *)
Definition lists_services (w : world) (project_id : string) : Prop :=
  (∃ u, build w "serviceusage" = Ok u) ∧
  ∃ response l, services_list w project_id = Ok response ∧
                services response = Some l.

(** ** Order of evaluation *)

(** Position of a probe in the order of evaluation. *)
Definition probe_index (p : probe) : nat :=
  match p with
  | Compute => 0%nat
  | Storage => 1%nat
  | ServiceUsage => 2%nat
  end.

Definition earlier (p q : probe) : probe :=
  if (probe_index p <=? probe_index q)%nat then p else q.

(** ** Sorted lists and report rows *)

(** A record paired with the key computed from it. *)
Definition keyed_ok (kx : (bool * pyval) * gmap string pyval) : Prop :=
  sort_key kx.2 = Ok kx.1.

(** The shape of the records the report writer is given: the four fields,
    with a string id and source, a date or [None], issues or [None]. *)
Definition activity_record (p : gmap string pyval) : Prop :=
  (∃ project_id, p !! "project_id" = Some (VStr project_id)) ∧
  (p !! "last_activity_date" = Some VNone ∨
   ∃ d, p !! "last_activity_date" = Some (VDate d)) ∧
  (∃ source, p !! "activity_source" = Some (VStr source)) ∧
  (p !! "access_issues" = Some VNone ∨ ∃ s, p !! "access_issues" = Some (VStr s)).

(** Their dates are dates Python can construct. *)
Definition dates_valid (p : gmap string pyval) : Prop :=
  ∀ d, p !! "last_activity_date" = Some (VDate d) → valid_datetime d.

(** The row the report is said to hold for a record: project id, formatted
    date or ["No activity found"], source, whole days since the activity or
    ["N/A"], and the access issues when there are any. *)
Definition report_row (now : datetime) (p : gmap string pyval) : list pyval :=
  let date := default VNone (p !! "last_activity_date") in
  [ default VNone (p !! "project_id");
    match date with
    | VDate d => VStr (strftime d "%Y-%m-%d %H:%M:%S")
    | _ => VStr "No activity found"
    end;
    default VNone (p !! "activity_source");
    match date with
    | VDate d => VInt (td_days (instant now - instant d))
    | _ => VStr "N/A"
    end;
    match p !! "access_issues" with
    | Some (VStr s) => if String.eqb s "" then VNone else VStr s
    | _ => VNone
    end ].


(** The sheet once the header row is written. *)
Definition headed_sheet : worksheet :=
  foldl (λ ws ch, set_bold (put_cell ws 1 ch.1 (VStr ch.2)) 1 ch.1)
        (set_title new_worksheet "Project Activity") (enumerate 1 headers).

(** The values of the cells of a column in the rows 1 to [rows]. *)
Definition column_cells (ws : worksheet) (column rows : nat) : list pyval :=
  (λ row, ws_value ws row column) <$> seq 1 rows.

(** The length of [str(value)], and the length of what the cell shows (an
    empty cell shows nothing). *)
Definition rendered_length (v : pyval) : nat := str_len (py_str v).

Definition shown_length (v : pyval) : nat :=
  match v with
  | VNone => 0%nat
  | _ => str_len (py_str v)
  end.

(** Every text the record holds can be written to a cell. *)
Definition writable_text (p : gmap string pyval) : Prop :=
  ∀ key s, p !! key = Some (VStr s) → has_illegal_character s = false.

(** ** Descending order of sort keys *)

(** [a] may stand directly before [b] in a list sorted into descending
    order: [a < b] is false. *)
Definition descends {A : Type} (a b : (bool * pyval) * A) : Prop :=
  key_lt a.1 b.1 = Ok false.

(** The values a key can be compared with: keys of undated records, and
    below them integers, strings, naive dates and aware dates, each only
    among themselves. *)
Inductive key_class := KUndated | KNone | KInt | KStr | KNaive | KAware.

Definition key_class_of (k : bool * pyval) : key_class :=
  if k.1 then KUndated
  else match k.2 with
       | VNone => KNone
       | VInt _ => KInt
       | VStr _ => KStr
       | VDate d => if aware d then KAware else KNaive
       end.

(** ** Rows with access issues *)

(** ['access_issues' in project and project['access_issues']] *)
Definition has_issues (p : gmap string pyval) : bool :=
  match p !! "access_issues" with
  | Some v => truthy v
  | None => false
  end.

(** A record that stops the row loop: a naive date, or one of the three keys
    the loop reads without asking is missing. *)
Definition unwritable (p : gmap string pyval) : Prop :=
  p !! "project_id" = None ∨ p !! "last_activity_date" = None ∨
  p !! "activity_source" = None ∨
  ∃ d, p !! "last_activity_date" = Some (VDate d) ∧ aware d = false.

(** ** What the probes look at *)

(** [latest] is the latest of the timestamps [seen]: it is one of them, they
    are all naive or all aware like it, and none lies after it; with nothing
    seen there is no latest. *)
Definition latest_of (seen : list datetime) (latest : option datetime) : Prop :=
  match latest with
  | None => seen = []
  | Some l => l ∈ seen ∧ ∀ t, t ∈ seen → aware t = aware l ∧ instant t ≤ instant l
  end.

(** [datetime.datetime.fromisoformat(s.replace('Z', '+00:00'))] *)
Definition parse_stamp (w : world) (s : string) : result datetime :=
  fromisoformat w (replace_char "Z" "+00:00" s).

(** The timestamp strings of an instance, of a listing, in the order in which
    the probe reads them. *)
Definition instance_stamps (inst : instance) : list string :=
  option_list (creationTimestamp inst) ++ option_list (lastStartTimestamp inst).

Definition response_stamps (response : compute_response) : list string :=
  flat_map (λ zi : string * zone_entry,
              flat_map instance_stamps (default [] (zone_instances zi.2)))
           (default [] (items response)).

(** The timestamps read so far parse, and [latest] is the latest of them. *)
Definition latest_stamp (w : world) (stamps : list string)
    (latest : option datetime) : Prop :=
  ∃ seen, Forall2 (λ s t, parse_stamp w s = Ok t) stamps seen ∧ latest_of seen latest.

(** An instance the probe cannot get past: no creation timestamp, or one the
    parser rejects. *)
Definition unreadable (w : world) (inst : instance) : Prop :=
  match creationTimestamp inst with
  | None => True
  | Some s => ∃ e, parse_stamp w s = Raise e
  end.

(** The times the Storage probe reads for a bucket: creation, update, and the
    updates of the objects listed with [max_results=10]. *)
Definition bucket_times (w : world) (b : bucket) : list datetime :=
  option_list (bucket_time_created b) ++ option_list (bucket_updated b) ++
  match list_blobs w (bucket_name b) 10 with
  | Ok blobs => omap blob_updated blobs
  | Raise _ => []
  end.

(** ** Folders and what lies under them *)

(** [child] is the id that [traverse_folder] takes from one of the folder
    names the listing of [parent] yields. *)
Definition subfolder (rm : resource_manager) (parent child : string) : Prop :=
  ∃ listing name, list_folders rm ("folders/" +:+ parent) = Ok listing ∧
    name ∈ pager_items listing ∧ getitem_last (str_split "/" name) = Ok child.

(** The folders at or below a folder. *)
Definition below (rm : resource_manager) : string → string → Prop :=
  rtc (subfolder rm).

(** [project_id] is among the answers to the search in [folder_id]. *)
Definition found_in (rm : resource_manager) (folder_id project_id : string) : Prop :=
  ∃ found,
    search_projects rm ("parent.type:folder parent.id:" +:+ folder_id) = Ok found ∧
    project_id ∈ pager_items found.

(** A listing that fails, at once or on a later page. *)
Definition fails {A : Type} (listing : result (pager A)) : Prop :=
  match listing with
  | Ok p => is_Some (pager_error p)
  | Raise _ => True
  end.

(** One of the two listings of a folder fails. *)
Definition unlistable (rm : resource_manager) (folder_id : string) : Prop :=
  fails (search_projects rm ("parent.type:folder parent.id:" +:+ folder_id)) ∨
  fails (list_folders rm ("folders/" +:+ folder_id)).

(** ** Futures *)

(** What a future holds when its call returned. *)
Definition returned {A : Type} (future : result A) : option A :=
  match future with
  | Ok a => Some a
  | Raise _ => None
  end.

(** The column of project ids of a sheet with [n] rows under the header. *)
Definition id_column (ws : worksheet) (n : nat) : list pyval :=
  (λ i, ws_value ws (i + 2)%nat 1%nat) <$> seq 0 n.

(** ** Example inputs *)

Definition utc (y mo d h mi s : Z) : datetime := mk_datetime y mo d h mi s 0 (Some 0).

Definition naive (y mo d h mi s : Z) : datetime := mk_datetime y mo d h mi s 0 None.

(** A parser that knows one timestamp. *)
Definition parse_known (s : string) : result datetime :=
  if String.eqb s "2025-06-01T00:00:00+00:00" then Ok (utc 2025 6 1 0 0 0)
  else Raise (ValueError ("Invalid isoformat string: '" +:+ s +:+ "'")).

(** A world from the outcomes of the three listings; every other call
    succeeds, no bucket holds an object, and it is 2025-06-11 12:00 UTC. *)
Definition world_of (instances_ : result compute_response)
    (buckets : result (list bucket)) (enabled : result services_response) : world :=
  mk_world (λ _, Ok tt) (λ _, instances_) (λ _, Ok tt) (λ _, buckets)
           (λ _ _, Ok []) (λ _, enabled) parse_known (naive 2025 6 11 12 0 0)
           (λ _ _, Ok tt).

Definition no_instances : compute_response := mk_compute_response None.

Definition one_instance : compute_response :=
  mk_compute_response
    (Some [("zones/us-central1-a",
            mk_zone_entry (Some [mk_instance (Some "2025-06-01T00:00:00Z") None]))]).

Definition no_services : services_response := mk_services_response None.

(** Nothing anywhere. *)
Definition idle_world : world := world_of (Ok no_instances) (Ok []) (Ok no_services).

(** No resources, but enabled services. *)
Definition services_world : world :=
  world_of (Ok no_instances) (Ok [])
           (Ok (mk_services_response (Some ["compute.googleapis.com"]))).

(** No resources, and a listing of enabled services that is empty. *)
Definition empty_services_world : world :=
  world_of (Ok no_instances) (Ok []) (Ok (mk_services_response (Some []))).

(** An instance and a bucket created at the same moment. *)
Definition tie_world : world :=
  world_of (Ok one_instance)
           (Ok [mk_bucket "b" (Some (utc 2025 6 1 0 0 0)) None]) (Ok no_services).

(** An instance with an aware timestamp and a bucket with a naive one. *)
Definition mixed_world : world :=
  world_of (Ok one_instance)
           (Ok [mk_bucket "b" (Some (naive 2025 6 1 0 0 0)) None]) (Ok no_services).

(** The Compute API is not enabled; there is one bucket. *)
Definition denied_world : world :=
  world_of (Raise (HttpError 403
              "<HttpError 403 when requesting None returned accessNotConfigured>"))
           (Ok [mk_bucket "b" (Some (utc 2025 6 1 0 0 0)) None]) (Ok no_services).

(** The Compute listing fails with an exception that has no text. *)
Definition blank_error_world : world :=
  world_of (Raise (OtherError "")) (Ok []) (Ok no_services).

(** An instance without a creation timestamp, and one whose timestamp the
    parser rejects. *)
Definition untimed_instance_world : world :=
  world_of (Ok (mk_compute_response
                  (Some [("zones/us-central1-a",
                          mk_zone_entry (Some [mk_instance None None]))])))
           (Ok []) (Ok no_services).

Definition garbled_instance_world : world :=
  world_of (Ok (mk_compute_response
                  (Some [("zones/us-central1-a",
                          mk_zone_entry (Some [mk_instance (Some "soon") None]))])))
           (Ok []) (Ok no_services).

(** Every listing fails with the same exception of another class whose text
    mentions [accessNotConfigured]. *)
Definition forbidden : exn := OtherError "403 GET: accessNotConfigured".

Definition forbidden_world : world :=
  world_of (Raise forbidden) (Raise forbidden) (Raise forbidden).


(** Two records, one dated exactly ten days before the clock of the example
    worlds, one undated. *)
Definition report_example : list (gmap string pyval) :=
  [activity "a" (Some (utc 2025 6 1 12 0 0)); activity "b" None].

(** Three records: two dated, one undated. *)
Definition sort_example : list (gmap string pyval) :=
  [activity "a" (Some (utc 2024 1 1 0 0 0));
   activity "b" None;
   activity "c" (Some (utc 2025 6 1 0 0 0))].

(** The same records with the undated one first and the dated ones from the
    most recent on. *)
Definition sorted_example : list (gmap string pyval) :=
  [activity "b" None;
   activity "c" (Some (utc 2025 6 1 0 0 0));
   activity "a" (Some (utc 2024 1 1 0 0 0))].

(** A dated record without issues and an undated one with an issue. *)
Definition flagged_example : list (gmap string pyval) :=
  [activity "a" (Some (utc 2025 6 1 12 0 0));
   record_of "c" None "None" ["Compute: API not enabled"]].

(** One bucket whose objects cannot be listed. *)
Definition locked_bucket : bucket := mk_bucket "b" (Some (utc 2025 6 1 0 0 0)) None.

Definition locked_bucket_world : world :=
  mk_world (λ _, Ok tt) (λ _, Ok no_instances) (λ _, Ok tt) (λ _, Ok [locked_bucket])
           (λ _ _, Raise (HttpError 403 "forbidden")) (λ _, Ok no_services)
           parse_known (naive 2025 6 11 12 0 0) (λ _ _, Ok tt).

(** One instance, and a parser that returns a naive datetime. *)
Definition zoneless_world : world :=
  mk_world (λ _, Ok tt) (λ _, Ok one_instance) (λ _, Ok tt) (λ _, Ok [])
           (λ _ _, Ok []) (λ _, Ok no_services)
           (λ _, Ok (naive 2025 6 1 0 0 0)) (naive 2025 6 11 12 0 0)
           (λ _ _, Ok tt).

(** A listing that arrives whole. *)
Definition page (l : list string) : result (pager string) := Ok (mk_pager l None).

(** Folder 100 holds two projects and the folders 200 and 300; folder 200
    holds one project; the search in folder 300 answers with [in_300]. *)
Definition tree_with (in_300 : result (pager string)) : resource_manager :=
  mk_resource_manager (Ok tt) (Ok tt)
    (λ query,
       if String.eqb query "parent.type:folder parent.id:100" then page ["alpha"; "beta"]
       else if String.eqb query "parent.type:folder parent.id:200" then page ["gamma"]
       else if String.eqb query "parent.type:folder parent.id:300" then in_300
       else page [])
    (λ parent,
       if String.eqb parent "folders/100" then page ["folders/200"; "folders/300"]
       else page []).

Definition folder_tree : resource_manager := tree_with (page []).

Definition broken_tree : resource_manager :=
  tree_with (Raise (HttpError 403 "permission denied")).

(** Credentials that load, room for five nested calls, and workers that
    finish in the reverse of the order of submission. *)
Definition example_host : host := mk_host (Ok tt) 5 reverse.

Definition example_args : arguments := mk_arguments "100" "project_activity.xlsx" 10.

(** * Properties *)

(** ** The probes *)

Lemma run_probe_eq p w project_id tr :
  run_probe p w project_id tr
  = (Ok (probe_result p w project_id), tr ++ [Called p]).
Proof.
  unfold probe_result.
  destruct p; cbn;
    unfold check_compute_last_activity, check_storage_last_activity,
      check_api_usage_last_activity, tell, lift, try_except, http_except,
      storage_except; cbn.
  - destruct (compute_try w project_id) as [r|e]; [done|].
    destruct e; cbn; try done. by destruct (_ && _).
  - destruct (storage_try w project_id) as [r|e]; [done|].
    by destruct (contains _ _).
  - destruct (api_try w project_id) as [r|e]; [done|].
    destruct e; cbn; try done. by destruct (_ && _).
Qed.

(** C3.  Each of the three probes, whatever the remote calls did, returns a
    pair of an optional timestamp and an optional error string and does not
    raise: what its [try] block returned when nothing went wrong, and
    otherwise no timestamp together with the marker ["API not enabled"] for
    the API-not-enabled denial, or the exception's own text for every other
    exception. *)
Theorem probes_capture_all_failures (p : probe) (w : world) (project_id : string)
    (tr : list event) :
  ∃ (timestamp : option datetime) (error : option string),
    run_probe p w project_id tr = (Ok (timestamp, error), tr ++ [Called p]) ∧
    match probe_try p w project_id with
    | Ok r => (timestamp, error) = r
    | Raise e =>
        timestamp = None ∧
        error = Some (if access_denied p e then "API not enabled" else exn_str e)
    end.
Proof.
  exists (probe_result p w project_id).1, (probe_result p w project_id).2.
  split.
  - rewrite run_probe_eq. by destruct (probe_result p w project_id).
  - unfold probe_result. destruct (probe_try p w project_id) as [[t e]|e]; done.
Qed.

(** Failures of different kinds, each handed back as data. *)
Example compute_api_not_enabled :
  probe_result Compute denied_world "p" = (None, Some "API not enabled").
Proof. reflexivity. Qed.

Example compute_missing_key :
  probe_result Compute untimed_instance_world "p" = (None, Some "'creationTimestamp'").
Proof. reflexivity. Qed.

Example compute_unparsable_timestamp :
  probe_result Compute garbled_instance_world "p"
  = (None, Some "Invalid isoformat string: 'soon'").
Proof. reflexivity. Qed.

Example storage_incomparable_timestamps :
  probe_result Storage
    (world_of (Ok no_instances)
       (Ok [mk_bucket "a" (Some (utc 2025 6 1 0 0 0)) None;
            mk_bucket "b" (Some (naive 2025 6 1 0 0 0)) None])
       (Ok no_services)) "p"
  = (None, Some "can't compare offset-naive and offset-aware datetimes").
Proof. reflexivity. Qed.

(** The same exception is the denial for the Storage probe and an ordinary
    error for the other two, which only look at [HttpError]s. *)
Example denial_is_judged_per_probe :
  probe_result Storage forbidden_world "p" = (None, Some "API not enabled") ∧
  probe_result Compute forbidden_world "p" = (None, Some "403 GET: accessNotConfigured") ∧
  probe_result ServiceUsage forbidden_world "p"
  = (None, Some "403 GET: accessNotConfigured").
Proof. by repeat split. Qed.

(** ** The aggregator *)

Lemma check_compute_eq w project_id tr :
  check_compute_last_activity w project_id tr
  = (Ok (probe_result Compute w project_id), tr ++ [Called Compute]).
Proof. exact (run_probe_eq Compute w project_id tr). Qed.

Lemma check_storage_eq w project_id tr :
  check_storage_last_activity w project_id tr
  = (Ok (probe_result Storage w project_id), tr ++ [Called Storage]).
Proof. exact (run_probe_eq Storage w project_id tr). Qed.

Lemma check_api_usage_eq w project_id tr :
  check_api_usage_last_activity w project_id tr
  = (Ok (probe_result ServiceUsage w project_id), tr ++ [Called ServiceUsage]).
Proof. exact (run_probe_eq ServiceUsage w project_id tr). Qed.

(** The [try] block of the aggregator, case by case on what the probes
    returned. *)
Lemma aggregate_try_cases w project_id tr :
  aggregate_try w project_id tr =
  match (probe_result Compute w project_id).1, (probe_result Storage w project_id).1 with
  | Some tc, Some ts =>
      match dt_gt ts tc with
      | Ok b =>
          (Ok (record_of project_id (Some (if b then ts else tc))
                 (if b then "Cloud Storage" else "Compute Engine")
                 (issues2 w project_id)),
           tr ++ [Called Compute; Called Storage])
      | Raise e => (Raise e, tr ++ [Called Compute; Called Storage])
      end
  | Some tc, None =>
      (Ok (record_of project_id (Some tc) "Compute Engine" (issues2 w project_id)),
       tr ++ [Called Compute; Called Storage])
  | None, Some ts =>
      (Ok (record_of project_id (Some ts) "Cloud Storage" (issues2 w project_id)),
       tr ++ [Called Compute; Called Storage])
  | None, None =>
      (Ok (record_of project_id (probe_result ServiceUsage w project_id).1
             (match (probe_result ServiceUsage w project_id).1 with
              | Some _ => "API Usage"
              | None => "None"
              end)
             (issues3 w project_id)),
       tr ++ [Called Compute; Called Storage; Called ServiceUsage])
  end.
Proof.
  unfold aggregate_try, issues3, issues2.
  unfold mbind, M_bind, mret, M_ret, lift.
  rewrite check_compute_eq.
  destruct (probe_result Compute w project_id) as [ct ce].
  destruct (probe_result Storage w project_id) as [st se] eqn:Hs.
  destruct (probe_result ServiceUsage w project_id) as [at_ ae] eqn:Ha.
  cbn [fst snd wins newer].
  rewrite check_storage_eq, Hs. cbn [fst snd wins newer].
  destruct ct as [tc|], st as [ts|]; cbn [wins newer].
  - destruct (dt_gt ts tc) as [[|]|e]; by rewrite <- ?app_assoc.
  - by rewrite <- ?app_assoc.
  - by rewrite <- ?app_assoc.
  - rewrite check_api_usage_eq, Ha. cbn [fst snd].
    rewrite <- ?app_assoc. by destruct at_.
Qed.

Lemma record_of_project_id pid d src iss :
  record_of pid d src iss !! "project_id" = Some (VStr pid).
Proof. reflexivity. Qed.

Lemma record_of_date pid d src iss :
  record_of pid d src iss !! "last_activity_date" = Some (of_option_date d).
Proof. reflexivity. Qed.

Lemma record_of_source pid d src iss :
  record_of pid d src iss !! "activity_source" = Some (VStr src).
Proof. reflexivity. Qed.

Lemma record_of_issues pid d src iss :
  record_of pid d src iss !! "access_issues"
  = Some (match iss with [] => VNone | _ => VStr (join "; " iss) end).
Proof. reflexivity. Qed.



(** The aggregator returns a dictionary whatever happens. *)
Lemma get_project_last_activity_returns w project_id tr :
  ∃ r tr', get_project_last_activity w project_id tr = (Ok r, tr').
Proof.
  unfold get_project_last_activity, M_try_except.
  destruct (aggregate_try w project_id tr) as [[r|e] tr']; eauto.
Qed.

(** The outcome of a whole run, case by case on what the probes returned. *)
Lemma run_get_project_last_activity w project_id :
  run (get_project_last_activity w project_id) =
  match (probe_result Compute w project_id).1, (probe_result Storage w project_id).1 with
  | Some tc, Some ts =>
      (Ok match dt_gt ts tc with
          | Ok b => record_of project_id (Some (if b then ts else tc))
                      (if b then "Cloud Storage" else "Compute Engine")
                      (issues2 w project_id)
          | Raise e => error_record project_id e
          end,
       [Called Compute; Called Storage])
  | Some tc, None =>
      (Ok (record_of project_id (Some tc) "Compute Engine" (issues2 w project_id)),
       [Called Compute; Called Storage])
  | None, Some ts =>
      (Ok (record_of project_id (Some ts) "Cloud Storage" (issues2 w project_id)),
       [Called Compute; Called Storage])
  | None, None =>
      (Ok (record_of project_id (probe_result ServiceUsage w project_id).1
             (match (probe_result ServiceUsage w project_id).1 with
              | Some _ => "API Usage"
              | None => "None"
              end)
             (issues3 w project_id)),
       [Called Compute; Called Storage; Called ServiceUsage])
  end.
Proof.
  unfold run, get_project_last_activity, M_try_except.
  rewrite aggregate_try_cases.
  destruct (probe_result Compute w project_id).1 as [tc|],
           (probe_result Storage w project_id).1 as [ts|]; try done.
  by destruct (dt_gt ts tc).
Qed.

Lemma run_aggregate_try_raise w project_id e calls :
  run (aggregate_try w project_id) = (Raise e, calls) ↔
  calls = [Called Compute; Called Storage] ∧
  ∃ tc ts, (probe_result Compute w project_id).1 = Some tc ∧
           (probe_result Storage w project_id).1 = Some ts ∧
           dt_gt ts tc = Raise e.
Proof.
  unfold run. rewrite aggregate_try_cases. split.
  - destruct (probe_result Compute w project_id).1 as [tc|],
             (probe_result Storage w project_id).1 as [ts|]; try done.
    destruct (dt_gt ts tc) as [b|e0] eqn:Hgt; [done|].
    intros [= <- <-]. split; [done|]. by exists tc, ts.
  - intros [-> (tc & ts & -> & -> & ->)]. done.
Qed.

Lemma called_first_two p :
  Called p ∈ [Called Compute; Called Storage] ↔ p = Compute ∨ p = Storage.
Proof.
  split.
  - intros H. apply elem_of_cons in H as [[= ->]|H]; [by left|].
    apply list_elem_of_singleton in H as [= ->]. by right.
  - intros [-> | ->]; [apply list_elem_of_here|].
    apply list_elem_of_further, list_elem_of_here.
Qed.

Lemma called_all_three p :
  Called p ∈ [Called Compute; Called Storage; Called ServiceUsage].
Proof. destruct p; repeat constructor. Qed.

(** Its [try] block can only fail on comparing a naive with an aware
    timestamp. *)
Lemma dt_lt_raise a b e :
  dt_lt a b = Raise e →
  e = TypeError "can't compare offset-naive and offset-aware datetimes".
Proof. unfold dt_lt. case_bool_decide; congruence. Qed.

Lemma aggregate_try_raise w project_id tr e tr' :
  aggregate_try w project_id tr = (Raise e, tr') →
  e = TypeError "can't compare offset-naive and offset-aware datetimes" ∧
  tr' = tr ++ [Called Compute; Called Storage] ∧
  ∃ tc ts, (probe_result Compute w project_id).1 = Some tc ∧
           (probe_result Storage w project_id).1 = Some ts ∧
           dt_gt ts tc = Raise e.
Proof.
  rewrite aggregate_try_cases.
  destruct (probe_result Compute w project_id).1 as [tc|],
           (probe_result Storage w project_id).1 as [ts|]; try done.
  destruct (dt_gt ts tc) as [b|e0] eqn:Hgt; [done|].
  intros [= <- <-]. split; [by eapply dt_lt_raise|]. split; [done|]. by exists tc, ts.
Qed.

(** A probe that hands back a timestamp hands back no error. *)
Lemma probe_try_no_error p w project_id r :
  probe_try p w project_id = Ok r → r.2 = None.
Proof.
  destruct p; cbn;
    unfold compute_try, storage_try, api_try, mbind, result_bind;
    intros; repeat case_match; by simplify_eq.
Qed.

Lemma probe_result_exclusive p w project_id t :
  (probe_result p w project_id).1 = Some t → (probe_result p w project_id).2 = None.
Proof.
  unfold probe_result.
  destruct (probe_try p w project_id) as [r|e] eqn:Hr; [|done].
  intros _. by eapply probe_try_no_error.
Qed.

(** C7.  When the body of the aggregation raises an exception, the aggregator
    still returns a record for the project: no date, source ["Error"], and
    the exception's text as the access issues. *)
Theorem aggregation_failure_gives_error_record (w : world) (project_id : string)
    (e : exn) (calls : list event) :
  run (aggregate_try w project_id) = (Raise e, calls) →
  ∃ r, run (get_project_last_activity w project_id) = (Ok r, calls) ∧
       r !! "project_id" = Some (VStr project_id) ∧
       r !! "last_activity_date" = Some VNone ∧
       r !! "activity_source" = Some (VStr "Error") ∧
       r !! "access_issues" = Some (VStr (exn_str e)).
Proof.
  unfold run, get_project_last_activity, M_try_except. intros ->.
  exists (error_record project_id e). by repeat split.
Qed.

(** C2.  In the record the aggregator returns, the source is ["None"] exactly
    when the date is null and no probe that ran returned a timestamp; and the
    source is ["Error"] only if the body of the aggregation raised. *)
Theorem source_none_iff_no_timestamp (w : world) (project_id : string)
    (r : gmap string pyval) (calls : list event) :
  run (get_project_last_activity w project_id) = (Ok r, calls) →
  (r !! "activity_source" = Some (VStr "None") ↔
     r !! "last_activity_date" = Some VNone ∧
     ∀ p, Called p ∈ calls → (probe_result p w project_id).1 = None) ∧
  (r !! "activity_source" = Some (VStr "Error") →
     ∃ e, run (aggregate_try w project_id) = (Raise e, calls)).
Proof.
  rewrite run_get_project_last_activity.
  destruct (probe_result Compute w project_id).1 as [tc|] eqn:Hc,
           (probe_result Storage w project_id).1 as [ts|] eqn:Hs;
    intros [= <- <-].
  - split.
    + split.
      * destruct (dt_gt ts tc) as [[]|e]; done.
      * intros [_ Hn]. specialize (Hn Compute). rewrite Hc in Hn.
        discriminate Hn. apply called_first_two. by left.
    + destruct (dt_gt ts tc) as [[]|e] eqn:Hgt; try done.
      intros _. exists e. apply run_aggregate_try_raise.
      split; [done|]. by exists tc, ts.
  - rewrite record_of_source, record_of_date.
    split; [|done]. split; [done|]. by intros [H _].
  - rewrite record_of_source, record_of_date.
    split; [|done]. split; [done|]. by intros [H _].
  - rewrite record_of_source, record_of_date.
    destruct (probe_result ServiceUsage w project_id).1 as [ta|] eqn:Ha.
    + split; [|done]. split; [done|]. by intros [H _].
    + split; [|done]. split; [|done]. intros _. split; [done|].
      by intros [] _.
Qed.

(** ** Order of the probes and the fallback to the Service-Usage probe *)

Lemma api_timestamp_iff w project_id t :
  (probe_result ServiceUsage w project_id).1 = Some t ↔
  lists_services w project_id ∧ t = datetime_now_utc w.
Proof.
  unfold probe_result, lists_services. cbn.
  unfold api_try, mbind, result_bind.
  destruct (build w "serviceusage") as [u|e]; cbn.
  - destruct (services_list w project_id) as [response|e] eqn:Hl; cbn.
    + destruct (services response) as [l|] eqn:Hsv; cbn.
      * split.
        -- intros [= <-]. split; [|done]. split; [by eexists|].
           by exists response, l.
        -- by intros [_ ->].
      * split; [done|]. intros [[_ (resp & l & [= <-] & Hsome)] _]. congruence.
    + split; [done|]. intros [[_ (resp & l & Hresp & _)] _]. done.
  - split; [done|]. intros [[[u Hu] _] _]. done.
Qed.

(** C4, as stated, fails: the listing came back with an empty ['services']
    list, so that no enabled service exists, and the Service-Usage probe
    returned a timestamp. *)
Lemma empty_services_list_gives_a_timestamp :
  ¬ (∀ (w : world) (project_id : string) (r : gmap string pyval)
       (calls : list event),
       run (get_project_last_activity w project_id) = (Ok r, calls) →
       calls = [Called Compute; Called Storage] ++
               match (probe_result Compute w project_id).1,
                     (probe_result Storage w project_id).1 with
               | None, None => [Called ServiceUsage]
               | _, _ => []
               end ∧
       (∀ t, (probe_result ServiceUsage w project_id).1 = Some t ↔
             lists_enabled_services w project_id ∧ t = datetime_now_utc w) ∧
       (∀ t, Called ServiceUsage ∈ calls →
             (probe_result ServiceUsage w project_id).1 = Some t →
             r !! "last_activity_date" = Some (VDate t) ∧
             r !! "activity_source" = Some (VStr "API Usage"))).
Proof.
  intros H.
  destruct (H empty_services_world "p" _ _ eq_refl) as (_ & Hiff & _).
  destruct (proj1 (Hiff (datetime_now_utc empty_services_world)) eq_refl)
    as [(_ & response & l & Hresponse & Hl & Hne) _].
  injection Hresponse as <-. injection Hl as <-. done.
Qed.

(** C4.  The aggregator calls the Compute probe, then the Storage probe, and
    the Service-Usage probe after them exactly when neither returned a
    timestamp.  The Service-Usage probe returns a timestamp exactly when the
    response to the listing carries the ['services'] key, as it does whenever
    the listing names an enabled service, and then it is the current UTC
    time; when the probe was called and returned one, the record carries that
    timestamp with source ["API Usage"]. *)
Theorem probes_run_in_order_with_fallback (w : world) (project_id : string)
    (r : gmap string pyval) (calls : list event) :
  run (get_project_last_activity w project_id) = (Ok r, calls) →
  calls = [Called Compute; Called Storage] ++
          match (probe_result Compute w project_id).1,
                (probe_result Storage w project_id).1 with
          | None, None => [Called ServiceUsage]
          | _, _ => []
          end ∧
  (∀ t, (probe_result ServiceUsage w project_id).1 = Some t ↔
        lists_services w project_id ∧ t = datetime_now_utc w) ∧
  (lists_enabled_services w project_id →
     (probe_result ServiceUsage w project_id).1 = Some (datetime_now_utc w)) ∧
  (∀ t, Called ServiceUsage ∈ calls →
        (probe_result ServiceUsage w project_id).1 = Some t →
        r !! "last_activity_date" = Some (VDate t) ∧
        r !! "activity_source" = Some (VStr "API Usage")).
Proof.
  rewrite run_get_project_last_activity. intros Hrun.
  split_and!;
    [| intros t; by apply api_timestamp_iff
     | intros (Hbuild & response & l & Hresponse & Hl & _);
       apply api_timestamp_iff; split; [|done]; split; [done|]; by exists response, l
     | intros t Hin Ht];
    destruct (probe_result Compute w project_id).1 as [tc|] eqn:Hc,
             (probe_result Storage w project_id).1 as [ts|] eqn:Hs;
    simplify_eq; try done;
    try (apply called_first_two in Hin; by destruct Hin).
  cbn in Ht. by rewrite record_of_date, record_of_source, Ht.
Qed.

(** ** Ties *)

Lemma dt_eq_not_gt a b : dt_eq a b = true → dt_gt a b = Ok false ∧ dt_gt b a = Ok false.
Proof.
  unfold dt_eq, dt_gt, dt_lt. intros [Haw Hi%Z.eqb_eq]%andb_prop.
  apply bool_decide_eq_true in Haw. rewrite Haw, Hi.
  rewrite bool_decide_eq_true_2 by done. by rewrite Z.ltb_irrefl.
Qed.

(** C5.  When two probes that ran returned equal timestamps, the record keeps
    the one checked first: its source is the earlier of the two in the order
    Compute, Storage, Service-Usage, its date is that probe's timestamp, and
    no probe that ran returned a later one. *)
Theorem tie_keeps_earlier_source (w : world) (project_id : string)
    (r : gmap string pyval) (calls : list event) (p q : probe) (tp tq : datetime) :
  run (get_project_last_activity w project_id) = (Ok r, calls) →
  p ≠ q →
  Called p ∈ calls → Called q ∈ calls →
  (probe_result p w project_id).1 = Some tp →
  (probe_result q w project_id).1 = Some tq →
  dt_eq tp tq = true →
  r !! "activity_source" = Some (VStr (source_name (earlier p q))) ∧
  r !! "last_activity_date"
    = Some (of_option_date (probe_result (earlier p q) w project_id).1) ∧
  ∀ p' t' t, Called p' ∈ calls →
    (probe_result p' w project_id).1 = Some t' →
    (probe_result (earlier p q) w project_id).1 = Some t →
    dt_gt t' t = Ok false.
Proof.
  rewrite run_get_project_last_activity.
  destruct (probe_result Compute w project_id).1 as [tc|] eqn:Hc,
           (probe_result Storage w project_id).1 as [ts|] eqn:Hs;
    intros [= <- <-] Hne Hp Hq Htp Htq Heq.
  - assert (dt_gt ts tc = Ok false ∧ earlier p q = Compute) as [Hgt ->].
    { apply called_first_two in Hp, Hq.
      apply dt_eq_not_gt in Heq as [Hgt1 Hgt2].
      destruct Hp as [-> | ->], Hq as [-> | ->]; try done; by simplify_eq. }
    rewrite Hgt, record_of_source, record_of_date, Hc. split_and!; try done.
    intros p' t' t [-> | ->]%called_first_two Ht' [= <-]; simplify_eq; [|done].
    unfold dt_gt, dt_lt. rewrite bool_decide_eq_true_2 by done.
    by rewrite Z.ltb_irrefl.
  - apply called_first_two in Hp, Hq.
    destruct Hp as [-> | ->], Hq as [-> | ->]; simplify_eq.
  - apply called_first_two in Hp, Hq.
    destruct Hp as [-> | ->], Hq as [-> | ->]; simplify_eq.
  - destruct p, q; simplify_eq.
Qed.

(** ** Access issues *)

Lemma append_issue_app l prefix error :
  append_issue l prefix error = l ++ append_issue [] prefix error.
Proof.
  unfold append_issue. destruct error as [e|]; [|by rewrite app_nil_r].
  destruct (truthy (VStr e)); [done|by rewrite app_nil_r].
Qed.

Lemma issues2_reported w project_id :
  issues2 w project_id = reported_issues w project_id [Called Compute; Called Storage].
Proof.
  unfold issues2, reported_issues. cbn.
  by rewrite (append_issue_app (append_issue _ _ _)), app_nil_r.
Qed.

Lemma issues3_reported w project_id :
  issues3 w project_id
  = reported_issues w project_id [Called Compute; Called Storage; Called ServiceUsage].
Proof.
  unfold issues3. rewrite issues2_reported. unfold reported_issues. cbn.
  by rewrite append_issue_app, !app_nil_r, <- app_assoc.
Qed.

Lemma truthy_str_nonempty e : truthy (VStr e) = true ↔ e ≠ "".
Proof.
  cbn. destruct (String.eqb_spec e ""); cbn; split; congruence.
Qed.

Lemma elem_of_append_issue x prefix error :
  x ∈ append_issue [] prefix error ↔ ∃ e, error = Some e ∧ e ≠ "" ∧ x = prefix +:+ e.
Proof.
  unfold append_issue. destruct error as [e|].
  - destruct (truthy (VStr e)) eqn:He.
    + apply truthy_str_nonempty in He. cbn [app].
      rewrite list_elem_of_singleton. split.
      * intros ->. by exists e.
      * by intros (e' & [= <-] & _ & ->).
    + rewrite elem_of_nil. split; [done|]. intros (e' & [= <-] & Hne & _).
      apply truthy_str_nonempty in Hne. congruence.
  - rewrite elem_of_nil. split; [done|]. by intros (e & ? & _).
Qed.

Lemma elem_of_reported_issues w project_id calls x :
  x ∈ reported_issues w project_id calls ↔
  ∃ p e, Called p ∈ calls ∧ (probe_result p w project_id).2 = Some e ∧
         e ≠ "" ∧ x = issue_prefix p +:+ e.
Proof.
  unfold reported_issues. rewrite list_elem_of_In, in_flat_map. split.
  - intros ([p] & Hin & Hx). apply list_elem_of_In in Hin, Hx.
    apply elem_of_append_issue in Hx as (e & He & Hne & ->). by exists p, e.
  - intros (p & e & Hin & He & Hne & ->). exists (Called p).
    rewrite <- !list_elem_of_In. split; [done|].
    apply elem_of_append_issue. by exists e.
Qed.



(** The two ways a run ends: in the [except] clause, after the first two
    probes both returned timestamps that could not be compared, or at the
    end of the [try] block with the issues of the probes that ran. *)
Lemma run_outcome w project_id r calls :
  run (get_project_last_activity w project_id) = (Ok r, calls) →
  (∃ e, run (aggregate_try w project_id) = (Raise e, calls) ∧
        r = error_record project_id e ∧
        e = TypeError "can't compare offset-naive and offset-aware datetimes") ∨
  (∃ d src, run (aggregate_try w project_id) = (Ok r, calls) ∧
            r = record_of project_id d src (reported_issues w project_id calls) ∧
            src ≠ "Error").
Proof.
  rewrite run_get_project_last_activity. unfold run.
  rewrite aggregate_try_cases, issues3_reported, issues2_reported.
  destruct (probe_result Compute w project_id).1 as [tc|] eqn:Hc,
           (probe_result Storage w project_id).1 as [ts|] eqn:Hs;
    intros [= <- <-].
  - destruct (dt_gt ts tc) as [b|e] eqn:Hgt.
    + right. eexists _, _. split_and!; [done..|]. by destruct b.
    + left. exists e. split_and!; [done..|]. by eapply dt_lt_raise.
  - right. by eexists _, _.
  - right. by eexists _, _.
  - right. eexists _, _. split_and!; [done..|]. by case_match.
Qed.



(** C6, as the code has it.  Every error text that is not empty and was
    returned by a probe that ran is listed in [access_issues], behind the
    prefix of its probe, in the list of all such texts joined by ["; "]; and
    a timestamp returned by another probe that ran is still the record's
    date, credited to that probe. *)
Theorem nonempty_errors_are_listed (w : world) (project_id : string)
    (r : gmap string pyval) (calls : list event) (p : probe) (e : string) :
  run (get_project_last_activity w project_id) = (Ok r, calls) →
  Called p ∈ calls →
  (probe_result p w project_id).2 = Some e →
  e ≠ "" →
  r !! "access_issues"
    = Some (VStr (join "; " (reported_issues w project_id calls))) ∧
  issue_prefix p +:+ e ∈ reported_issues w project_id calls ∧
  ∀ q t, Called q ∈ calls → (probe_result q w project_id).1 = Some t →
    r !! "last_activity_date" = Some (VDate t) ∧
    r !! "activity_source" = Some (VStr (source_name q)).
Proof.
  intros Hrun Hp He Hne.
  assert (issue_prefix p +:+ e ∈ reported_issues w project_id calls) as Hx.
  { apply elem_of_reported_issues. by exists p, e. }
  assert ((probe_result p w project_id).1 = None) as Hnone.
  { destruct (probe_result p w project_id).1 as [t|] eqn:Ht; [|done].
    apply probe_result_exclusive in Ht. congruence. }
  rewrite run_get_project_last_activity in Hrun.
  destruct (probe_result Compute w project_id).1 as [tc|] eqn:Hc,
           (probe_result Storage w project_id).1 as [ts|] eqn:Hs;
    injection Hrun as <- <-.
  - apply called_first_two in Hp as [-> | ->]; congruence.
  - rewrite record_of_issues, record_of_date, record_of_source, issues2_reported.
    split_and!; [|done|].
    + destruct (reported_issues _ _ _); [by apply elem_of_nil in Hx|done].
    + intros q t [-> | ->]%called_first_two Hq; by simplify_eq.
  - rewrite record_of_issues, record_of_date, record_of_source, issues2_reported.
    split_and!; [|done|].
    + destruct (reported_issues _ _ _); [by apply elem_of_nil in Hx|done].
    + intros q t [-> | ->]%called_first_two Hq; by simplify_eq.
  - rewrite record_of_issues, record_of_date, record_of_source, issues3_reported.
    split_and!; [|done|].
    + destruct (reported_issues _ _ _); [by apply elem_of_nil in Hx|done].
    + intros q t _ Hq. destruct q; simplify_eq. by rewrite Hq.
Qed.

(** What the aggregator returns is a record the report writer accepts. *)
Lemma aggregator_returns_activity_record w project_id r calls :
  run (get_project_last_activity w project_id) = (Ok r, calls) → activity_record r.
Proof.
  intros [(e & _ & -> & _) | (d & src & _ & -> & _)]%run_outcome.
  - split_and!; [by eexists|by left|by eexists|right; by eexists].
  - unfold activity_record.
    rewrite record_of_project_id, record_of_date, record_of_source, record_of_issues.
    split_and!; [by eexists| |by eexists|].
    + destruct d; [right; by eexists|by left].
    + destruct (reported_issues w project_id calls); [by left|right; by eexists].
Qed.

(** ** Example runs *)

Lemma aggregation_failure_gives_error_record_witness :
  run (aggregate_try mixed_world "p")
    = (Raise (TypeError "can't compare offset-naive and offset-aware datetimes"),
       [Called Compute; Called Storage]) ∧
  ∃ r, run (get_project_last_activity mixed_world "p")
         = (Ok r, [Called Compute; Called Storage]) ∧
       r !! "project_id" = Some (VStr "p") ∧
       r !! "last_activity_date" = Some VNone ∧
       r !! "activity_source" = Some (VStr "Error") ∧
       r !! "access_issues"
         = Some (VStr "can't compare offset-naive and offset-aware datetimes").
Proof.
  split; [reflexivity|].
  apply (aggregation_failure_gives_error_record mixed_world "p"
           (TypeError "can't compare offset-naive and offset-aware datetimes")).
  reflexivity.
Defined.

Lemma source_none_iff_no_timestamp_witness :
  run (get_project_last_activity idle_world "p")
    = (Ok (record_of "p" None "None" []),
       [Called Compute; Called Storage; Called ServiceUsage]) ∧
  (record_of "p" None "None" [] !! "activity_source" = Some (VStr "None") ↔
     record_of "p" None "None" [] !! "last_activity_date" = Some VNone ∧
     ∀ p, Called p ∈ [Called Compute; Called Storage; Called ServiceUsage] →
          (probe_result p idle_world "p").1 = None).
Proof.
  split; [reflexivity|].
  apply (source_none_iff_no_timestamp idle_world "p"). reflexivity.
Defined.

Lemma probes_run_in_order_with_fallback_witness :
  run (get_project_last_activity services_world "p")
    = (Ok (record_of "p" (Some (utc 2025 6 11 12 0 0)) "API Usage" []),
       [Called Compute; Called Storage; Called ServiceUsage]) ∧
  ∀ t, (probe_result ServiceUsage services_world "p").1 = Some t ↔
       lists_services services_world "p" ∧ t = datetime_now_utc services_world.
Proof.
  split; [reflexivity|].
  eapply (probes_run_in_order_with_fallback services_world "p" _ _).
  reflexivity.
Defined.

Lemma tie_keeps_earlier_source_witness :
  dt_eq (utc 2025 6 1 0 0 0) (utc 2025 6 1 0 0 0) = true ∧
  record_of "p" (Some (utc 2025 6 1 0 0 0)) "Compute Engine" [] !! "activity_source"
    = Some (VStr (source_name (earlier Storage Compute))).
Proof.
  split; [reflexivity|].
  eapply (tie_keeps_earlier_source tie_world "p" _ [Called Compute; Called Storage]
            Storage Compute (utc 2025 6 1 0 0 0) (utc 2025 6 1 0 0 0)).
  - reflexivity.
  - discriminate.
  - apply called_first_two. by right.
  - apply called_first_two. by left.
  - reflexivity.
  - reflexivity.
  - reflexivity.
Defined.

Lemma nonempty_errors_are_listed_witness :
  (probe_result Compute denied_world "p").2 = Some "API not enabled" ∧
  record_of "p" (Some (utc 2025 6 1 0 0 0)) "Cloud Storage" ["Compute: API not enabled"]
    !! "access_issues"
    = Some (VStr (join "; " (reported_issues denied_world "p"
                               [Called Compute; Called Storage]))).
Proof.
  split; [reflexivity|].
  eapply (nonempty_errors_are_listed denied_world "p" _ [Called Compute; Called Storage]
            Compute "API not enabled").
  - reflexivity.
  - apply called_first_two. by left.
  - reflexivity.
  - discriminate.
Defined.


(** C6, as stated, fails: a probe that ran returned the empty error text, and
    [access_issues] is [None], so nothing is listed under the probe's prefix. *)
Lemma empty_error_is_not_listed :
  ¬ (∀ (w : world) (project_id : string) (r : gmap string pyval)
       (calls : list event) (p : probe) (e : string),
       run (get_project_last_activity w project_id) = (Ok r, calls) →
       Called p ∈ calls →
       (probe_result p w project_id).2 = Some e →
       ∃ s, r !! "access_issues" = Some (VStr s) ∧
            contains (issue_prefix p +:+ e) s = true).
Proof.
  intros H.
  destruct (H blank_error_world "p" _ _ Compute "" eq_refl) as (s & Hs & _).
  - apply called_all_three.
  - reflexivity.
  - discriminate Hs.
Qed.

(** ** The sort *)

(** C1.  On records dated 2024-01-01, null and 2025-06-01 the sort returns
    the undated record first, then 2025-06-01, then 2024-01-01. *)
Theorem sort_puts_undated_first :
  sort_projects [activity "a" (Some (utc 2024 1 1 0 0 0));
                 activity "b" None;
                 activity "c" (Some (utc 2025 6 1 0 0 0))]
  = Ok [activity "b" None;
        activity "c" (Some (utc 2025 6 1 0 0 0));
        activity "a" (Some (utc 2024 1 1 0 0 0))].
Proof. reflexivity. Qed.

(** ** What the sort does in general *)

Lemma sort_key_undated x k :
  sort_key x = Ok k →
  k.1 = true ↔ x !! "last_activity_date" = Some VNone.
Proof.
  unfold sort_key, getitem, mbind, result_bind.
  destruct (x !! "last_activity_date") as [v|]; [|done].
  intros [= <-]. destruct v; cbn; split; congruence.
Qed.

Lemma sort_key_undated_key x k :
  sort_key x = Ok k → k.1 = true → k = (true, VDate datetime_min).
Proof.
  unfold sort_key, getitem, mbind, result_bind.
  destruct (x !! "last_activity_date") as [v|]; [|done].
  intros [= <-]. by destruct v.
Qed.

Lemma mapM_keyed l : ∀ keyed,
  mapM (M:=result) (λ x, k ← sort_key x; Ok (k, x)) l = Ok keyed →
  keyed.*2 = l ∧ Forall keyed_ok keyed.
Proof.
  induction l as [|x l IH]; intros keyed; cbn.
  - intros [= <-]. split; [done|]. by apply Forall_nil.
  - unfold mbind at 1 2, result_bind at 1 2.
    destruct (sort_key x) as [k|e] eqn:Hk; [|done]. cbn.
    unfold mbind at 1, result_bind at 1.
    destruct (mapM _ l) as [keyed'|e]; [|done].
    intros [= <-]. destruct (IH keyed' eq_refl) as [<- Hall].
    split; [done|]. apply Forall_cons. by split.
Qed.

Lemma insert_desc_perm {A} (x : (bool * pyval) * A) l : ∀ r,
  insert_desc x l = Ok r → r ≡ₚ x :: l.
Proof.
  induction l as [|y l IH]; intros r; cbn.
  - by intros [= <-].
  - unfold mbind, result_bind. destruct (key_lt x.1 y.1) as [[|]|e]; [|by intros [= <-]|done].
    destruct (insert_desc x l) as [r'|e]; [|done]. intros [= <-].
    rewrite (IH r' eq_refl). apply Permutation_swap.
Qed.

Lemma sort_desc_perm {A} (l : list ((bool * pyval) * A)) : ∀ s,
  sort_desc l = Ok s → s ≡ₚ l.
Proof.
  induction l as [|x l IH]; intros s; cbn.
  - by intros [= <-].
  - unfold mbind, result_bind. destruct (sort_desc l) as [s'|e]; [|done].
    intros Hins%insert_desc_perm. by rewrite Hins, (IH s' eq_refl).
Qed.

(** The sort neither loses nor invents a record. *)
Lemma sort_projects_perm l l' : sort_projects l = Ok l' → l' ≡ₚ l.
Proof.
  unfold sort_projects, mbind, result_bind.
  destruct (mapM _ l) as [keyed|e] eqn:Hkeyed; [|done].
  destruct (sort_desc keyed) as [sorted|e] eqn:Hsorted; [|done].
  intros [= <-]. apply mapM_keyed in Hkeyed as [<- _].
  apply fmap_Permutation. by apply sort_desc_perm.
Qed.

(** An undated record is inserted in front of everything. *)
Lemma insert_desc_undated x l :
  keyed_ok x → Forall keyed_ok l → x.1.1 = true → insert_desc x l = Ok (x :: l).
Proof.
  intros Hx Hl Htrue. destruct l as [|y l]; [done|]. cbn.
  apply Forall_cons in Hl as [Hy _].
  rewrite (sort_key_undated_key _ _ Hx Htrue).
  unfold key_lt. cbn [fst snd]. destruct y.1.1 eqn:Hy1; cbn [Bool.eqb].
  - by rewrite (sort_key_undated_key _ _ Hy Hy1).
  - done.
Qed.

(** A dated record is inserted behind an undated head. *)
Lemma insert_desc_dated {A} (x y : (bool * pyval) * A) l r :
  x.1.1 = false → y.1.1 = true → insert_desc x (y :: l) = Ok r →
  ∃ r', r = y :: r'.
Proof.
  intros Hx Hy. cbn. unfold key_lt. rewrite Hx, Hy. cbn.
  destruct (insert_desc x l) as [r'|e]; [|done]. intros [= <-]. by eexists.
Qed.

Lemma sort_desc_undated_head l : ∀ s,
  Forall keyed_ok l → sort_desc l = Ok s →
  (∃ x, x ∈ l ∧ x.1.1 = true) →
  ∃ y rest, s = y :: rest ∧ y.1.1 = true.
Proof.
  induction l as [|x l IH]; intros s Hl; cbn.
  - by intros _ (x & ?%elem_of_nil & _).
  - unfold mbind, result_bind.
    destruct (sort_desc l) as [s'|e] eqn:Hs'; [|done].
    apply Forall_cons in Hl as [Hx Hl].
    assert (Forall keyed_ok s') as Hs'ok by by rewrite (sort_desc_perm _ _ Hs').
    intros Hins Hex. destruct (x.1.1) eqn:Hx1.
    + rewrite insert_desc_undated in Hins by done. injection Hins as <-.
      by exists x, s'.
    + destruct Hex as (z & [-> | Hz]%elem_of_cons & Hz1); [congruence|].
      destruct (IH s' Hl eq_refl) as (y & rest & -> & Hy1); [by exists z|].
      destruct (insert_desc_dated _ _ _ _ Hx1 Hy1 Hins) as [r' ->].
      by exists y, r'.
Qed.

(** Whenever the list holds an undated record and the sort returns, the
    first record of the result is undated. *)
Lemma sort_projects_undated_first l l' :
  sort_projects l = Ok l' →
  (∃ x, x ∈ l ∧ x !! "last_activity_date" = Some VNone) →
  ∃ y rest, l' = y :: rest ∧ y !! "last_activity_date" = Some VNone.
Proof.
  unfold sort_projects, mbind, result_bind.
  destruct (mapM _ l) as [keyed|e] eqn:Hkeyed; [|done].
  destruct (sort_desc keyed) as [sorted|e] eqn:Hsorted; [|done].
  intros [= <-] (x & Hx & Hdate). apply mapM_keyed in Hkeyed as [<- Hok].
  apply list_elem_of_fmap in Hx as (kx & -> & Hkx).
  destruct (sort_desc_undated_head keyed sorted Hok Hsorted) as (y & rest & -> & Hy).
  { exists kx. split; [done|]. eapply sort_key_undated; [|done].
    by eapply Forall_forall in Hok. }
  exists y.2, (rest.*2). split; [done|]. eapply sort_key_undated; [|done].
  assert (Forall keyed_ok (y :: rest)) as Hok' by by rewrite (sort_desc_perm _ _ Hsorted).
  by apply Forall_cons in Hok' as [? _].
Qed.

(** ** The report *)

Lemma ws_cell_Ok ws r c v ws' :
  ws_cell ws r c v = Ok ws' → ws' = put_cell ws r c v.
Proof.
  unfold ws_cell. destruct v as [| |s|]; try by intros [= <-].
  destruct (has_illegal_character s); [done|]. by intros [= <-].
Qed.

Lemma ws_cell_returns ws r c v :
  (∀ s, v = VStr s → has_illegal_character s = false) →
  ws_cell ws r c v = Ok (put_cell ws r c v).
Proof.
  intros Hv. unfold ws_cell. destruct v as [| |s|]; try done.
  by rewrite (Hv s).
Qed.

(** One step through a call of [ws.cell] that returned. *)
Ltac cell_step :=
  match goal with
  | |- context [ws_cell ?ws ?r ?c ?v] =>
      let H := fresh "Hcell" in
      destruct (ws_cell ws r c v) as [?|?] eqn:H;
      [apply ws_cell_Ok in H; subst; cbn beta iota|done]
  end.

Section worksheet_lemmas.
Local Open Scope nat_scope.

Lemma ws_value_cell ws r c v r' c' :
  ws_value (put_cell ws r c v) r' c' =
  if decide (r = r' ∧ c = c') then
    match v with VNone => ws_value ws r' c' | _ => v end
  else ws_value ws r' c'.
Proof.
  unfold ws_value, put_cell. cbn. case_decide as Hd.
  - destruct Hd as [<- <-].
    destruct v; by rewrite ?lookup_insert_eq, ?lookup_partial_alter_eq.
  - assert ((r, c) ≠ (r', c')) by (intros [= <- <-]; by apply Hd).
    destruct v; by rewrite ?lookup_insert_ne, ?lookup_partial_alter_ne.
Qed.

Lemma ws_value_set_fill ws r c colour r' c' :
  ws_value (set_fill ws r c colour) r' c' = ws_value ws r' c'.
Proof. done. Qed.

Lemma ws_value_set_bold ws r c r' c' :
  ws_value (set_bold ws r c) r' c' = ws_value ws r' c'.
Proof. done. Qed.

Lemma ws_value_set_width ws letter width r' c' :
  ws_value (set_width ws letter width) r' c' = ws_value ws r' c'.
Proof. done. Qed.

Lemma fill_loop ws row :
  for_each (seq 1 5) ws (λ ws col,
    ws ← ws_cell ws row col VNone;
    Ok (set_fill ws row col access_issue_fill))
  = Ok (foldl (λ ws col, set_fill (put_cell ws row col VNone) row col access_issue_fill)
              ws (seq 1 5)).
Proof. done. Qed.

Lemma write_headers_eq :
  write_headers (set_title new_worksheet "Project Activity") = Ok headed_sheet.
Proof. done. Qed.

Lemma dt_sub_ok a b delta : dt_sub a b = Ok delta → delta = (instant a - instant b)%Z.
Proof. unfold dt_sub. case_bool_decide; congruence. Qed.

Lemma Ok_inj {A : Type} (a b : A) : Ok a = Ok b → a = b.
Proof. congruence. Qed.

(** What one pass of the row loop does to the sheet. *)
Lemma write_row_spec now ws row p ws' :
  activity_record p →
  (∀ c, ws_value ws row c = VNone) →
  write_row now ws (row, p) = Ok ws' →
  (∀ d, p !! "last_activity_date" = Some (VDate d) →
        dt_sub now d = Ok (instant now - instant d)%Z) ∧
  ws_max_row ws' = ws_max_row ws `max` row ∧
  ws_max_column ws ≤ ws_max_column ws' ≤ ws_max_column ws `max` 5 ∧
  ws_width ws' = ws_width ws ∧
  (∀ r c, r ≠ row → ws_value ws' r c = ws_value ws r c) ∧
  (∀ c, 1 ≤ c ≤ 5 → report_row now p !! (c - 1) = Some (ws_value ws' row c)).
Proof.
  intros ([pid Hpid] & Hdate & [src Hsrc] & Hiss) Hfresh.
  unfold write_row, getitem, report_row. cbn [fst snd].
  rewrite Hpid, Hsrc.
  destruct Hdate as [Hd | [d Hd]]; rewrite Hd;
    destruct Hiss as [Hi | [s Hi]]; rewrite Hi;
    cbn -[strftime dt_sub td_days ws_cell put_cell for_each];
    unfold mbind, result_bind.
  all: cell_step; try cell_step.
  all: try (destruct (dt_sub now d) as [delta|e] eqn:Hsub; [|done];
            cbn -[strftime td_days ws_cell put_cell for_each]).
  all: repeat cell_step.
  all: try (destruct (String.eqb_spec s "");
            cbn -[strftime td_days ws_cell put_cell for_each]).
  all: repeat cell_step.
  all: rewrite ?fill_loop; cbn -[strftime td_days].
  all: intros <-%Ok_inj; split_and!; [| cbn; lia | cbn; lia | cbn; lia | done | |].
  all: try (intros d0 Hd0; by simplify_eq).
  all: try (intros d0 Hd0; simplify_eq; by rewrite Hsub, (dt_sub_ok _ _ _ Hsub)).
  all: try (intros r c Hr; rewrite ?ws_value_set_fill;
            repeat (rewrite ws_value_cell; rewrite ?ws_value_set_fill;
                    let H := fresh in case_decide as H; [destruct H; congruence|]);
            done).
  all: intros c Hc;
    assert (c = 1 ∨ c = 2 ∨ c = 3 ∨ c = 4 ∨ c = 5) as Hcs by lia;
    destruct Hcs as [-> | [-> | [-> | [-> | ->]]]]; cbn -[strftime td_days];
    f_equal; rewrite ?ws_value_set_fill;
    repeat (rewrite ws_value_cell; rewrite ?ws_value_set_fill;
            let H := fresh in
            case_decide as H; [try (destruct H; congruence)|try (by destruct H)]);
    try done.
  all: apply dt_sub_ok in Hsub; by subst.
Qed.

Lemma enumerate_cons {A : Type} k (x : A) l :
  enumerate k (x :: l) = (k, x) :: enumerate (S k) l.
Proof. done. Qed.

(** What the whole row loop does to a sheet whose rows from [k] on are
    still empty. *)
Lemma write_rows_spec now ps : ∀ k ws ws',
  Forall activity_record ps →
  (∀ r c, k ≤ r → ws_value ws r c = VNone) →
  S (ws_max_row ws) = k →
  ws_max_column ws = 5 →
  for_each (enumerate k ps) ws (write_row now) = Ok ws' →
  (∀ p d, p ∈ ps → p !! "last_activity_date" = Some (VDate d) →
          dt_sub now d = Ok (instant now - instant d)%Z) ∧
  ws_max_row ws' = ws_max_row ws + length ps ∧
  ws_max_column ws' = 5 ∧
  ws_width ws' = ws_width ws ∧
  (∀ r c, r < k → ws_value ws' r c = ws_value ws r c) ∧
  (∀ i p c, ps !! i = Some p → 1 ≤ c ≤ 5 →
     report_row now p !! (c - 1) = Some (ws_value ws' (k + i) c)).
Proof.
  induction ps as [|p ps IH]; intros k ws ws' Hps Hempty Hrow Hcol.
  - intros [= <-]. split_and!; try done. by intros p d ?%elem_of_nil.
  - rewrite enumerate_cons. cbn [for_each]. unfold mbind, result_bind.
    destruct (write_row now ws (k, p)) as [ws1|e] eqn:Hw; [|done].
    apply Forall_cons in Hps as [Hp Hps].
    apply write_row_spec in Hw as (Hsub1 & Hr1 & [Hc1 Hc2] & Hw1 & Hother & Hthis);
      [|done|by intros c; apply Hempty].
    intros Hrest.
    apply IH in Hrest as (Hsub' & Hr' & Hc' & Hw' & Hbelow & Hrows); [|done|..].
    + split_and!.
      * intros q d [-> | Hq]%elem_of_cons; [apply Hsub1|by apply Hsub'].
      * rewrite Hr', Hr1. cbn. lia.
      * done.
      * congruence.
      * intros r c Hr. rewrite Hbelow by lia. apply Hother. lia.
      * intros [|i] q c Hq Hc.
        -- injection Hq as ->. rewrite Nat.add_0_r, Hbelow by lia. by apply Hthis.
        -- replace (k + S i) with (S k + i) by lia. by apply Hrows.
    + intros r c Hr. rewrite Hother by lia. apply Hempty. lia.
    + lia.
    + lia.
Qed.

Lemma headed_sheet_spec :
  ws_max_row headed_sheet = 1 ∧
  ws_max_column headed_sheet = 5 ∧
  (∀ c, 1 ≤ c ≤ 5 → VStr <$> headers !! (c - 1) = Some (ws_value headed_sheet 1 c)) ∧
  (∀ r c, 2 ≤ r → ws_value headed_sheet r c = VNone).
Proof.
  split_and!; [done..| |].
  - intros c Hc.
    assert (c = 1 ∨ c = 2 ∨ c = 3 ∨ c = 4 ∨ c = 5) as Hcs by lia.
    by destruct Hcs as [-> | [-> | [-> | [-> | ->]]]].
  - intros r c Hr. unfold headed_sheet, write_headers. cbn.
    repeat (rewrite ws_value_set_bold, ws_value_cell;
            let H := fresh in case_decide as H; [lia|]).
    done.
Qed.

Lemma adjust_columns_spec cols : ∀ ws,
  ws_max_row (foldl adjust_column ws cols) = ws_max_row ws ∧
  ws_max_column (foldl adjust_column ws cols) = ws_max_column ws ∧
  ∀ r c, ws_value (foldl adjust_column ws cols) r c = ws_value ws r c.
Proof.
  induction cols as [|col cols IH]; intros ws; [done|].
  cbn [foldl]. destruct (IH (adjust_column ws col)) as (-> & -> & Hv).
  split_and!; [done..|]. intros r c. by rewrite Hv.
Qed.

Lemma column_values_ext ws ws' c :
  ws_max_row ws' = ws_max_row ws →
  (∀ r, ws_value ws' r c = ws_value ws r c) →
  column_values ws' c = column_values ws c.
Proof.
  intros Hr Hv. unfold column_values. rewrite Hr.
  apply list_fmap_ext. intros _ r _. apply Hv.
Qed.

Lemma adjust_columns_width ws c :
  1 ≤ c ≤ 5 →
  ws_width (foldl adjust_column ws (seq 1 5)) !! column_letter c
  = Some (foldl width_step 0 (column_values ws c) + 2).
Proof.
  intros Hc.
  assert (c = 1 ∨ c = 2 ∨ c = 3 ∨ c = 4 ∨ c = 5) as Hcs by lia.
  destruct Hcs as [-> | [-> | [-> | [-> | ->]]]]; cbn [foldl seq];
    unfold adjust_column; cbn [ws_width set_width];
    rewrite ?lookup_insert_ne by done; by rewrite lookup_insert_eq.
Qed.

(** The sheet that is saved: header row, one row per record, five columns,
    and the widths the last loop computed from them. *)
Lemma write_to_excel_spec w ps filename ws :
  Forall activity_record ps →
  write_to_excel w ps filename = Some ws →
  (∀ p d, p ∈ ps → p !! "last_activity_date" = Some (VDate d) →
          dt_sub (datetime_now_utc w) d
            = Ok (instant (datetime_now_utc w) - instant d)%Z) ∧
  ws_max_row ws = S (length ps) ∧
  ws_max_column ws = 5 ∧
  (∀ c, 1 ≤ c ≤ 5 → VStr <$> headers !! (c - 1) = Some (ws_value ws 1 c)) ∧
  (∀ i p c, ps !! i = Some p → 1 ≤ c ≤ 5 →
     report_row (datetime_now_utc w) p !! (c - 1) = Some (ws_value ws (i + 2) c)) ∧
  (∀ c, 1 ≤ c ≤ 5 →
     ws_width ws !! column_letter c
     = Some (foldl width_step 0 (column_values ws c) + 2)).
Proof.
  intros Hps. unfold write_to_excel, write_try. rewrite write_headers_eq.
  unfold mbind, result_bind.
  destruct headed_sheet_spec as (Hr0 & Hc0 & Hhead & Hempty).
  destruct (for_each _ _ _) as [ws1|e] eqn:Hrows; [|done].
  destruct (wb_save w filename _); [|done]. intros [= <-].
  apply write_rows_spec in Hrows as (Hsub & Hr1 & Hc1 & _ & Hbelow & Hrows);
    [|done|done|lia|done].
  destruct (adjust_columns_spec (seq 1 (ws_max_column ws1)) ws1) as (Hr2 & Hc2 & Hv).
  rewrite Hr2, Hc2. split_and!.
  - done.
  - lia.
  - done.
  - intros c Hc. rewrite Hv, Hbelow by lia. by apply Hhead.
  - intros i p c Hi Hc. rewrite Hv, (Nat.add_comm i 2). by apply Hrows.
  - intros c Hc. rewrite (column_values_ext ws1) by done.
    rewrite Hc1. by apply adjust_columns_width.
Qed.

End worksheet_lemmas.

(** ** Lengths of rendered values *)

Lemma append_cons a s t : String a s +:+ t = String a (s +:+ t).
Proof. done. Qed.

Lemma append_nil_r s : s +:+ "" = s.
Proof. induction s as [|a s IH]; [done|]. by rewrite append_cons, IH. Qed.

Lemma length_append s1 s2 :
  String.length (s1 +:+ s2) = (String.length s1 + String.length s2)%nat.
Proof.
  induction s1 as [|a s1 IH]; [done|]. rewrite append_cons. cbn. by rewrite IH.
Qed.



Lemma length_digits_go fuel : ∀ n acc k,
  (1 ≤ k)%nat → 0 ≤ n < 10 ^ Z.of_nat k →
  (String.length (digits_go fuel n acc) ≤ String.length acc + k)%nat.
Proof.
  induction fuel as [|fuel IH]; intros n acc k Hk Hn; cbn [digits_go]; [lia|].
  destruct (Z.ltb_spec n 10) as [Hlt|Hge]; [cbn; lia|].
  destruct k as [|[|k]]; [lia| change (10 ^ Z.of_nat 1) with 10 in Hn; lia |].
  etrans; [apply (IH _ _ (S k)); [lia|]|cbn; lia].
  replace (Z.of_nat (S (S k))) with (Z.succ (Z.of_nat (S k))) in Hn by lia.
  rewrite Z.pow_succ_r in Hn by lia.
  split; [apply Z.div_pos; lia|]. apply Z.div_lt_upper_bound; lia.
Qed.

Lemma length_str_nat n k :
  (1 ≤ k)%nat → 0 ≤ n < 10 ^ Z.of_nat k → (String.length (str_nat n) ≤ k)%nat.
Proof. intros Hk Hn. unfold str_nat. by apply (length_digits_go _ n "" k). Qed.

Lemma length_str_int z k :
  (1 ≤ k)%nat → - 10 ^ Z.of_nat k < z < 10 ^ Z.of_nat k →
  (String.length (str_int z) ≤ S k)%nat.
Proof.
  intros Hk Hz. unfold str_int. destruct (Z.ltb_spec z 0).
  - rewrite length_append. cbn. apply le_n_S, length_str_nat; lia.
  - etrans; [apply (length_str_nat _ k); lia|lia].
Qed.




(** The layout of a formatted date: the year as it is, the five other fields
    zero-filled to two digits, between the separators of
    [YYYY-MM-DD HH:MM:SS]. *)
Lemma strftime_layout d :
  strftime d "%Y-%m-%d %H:%M:%S"
  = str_nat (dt_year d) +:+ "-" +:+ zfill 2 (str_nat (dt_month d)) +:+ "-"
    +:+ zfill 2 (str_nat (dt_day d)) +:+ " " +:+ zfill 2 (str_nat (dt_hour d)) +:+ ":"
    +:+ zfill 2 (str_nat (dt_minute d)) +:+ ":" +:+ zfill 2 (str_nat (dt_second d)).
Proof.
  cbn -[zfill str_nat]. unfold strftime_directive. cbn -[zfill str_nat].
  by rewrite append_nil_r.
Qed.


Lemma days_in_month_bounds y m : 1 ≤ m ≤ 12 → 28 ≤ days_in_month y m ≤ 31.
Proof.
  intros Hm. unfold days_in_month.
  assert (m = 1 ∨ m = 2 ∨ m = 3 ∨ m = 4 ∨ m = 5 ∨ m = 6 ∨ m = 7 ∨ m = 8 ∨ m = 9
          ∨ m = 10 ∨ m = 11 ∨ m = 12) as Hms by lia.
  destruct (is_leap y); destruct_or!; subst m; split; by vm_compute.
Qed.


(** ** When the report is saved *)

Lemma has_illegal_character_append s t :
  has_illegal_character (s +:+ t)
  = has_illegal_character s || has_illegal_character t.
Proof.
  induction s as [|c s IH]; [done|]. rewrite append_cons. cbn.
  by rewrite IH, orb_assoc.
Qed.

Lemma has_illegal_character_digits fuel : ∀ n acc,
  has_illegal_character acc = false →
  has_illegal_character (digits_go fuel n acc) = false.
Proof.
  induction fuel as [|fuel IH]; intros n acc Hacc; cbn [digits_go]; [done|].
  assert (has_illegal_character (String (digit_char (n mod 10)) acc) = false) as Hd.
  { cbn. rewrite Hacc, orb_false_r. unfold digit_char.
    pose proof (Z.mod_pos_bound n 10 ltac:(lia)) as Hm.
    assert (∃ k, (k < 10)%nat ∧ Z.to_nat (n mod 10) = k) as (k & Hk & ->)
      by (eexists; split; [|done]; lia).
    do 10 (destruct k as [|k]; [done|]). lia. }
  destruct (n <? 10); [done|]. by apply IH.
Qed.

Lemma has_illegal_character_str_nat n : has_illegal_character (str_nat n) = false.
Proof. by apply has_illegal_character_digits. Qed.

Lemma has_illegal_character_zfill width s :
  has_illegal_character s = false → has_illegal_character (zfill width s) = false.
Proof.
  intros Hs. unfold zfill. rewrite has_illegal_character_append, Hs, orb_false_r.
  induction (width - String.length s)%nat as [|k IH]; [done|]. by cbn.
Qed.

(** A formatted date holds digits and separators only. *)
Lemma has_illegal_character_strftime d :
  has_illegal_character (strftime d "%Y-%m-%d %H:%M:%S") = false.
Proof.
  rewrite strftime_layout, !has_illegal_character_append.
  rewrite !has_illegal_character_zfill by apply has_illegal_character_str_nat.
  by rewrite has_illegal_character_str_nat.
Qed.

Lemma write_row_returns now ws row p :
  activity_record p →
  writable_text p →
  (∀ d, p !! "last_activity_date" = Some (VDate d) → aware d = aware now) →
  ∃ ws', write_row now ws (row, p) = Ok ws'.
Proof.
  intros ([pid Hpid] & Hdate & [src Hsrc] & Hiss) Htext Haware.
  unfold write_row, getitem. cbn [fst snd]. rewrite Hpid, Hsrc.
  assert (∀ ws r c, ws_cell ws r c (VStr pid) = Ok (put_cell ws r c (VStr pid))) as Hcpid.
  { intros. apply ws_cell_returns. intros ? [= <-]. by eapply Htext. }
  assert (∀ ws r c, ws_cell ws r c (VStr src) = Ok (put_cell ws r c (VStr src))) as Hcsrc.
  { intros. apply ws_cell_returns. intros ? [= <-]. by eapply Htext. }
  unfold mbind, result_bind. rewrite Hcpid.
  destruct Hdate as [Hd | [d Hd]]; rewrite Hd;
    destruct Hiss as [Hi | [s Hi]]; rewrite Hi;
    cbn -[strftime dt_sub td_days ws_cell put_cell for_each].
  1,2: rewrite !ws_cell_returns by (by intros ? [= <-]); rewrite Hcsrc.
  3,4: rewrite ws_cell_returns
      by (intros ? [= <-]; apply has_illegal_character_strftime);
    unfold dt_sub; rewrite bool_decide_eq_true_2 by (symmetry; by apply Haware);
    rewrite ws_cell_returns by done; rewrite Hcsrc.
  all: try (destruct (String.eqb s "");
            cbn -[strftime td_days ws_cell put_cell for_each]).
  all: try by eexists.
  all: rewrite ws_cell_returns by (intros ? [= <-]; by eapply Htext);
    eexists; reflexivity.
Qed.

Lemma write_rows_return now ps : ∀ k ws,
  Forall activity_record ps →
  Forall writable_text ps →
  (∀ p d, p ∈ ps → p !! "last_activity_date" = Some (VDate d) → aware d = aware now) →
  ∃ ws', for_each (enumerate k ps) ws (write_row now) = Ok ws'.
Proof.
  induction ps as [|p ps IH]; intros k ws Hps Htext Haware; [by eexists|].
  rewrite enumerate_cons. cbn [for_each]. unfold mbind, result_bind.
  apply Forall_cons in Hps as [Hp Hps]. apply Forall_cons in Htext as [Hpt Htext].
  destruct (write_row_returns now ws k p Hp Hpt) as [ws1 ->].
  { intros d. apply Haware, list_elem_of_here. }
  apply IH; [done..|]. intros q d Hq. by apply Haware, list_elem_of_further.
Qed.

(** The sheet is saved whenever every date in the records is an aware one,
    no text in them holds a character the cells refuse, and the workbook can
    be written to the file. *)
Lemma write_to_excel_returns w ps filename :
  Forall activity_record ps →
  Forall writable_text ps →
  (∀ p d, p ∈ ps → p !! "last_activity_date" = Some (VDate d) → aware d = true) →
  (∀ ws, wb_save w filename ws = Ok tt) →
  ∃ ws, write_to_excel w ps filename = Some ws.
Proof.
  intros Hps Htext Haware Hsave. unfold write_to_excel, write_try.
  rewrite write_headers_eq. unfold mbind, result_bind.
  destruct (write_rows_return (datetime_now_utc w) ps 2%nat headed_sheet Hps Htext)
    as [ws1 ->]; [done|]. rewrite Hsave. by eexists.
Qed.

(** ** Whole days *)

Lemma td_days_floor delta :
  td_days delta * us_per_day ≤ delta < (td_days delta + 1) * us_per_day.
Proof.
  unfold td_days, us_per_day, us_per_second.
  pose proof (Z.div_mod delta (86400 * 1000000) ltac:(lia)).
  pose proof (Z.mod_pos_bound delta (86400 * 1000000) ltac:(lia)). lia.
Qed.




Lemma days_before_month_bounds y m : 1 ≤ m ≤ 12 → 0 ≤ days_before_month y m ≤ 335.
Proof.
  intros Hm. unfold days_before_month.
  assert (m = 1 ∨ m = 2 ∨ m = 3 ∨ m = 4 ∨ m = 5 ∨ m = 6 ∨ m = 7 ∨ m = 8 ∨ m = 9
          ∨ m = 10 ∨ m = 11 ∨ m = 12) as Hms by lia.
  destruct (is_leap y); destruct_or!; subst m; split; by vm_compute.
Qed.

Lemma days_before_year_bounds y : 1 ≤ y ≤ 9999 → 0 ≤ days_before_year y ≤ 3651695.
Proof.
  intros Hy. unfold days_before_year. cbv zeta.
  pose proof (Z.div_mod (y - 1) 4 ltac:(lia)).
  pose proof (Z.mod_pos_bound (y - 1) 4 ltac:(lia)).
  pose proof (Z.div_mod (y - 1) 100 ltac:(lia)).
  pose proof (Z.mod_pos_bound (y - 1) 100 ltac:(lia)).
  pose proof (Z.div_mod (y - 1) 400 ltac:(lia)).
  pose proof (Z.mod_pos_bound (y - 1) 400 ltac:(lia)).
  lia.
Qed.

(** A valid datetime lies within the 3652059 days of the calendar, give or
    take its UTC offset. *)
Lemma instant_bounds d :
  valid_datetime d → - us_per_day < instant d < 3652064 * us_per_day.
Proof.
  intros (Hy & Hmo & Hd & Hh & Hmi & Hs & Hus & Hoff).
  pose proof (days_in_month_bounds (dt_year d) (dt_month d) Hmo).
  pose proof (days_before_month_bounds (dt_year d) (dt_month d) Hmo).
  pose proof (days_before_year_bounds (dt_year d) Hy).
  unfold instant, local_micros, ymd2ord, us_per_day, us_per_second in *.
  destruct (dt_utcoffset d); cbn [default from_option id]; cbn beta iota in Hoff; lia.
Qed.

Lemma td_days_bounds a b :
  valid_datetime a → valid_datetime b →
  - 10 ^ Z.of_nat 7 < td_days (instant a - instant b) < 10 ^ Z.of_nat 7.
Proof.
  intros Ha%instant_bounds Hb%instant_bounds.
  pose proof (td_days_floor (instant a - instant b)).
  change (10 ^ Z.of_nat 7) with 10000000.
  unfold us_per_day, us_per_second in *. lia.
Qed.

Lemma valid_datetime_now w : valid_datetime (clock w) → valid_datetime (datetime_now_utc w).
Proof.
  intros (Hy & Hmo & Hd & Hh & Hmi & Hs & Hus & _).
  unfold valid_datetime, datetime_now_utc. cbn.
  repeat (split; [done|]). split; by vm_compute.
Qed.

(** ** Column widths *)

Section column_widths.
Local Open Scope nat_scope.

Lemma str_len_le s : str_len s ≤ String.length s.
Proof.
  induction s as [|c s IH]; [done|]. cbn. destruct (continuation_byte c); lia.
Qed.

Lemma width_step_max m v :
  (∃ s, v = VStr s) ∨ rendered_length v ≤ m →
  width_step m v = m `max` rendered_length v.
Proof.
  unfold width_step, rendered_length. intros [[s ->] | Hle].
  - cbn [py_str py_len].
    destruct (Nat.ltb_spec m (str_len s)); cbn beta iota; lia.
  - destruct (Nat.ltb_spec m (str_len (py_str v))); [lia|cbn beta iota; lia].
Qed.

Lemma foldl_width_step vals : ∀ m,
  (∀ v, v ∈ vals → (∃ s, v = VStr s) ∨ rendered_length v ≤ m) →
  foldl width_step m vals = m `max` max_list (rendered_length <$> vals).
Proof.
  induction vals as [|v vals IH]; intros m Hvals; cbn; [lia|].
  rewrite width_step_max by (apply Hvals; left).
  rewrite IH; [lia|].
  intros v' Hv'. destruct (Hvals v') as [?|?]; [by right|by left|right; lia].
Qed.

(** Below a header, a cell of the report either holds a string or renders
    no longer than the header. *)
Lemma report_row_fits now p c v h :
  valid_datetime now →
  activity_record p → dates_valid p →
  1 ≤ c ≤ 5 →
  report_row now p !! (c - 1) = Some v →
  headers !! (c - 1) = Some h →
  (∃ s, v = VStr s) ∨ rendered_length v ≤ str_len h.
Proof.
  intros Hnow ([pid Hpid] & Hdate & [src Hsrc] & Hiss) Hvalid Hc.
  unfold report_row. rewrite Hpid, Hsrc.
  assert (c = 1 ∨ c = 2 ∨ c = 3 ∨ c = 4 ∨ c = 5) as Hcs by lia.
  destruct Hcs as [-> | [-> | [-> | [-> | ->]]]];
    cbn -[strftime td_days str_len]; intros [= <-] [= <-]; try (left; by eexists).
  - destruct Hdate as [Hd | [d Hd]]; rewrite Hd; cbn -[strftime td_days str_len];
      left; by eexists.
  - destruct Hdate as [Hd | [d Hd]]; rewrite Hd; cbn -[strftime td_days str_len];
      [left; by eexists|].
    right. unfold rendered_length. cbn -[td_days str_len].
    change (str_len "Days Since Activity") with 19.
    etrans; [apply str_len_le|].
    etrans; [apply (length_str_int _ 7); [lia|]|lia].
    apply td_days_bounds; [done|by apply Hvalid].
  - destruct Hiss as [Hi | [s Hi]]; rewrite Hi.
    + right. vm_compute. lia.
    + destruct (String.eqb s ""); [right; vm_compute; lia|left; by eexists].
Qed.

Lemma shown_length_le v : shown_length v ≤ rendered_length v.
Proof. destruct v; unfold shown_length, rendered_length; lia. Qed.

Lemma max_list_shown vals : ∀ m,
  4 ≤ m →
  m `max` max_list (rendered_length <$> vals) = m `max` max_list (shown_length <$> vals).
Proof.
  induction vals as [|v vals IH]; intros m Hm; [done|]. cbn [fmap list_fmap max_list].
  specialize (IH m Hm). destruct v; unfold rendered_length, shown_length in *;
    cbn [py_str id] in *; try lia.
  change (str_len "None") with 4. lia.
Qed.

Lemma fmap_seq_cells {A B : Type} (f : nat → B) (g : A → B) (l : list A) :
  (∀ i x, l !! i = Some x → f i = g x) →
  f <$> seq 0 (length l) = g <$> l.
Proof.
  intros Hfg. apply list_eq. intros i. rewrite !list_lookup_fmap.
  destruct (l !! i) as [x|] eqn:Hi; cbn.
  - rewrite lookup_seq_lt by by eapply lookup_lt_Some. cbn. f_equal. by apply Hfg.
  - rewrite lookup_seq_ge; [done|]. by apply lookup_ge_None.
Qed.

(** The loop on its own passes over a cell that is not a string, even when
    it renders longest; the sheets of the report never hold such a cell. *)
Example width_loop_skips_integers :
  foldl width_step 0 [VStr "ab"; VInt 12345] = 2 ∧
  max_list (rendered_length <$> [VStr "ab"; VInt 12345]) = 5.
Proof. by split. Qed.

(** C9.  For every column of the saved sheet, the cells of the column are the
    header and, below it, the value of each record's row; the width of the
    column is the length of the longest rendered value among these cells plus
    2, whether they hold strings, integers or nothing. *)
Theorem column_width_is_longest_value_plus_margin (w : world)
    (ps : list (gmap string pyval)) (filename : string) (ws : worksheet) (c : nat) :
  valid_datetime (clock w) →
  Forall activity_record ps →
  Forall dates_valid ps →
  write_to_excel w ps filename = Some ws →
  1 ≤ c ≤ ws_max_column ws →
  (∃ h, headers !! (c - 1) = Some h ∧
        column_cells ws c (S (length ps))
        = VStr h :: ((λ p, default VNone (report_row (datetime_now_utc w) p !! (c - 1)))
                       <$> ps)) ∧
  ws_width ws !! column_letter c
    = Some (max_list (rendered_length <$> column_cells ws c (S (length ps))) + 2) ∧
  max_list (rendered_length <$> column_cells ws c (S (length ps)))
    = max_list (shown_length <$> column_cells ws c (S (length ps))).
Proof.
  intros Hclock Hps Hvalid Hws Hc.
  destruct (write_to_excel_spec w ps filename ws Hps Hws)
    as (_ & Hr & Hc5 & Hhead & Hrows & Hwidth).
  rewrite Hc5 in Hc. rewrite (Hwidth c Hc).
  specialize (Hhead c Hc).
  destruct (headers !! (c - 1)) as [h|] eqn:Hh; [|done].
  injection Hhead as Hhead.
  assert (4 ≤ str_len h) as Hlen.
  { assert (c = 1 ∨ c = 2 ∨ c = 3 ∨ c = 4 ∨ c = 5) as Hcs by lia.
    destruct Hcs as [-> | [-> | [-> | [-> | ->]]]]; injection Hh as <-;
      vm_compute; lia. }
  assert (column_cells ws c (S (length ps)) = column_values ws c) as Hcells.
  { unfold column_cells, column_values. by rewrite Hr. }
  split.
  { exists h. split; [done|]. unfold column_cells. cbn [seq fmap list_fmap].
    rewrite <- Hhead. f_equal. rewrite <- fmap_S_seq, <- list_fmap_compose.
    rewrite <- (fmap_S_seq 0), <- list_fmap_compose.
    apply (fmap_seq_cells _ _ ps). intros i p Hi. cbn.
    rewrite (Hrows i p c Hi Hc). cbn. f_equal. lia. }
  rewrite Hcells. unfold column_values. rewrite Hr.
  cbn [seq fmap list_fmap foldl max_list].
  rewrite <- Hhead.
  rewrite (width_step_max 0 (VStr h)) by (left; by eexists).
  change (rendered_length (VStr h)) with (str_len h).
  change (shown_length (VStr h)) with (str_len h).
  rewrite Nat.max_0_l. split; [|by apply max_list_shown].
  f_equal. f_equal. apply foldl_width_step.
  intros v (row & -> & Hrow)%list_elem_of_fmap.
  apply elem_of_seq in Hrow.
  destruct (lookup_lt_is_Some_2 ps (row - 2) ltac:(lia)) as [p Hp].
  eapply (report_row_fits (datetime_now_utc w) p c _ h).
  - by apply valid_datetime_now.
  - eapply Forall_forall in Hps; [done|]. by eapply list_elem_of_lookup_2.
  - eapply Forall_forall in Hvalid; [done|]. by eapply list_elem_of_lookup_2.
  - done.
  - rewrite (Hrows _ _ _ Hp Hc). do 2 f_equal. lia.
  - done.
Qed.

End column_widths.

(** ** An example report *)

Lemma activity_is_record pid d : activity_record (activity pid d).
Proof.
  unfold activity_record, activity. rewrite record_of_project_id, record_of_date,
    record_of_source, record_of_issues.
  split_and!; [by eexists| |by eexists|by left].
  destruct d; [right; by eexists|by left].
Qed.

Lemma report_example_records : Forall activity_record report_example.
Proof.
  repeat (apply Forall_cons; split; [apply activity_is_record|]). by apply Forall_nil.
Qed.

Lemma report_example_valid : Forall dates_valid report_example.
Proof.
  repeat (apply Forall_cons; split;
    [intros d; unfold activity; rewrite record_of_date; intros [= <-];
     repeat split; by vm_compute|]).
  by apply Forall_nil.
Qed.


Lemma column_width_is_longest_value_plus_margin_witness :
  ∃ ws, write_to_excel idle_world report_example "report.xlsx" = Some ws ∧
        ws_width ws !! "A" = Some 12%nat ∧
        ws_width ws !! "B" = Some 21%nat ∧
        ws_width ws !! "D" = Some 21%nat.
Proof.
  destruct (write_to_excel idle_world report_example "report.xlsx") as [ws|] eqn:Hws;
    [|by vm_compute in Hws].
  exists ws. split; [done|].
  assert (valid_datetime (clock idle_world)) as Hclock
    by (repeat split; by vm_compute).
  assert (∀ c, (1 ≤ c ≤ 5)%nat → (1 ≤ c ≤ ws_max_column ws)%nat) as Hcol.
  { destruct (write_to_excel_spec _ _ _ _ report_example_records Hws)
      as (_ & _ & -> & _). done. }
  pose proof (λ c Hc, column_width_is_longest_value_plus_margin idle_world
                report_example "report.xlsx" ws c Hclock report_example_records
                report_example_valid Hws (Hcol c Hc)) as Hwidth.
  destruct (Hwidth 1%nat ltac:(lia)) as ((h1 & [= <-] & H1) & Hw1 & _).
  destruct (Hwidth 2%nat ltac:(lia)) as ((h2 & [= <-] & H2) & Hw2 & _).
  destruct (Hwidth 4%nat ltac:(lia)) as ((h4 & [= <-] & H4) & Hw4 & _).
  change (column_letter 1) with "A" in Hw1. change (column_letter 2) with "B" in Hw2.
  change (column_letter 4) with "D" in Hw4.
  rewrite Hw1, Hw2, Hw4, H1, H2, H4.
  clear. split_and!; f_equal.
Defined.

(** * Further properties *)

(** ** The sort: order, failures *)

Lemma py_eq_sym a b : py_eq a b = py_eq b a.
Proof.
  destruct a, b; cbn; try done.
  - apply Z.eqb_sym.
  - apply String.eqb_sym.
  - unfold dt_eq. rewrite (Z.eqb_sym (instant d)).
    f_equal. apply bool_decide_ext. split; congruence.
Qed.

Lemma string_ltb_asym s t : String.ltb s t = true → String.ltb t s = false.
Proof.
  unfold String.ltb. rewrite (String.compare_antisym t s).
  by destruct (String.compare s t).
Qed.

Lemma py_lt_asym a b : py_lt a b = Ok true → py_lt b a = Ok false.
Proof.
  destruct a, b; cbn; try done.
  - intros [= H]. f_equal. lia.
  - intros [= H]. f_equal. by apply string_ltb_asym.
  - unfold dt_lt. case_bool_decide as Haw; [|done]. intros [= H].
    rewrite bool_decide_eq_true_2 by done. f_equal. lia.
Qed.

Lemma key_lt_asym a b : key_lt a b = Ok true → key_lt b a = Ok false.
Proof.
  unfold key_lt. destruct a as [[] va], b as [[] vb]; cbn; try done.
  all: rewrite (py_eq_sym vb va); destruct (py_eq va vb); [done|apply py_lt_asym].
Qed.

Lemma insert_desc_sorted {A} (x : (bool * pyval) * A) l : ∀ r,
  Sorted descends l → insert_desc x l = Ok r → Sorted descends r.
Proof.
  induction l as [|y l IH]; intros r Hl; cbn.
  - intros [= <-]. by repeat constructor.
  - unfold mbind, result_bind.
    destruct (key_lt x.1 y.1) as [[|]|e] eqn:Hxy; [| |done].
    + destruct (insert_desc x l) as [r'|e] eqn:Hr'; [|done]. intros [= <-].
      apply Sorted_inv in Hl as [Hl Hhd]. constructor; [by apply IH|].
      destruct l as [|z l]; cbn in Hr'.
      * injection Hr' as <-. constructor. by apply key_lt_asym.
      * unfold mbind, result_bind in Hr'.
        destruct (key_lt x.1 z.1) as [[|]|e]; [| |done].
        -- destruct (insert_desc x l); [|done]. injection Hr' as <-.
           constructor. by apply HdRel_inv in Hhd.
        -- injection Hr' as <-. constructor. by apply key_lt_asym.
    + intros [= <-]. constructor; [done|]. by constructor.
Qed.

Lemma sort_desc_sorted {A} (l : list ((bool * pyval) * A)) : ∀ s,
  sort_desc l = Ok s → Sorted descends s.
Proof.
  induction l as [|x l IH]; intros s; cbn.
  - intros [= <-]. constructor.
  - unfold mbind, result_bind. destruct (sort_desc l) as [s'|e]; [|done].
    apply insert_desc_sorted. by apply IH.
Qed.

Lemma Sorted_adjacent {A} (R : A → A → Prop) s : ∀ i x y,
  Sorted R s → s !! i = Some x → s !! S i = Some y → R x y.
Proof.
  induction s as [|z s IH]; intros i x y Hs; [done|].
  apply Sorted_inv in Hs as [Hs Hhd]. destruct i as [|i]; cbn.
  - intros [= <-] Hy. destruct s as [|z' s]; [done|]. injection Hy as <-.
    by apply HdRel_inv in Hhd.
  - by apply IH.
Qed.

Lemma sort_key_dated x d :
  x !! "last_activity_date" = Some (VDate d) → sort_key x = Ok (false, VDate d).
Proof. intros Hx. unfold sort_key, getitem. by rewrite Hx. Qed.

(** What [sort_projects] returns, taken apart: the keyed list, sorted. *)
Lemma sort_projects_inv l l' :
  sort_projects l = Ok l' →
  ∃ sorted, l' = sorted.*2 ∧ Forall keyed_ok sorted ∧ Sorted descends sorted ∧
            sorted.*2 ≡ₚ l.
Proof.
  unfold sort_projects, mbind, result_bind.
  destruct (mapM _ l) as [keyed|e] eqn:Hkeyed; [|done].
  destruct (sort_desc keyed) as [sorted|e] eqn:Hsorted; [|done].
  intros [= <-]. apply mapM_keyed in Hkeyed as [<- Hok].
  exists sorted. split_and!; [done| |by eapply sort_desc_sorted|].
  - by rewrite (sort_desc_perm _ _ Hsorted).
  - apply fmap_Permutation. by apply sort_desc_perm.
Qed.

(** X1.  In the list the sort returns, a record directly after a dated record is
    dated too, and of two dated neighbours the second is not the later one:
    undated records first, then dates in descending order. *)
Theorem sorted_records_descend (l l' : list (gmap string pyval)) (i : nat)
    (a b : gmap string pyval) :
  sort_projects l = Ok l' →
  l' !! i = Some a → l' !! S i = Some b →
  (b !! "last_activity_date" = Some VNone → a !! "last_activity_date" = Some VNone) ∧
  (∀ da db, a !! "last_activity_date" = Some (VDate da) →
            b !! "last_activity_date" = Some (VDate db) →
            dt_gt db da = Ok false).
Proof.
  intros (sorted & -> & Hok & Hsorted & _)%sort_projects_inv Ha Hb.
  apply list_lookup_fmap_Some in Ha as (ka & -> & Hka).
  apply list_lookup_fmap_Some in Hb as (kb & -> & Hkb).
  pose proof (Sorted_adjacent _ _ _ _ _ Hsorted Hka Hkb) as Hdesc.
  assert (keyed_ok ka ∧ keyed_ok kb) as [Hoka Hokb].
  { rewrite Forall_forall in Hok.
    split; apply Hok; by eapply list_elem_of_lookup_2. }
  unfold descends in Hdesc. unfold keyed_ok in Hoka, Hokb. split.
  - intros Hbn. eapply sort_key_undated; [done|].
    apply (sort_key_undated _ _ Hokb) in Hbn.
    unfold key_lt in Hdesc. rewrite Hbn in Hdesc.
    destruct ka.1.1; [done|]. cbn in Hdesc. by injection Hdesc.
  - intros da db Hda Hdb.
    rewrite (sort_key_dated _ _ Hda) in Hoka.
    rewrite (sort_key_dated _ _ Hdb) in Hokb.
    injection Hoka as Hoka. injection Hokb as Hokb.
    unfold key_lt in Hdesc. rewrite <- Hoka, <- Hokb in Hdesc. cbn in Hdesc.
    destruct (dt_eq da db) eqn:Heq; [|done].
    by apply dt_eq_not_gt in Heq as [_ ?].
Qed.

Lemma sort_key_raise x e :
  sort_key x = Raise e →
  e = KeyError "last_activity_date" ∧ x !! "last_activity_date" = None.
Proof.
  unfold sort_key, getitem, mbind, result_bind.
  destruct (x !! "last_activity_date"); [done|]. by intros [= <-].
Qed.

(** X2.  A record without the [last_activity_date] key makes the sort raise
    [KeyError] for that key, whatever else is in the list. *)
Theorem sort_needs_the_date_key (l : list (gmap string pyval)) :
  (∃ x, x ∈ l ∧ x !! "last_activity_date" = None) →
  sort_projects l = Raise (KeyError "last_activity_date").
Proof.
  intros Hex. unfold sort_projects.
  assert (mapM (M:=result) (λ x, k ← sort_key x; Ok (k, x)) l
          = Raise (KeyError "last_activity_date")) as ->; [|done].
  induction l as [|y l IH]; [by destruct Hex as (x & ?%elem_of_nil & _)|].
  cbn. unfold mbind at 1 2, result_bind at 1 2.
  destruct (sort_key y) as [k|e] eqn:Hk.
  - cbn. rewrite IH; [done|]. destruct Hex as (x & [-> | Hx]%elem_of_cons & Hnone).
    + unfold sort_key, getitem in Hk. by rewrite Hnone in Hk.
    + by exists x.
  - by apply sort_key_raise in Hk as [-> _].
Qed.

Lemma descends_class {A} (a b : (bool * pyval) * A) :
  descends a b → a.1.1 = false →
  b.1.1 = false ∧ key_class_of b.1 = key_class_of a.1.
Proof.
  unfold descends, key_lt, key_class_of.
  destruct a as [[fa va] xa], b as [[fb vb] xb]; cbn. intros Hlt ->.
  destruct fb; [done|]. split; [done|]. cbn in Hlt.
  destruct va, vb; cbn in Hlt; try done.
  - unfold dt_eq in Hlt. destruct (bool_decide (aware d = aware d0)) eqn:Haw.
    + apply bool_decide_eq_true in Haw. by rewrite Haw.
    + cbn in Hlt. unfold dt_lt in Hlt. by rewrite Haw in Hlt.
Qed.

Lemma sorted_tail_class {A} (s : list ((bool * pyval) * A)) : ∀ a,
  Sorted descends (a :: s) → a.1.1 = false →
  Forall (λ b, b.1.1 = false ∧ key_class_of b.1 = key_class_of a.1) s.
Proof.
  induction s as [|b s IH]; intros a Hs Ha; [by apply Forall_nil|].
  apply Sorted_inv in Hs as [Hs Hhd]. apply HdRel_inv in Hhd.
  destruct (descends_class a b Hhd Ha) as [Hb Hcls].
  apply Forall_cons. split; [done|].
  eapply Forall_impl; [by apply IH|]. cbn. intros c [? ->]. by split.
Qed.

Lemma sorted_same_class {A} (s : list ((bool * pyval) * A)) x y :
  Sorted descends s → x ∈ s → y ∈ s → x.1.1 = false → y.1.1 = false →
  key_class_of x.1 = key_class_of y.1.
Proof.
  induction s as [|a s IH]; intros Hs Hx Hy Hfx Hfy; [by apply elem_of_nil in Hx|].
  apply elem_of_cons in Hx as [-> | Hx], Hy as [-> | Hy]; [done| | |].
  - apply sorted_tail_class in Hs; [|done]. rewrite Forall_forall in Hs.
    by destruct (Hs y Hy) as [_ ->].
  - apply sorted_tail_class in Hs; [|done]. rewrite Forall_forall in Hs.
    by destruct (Hs x Hx) as [_ ->].
  - apply Sorted_inv in Hs as [Hs _]. by apply IH.
Qed.

(** X3.  The sort returns only when all dated records agree on being naive or
    aware: one naive date next to an aware one anywhere in the list makes it
    raise. *)
Theorem sorted_dates_agree_in_awareness (l l' : list (gmap string pyval))
    (x y : gmap string pyval) (dx dy : datetime) :
  sort_projects l = Ok l' →
  x ∈ l → y ∈ l →
  x !! "last_activity_date" = Some (VDate dx) →
  y !! "last_activity_date" = Some (VDate dy) →
  aware dx = aware dy.
Proof.
  intros (sorted & -> & Hok & Hsorted & Hperm)%sort_projects_inv Hx Hy Hdx Hdy.
  rewrite <- Hperm in Hx, Hy.
  apply list_elem_of_fmap in Hx as (kx & -> & Hkx).
  apply list_elem_of_fmap in Hy as (ky & -> & Hky).
  rewrite Forall_forall in Hok.
  pose proof (Hok _ Hkx) as Hokx. pose proof (Hok _ Hky) as Hoky.
  unfold keyed_ok in Hokx, Hoky.
  rewrite (sort_key_dated _ _ Hdx) in Hokx. rewrite (sort_key_dated _ _ Hdy) in Hoky.
  injection Hokx as Hokx. injection Hoky as Hoky.
  pose proof (sorted_same_class sorted kx ky Hsorted Hkx Hky) as Hcls.
  rewrite <- Hokx, <- Hoky in Hcls. unfold key_class_of in Hcls. cbn in Hcls.
  specialize (Hcls eq_refl eq_refl). by destruct (aware dx), (aware dy).
Qed.

Lemma insert_desc_returns {A} (x : (bool * pyval) * A) l :
  (∀ y, y ∈ l → ∃ c, key_lt x.1 y.1 = Ok c) → ∃ r, insert_desc x l = Ok r.
Proof.
  induction l as [|y l IH]; intros Hcmp; [by eexists|]. cbn.
  destruct (Hcmp y) as [c ->]; [apply list_elem_of_here|]. cbn.
  destruct c; [|by eexists].
  destruct IH as [r ->]; [|by eexists].
  intros z Hz. by apply Hcmp, list_elem_of_further.
Qed.

Lemma sort_desc_returns {A} (l : list ((bool * pyval) * A)) :
  (∀ x y, x ∈ l → y ∈ l → ∃ c, key_lt x.1 y.1 = Ok c) → ∃ s, sort_desc l = Ok s.
Proof.
  induction l as [|x l IH]; intros Hcmp; [by eexists|]. cbn.
  destruct IH as [s Hs].
  { intros y z Hy Hz. by apply Hcmp; apply list_elem_of_further. }
  rewrite Hs. cbn. apply insert_desc_returns. intros y Hy.
  apply Hcmp; [apply list_elem_of_here|].
  apply list_elem_of_further. by rewrite <- (sort_desc_perm _ _ Hs).
Qed.

Lemma mapM_keyed_returns l :
  (∀ x, x ∈ l → is_Some (x !! "last_activity_date")) →
  ∃ keyed, mapM (M:=result) (λ x, k ← sort_key x; Ok (k, x)) l = Ok keyed.
Proof.
  induction l as [|x l IH]; intros Hkey; [by eexists|]. cbn.
  destruct (Hkey x) as [v Hv]; [apply list_elem_of_here|].
  assert (∃ k, sort_key x = Ok k) as [k ->].
  { unfold sort_key, getitem. rewrite Hv. by eexists. }
  cbn. destruct IH as [keyed ->]; [|by eexists].
  intros y Hy. by apply Hkey, list_elem_of_further.
Qed.

(** The keys of such records can all be compared. *)
Lemma keyed_comparable (keyed : list ((bool * pyval) * gmap string pyval)) (aw : bool) :
  Forall keyed_ok keyed →
  (∀ x, x ∈ keyed.*2 → x !! "last_activity_date" = Some VNone ∨
          ∃ d, x !! "last_activity_date" = Some (VDate d) ∧ aware d = aw) →
  ∀ x y, x ∈ keyed → y ∈ keyed → ∃ c, key_lt x.1 y.1 = Ok c.
Proof.
  rewrite Forall_forall. intros Hok Hl.
  assert (∀ k, k ∈ keyed →
            k.1 = (true, VDate datetime_min) ∨ ∃ d, k.1 = (false, VDate d) ∧ aware d = aw)
    as Hkeys.
  { intros k Hk. pose proof (Hok k Hk) as Hkk. unfold keyed_ok in Hkk.
    destruct (Hl k.2) as [Hn | (d & Hd & Hd')].
    - apply list_elem_of_fmap. by exists k.
    - left. eapply sort_key_undated_key; [done|]. by eapply sort_key_undated.
    - right. exists d. rewrite (sort_key_dated _ _ Hd) in Hkk. by injection Hkk. }
  intros x y Hx Hy.
  destruct (Hkeys x Hx) as [-> | (dx & -> & Hdx)],
           (Hkeys y Hy) as [-> | (dy & -> & Hdy)]; unfold key_lt; cbn;
    try by eexists.
  destruct (dt_eq dx dy); [by eexists|].
  unfold dt_lt. rewrite bool_decide_eq_true_2 by congruence. by eexists.
Qed.

(** X4.  The sort returns a list whenever every record holds a date or [None]
    under the key and the dates are all aware, or all naive. *)
Theorem sort_returns_for_comparable_dates (l : list (gmap string pyval)) (aw : bool) :
  (∀ x, x ∈ l → x !! "last_activity_date" = Some VNone ∨
                ∃ d, x !! "last_activity_date" = Some (VDate d) ∧ aware d = aw) →
  ∃ l', sort_projects l = Ok l'.
Proof.
  intros Hl. unfold sort_projects.
  destruct (mapM_keyed_returns l) as [keyed Hkeyed].
  { intros x Hx. destruct (Hl x Hx) as [-> | (d & -> & _)]; by eexists. }
  rewrite Hkeyed. cbn. apply mapM_keyed in Hkeyed as [<- Hok].
  destruct (sort_desc_returns keyed) as [s ->]; [|by eexists].
  by apply (keyed_comparable keyed aw).
Qed.

(** ** The report: header, remaining columns, highlighting, failures *)

Section report_lemmas.
Local Open Scope nat_scope.

(** What one pass of the row loop does to fonts, fills and the title. *)
Lemma write_row_style now ws row p ws' :
  activity_record p →
  write_row now ws (row, p) = Ok ws' →
  ws_title ws' = ws_title ws ∧
  ws_bold ws' = ws_bold ws ∧
  ∀ r c, ws_fill ws' !! (r, c) =
         if decide (r = row ∧ 1 ≤ c ≤ 5 ∧ has_issues p = true)
         then Some access_issue_fill else ws_fill ws !! (r, c).
Proof.
  intros ([pid Hpid] & Hdate & [src Hsrc] & Hiss).
  unfold write_row, getitem, has_issues. cbn [fst snd].
  rewrite Hpid, Hsrc.
  destruct Hdate as [Hd | [d Hd]]; rewrite Hd;
    destruct Hiss as [Hi | [s Hi]]; rewrite Hi;
    cbn -[strftime dt_sub td_days ws_cell put_cell for_each];
    unfold mbind, result_bind.
  all: cell_step; try cell_step.
  all: try (destruct (dt_sub now d) as [delta|e] eqn:Hsub; [|done];
            cbn -[strftime td_days ws_cell put_cell for_each]).
  all: repeat cell_step.
  all: try (destruct (String.eqb s "");
            cbn -[strftime td_days ws_cell put_cell for_each]).
  all: repeat cell_step.
  all: rewrite ?fill_loop; cbn -[strftime td_days].
  all: intros <-%Ok_inj; split_and!; [done..|]; intros r c; cbn [ws_fill put_cell set_fill].
  all: try (case_decide as Hdec; [by destruct Hdec as (_ & _ & ?)|done]).
  all: case_decide as Hdec.
  all: try (destruct Hdec as (-> & Hc & _);
            assert (c = 1 ∨ c = 2 ∨ c = 3 ∨ c = 4 ∨ c = 5) as Hcs by lia;
            destruct Hcs as [-> | [-> | [-> | [-> | ->]]]];
            rewrite ?lookup_insert_ne by (intros [=]); by rewrite lookup_insert_eq).
  all: rewrite !lookup_insert_ne; [done|intros [= <- <-]; apply Hdec; split_and!; done + lia..].
Qed.

Lemma write_rows_style now ps : ∀ k ws ws',
  Forall activity_record ps →
  for_each (enumerate k ps) ws (write_row now) = Ok ws' →
  ws_title ws' = ws_title ws ∧
  ws_bold ws' = ws_bold ws ∧
  (∀ r c, r < k → ws_fill ws' !! (r, c) = ws_fill ws !! (r, c)) ∧
  (∀ i p c, ps !! i = Some p →
     ws_fill ws' !! (k + i, c) =
     if decide (1 ≤ c ≤ 5 ∧ has_issues p = true)
     then Some access_issue_fill else ws_fill ws !! (k + i, c)).
Proof.
  induction ps as [|p ps IH]; intros k ws ws' Hps.
  - intros [= <-]. by split_and!.
  - rewrite enumerate_cons. cbn [for_each]. unfold mbind, result_bind.
    destruct (write_row now ws (k, p)) as [ws1|e] eqn:Hw; [|done].
    apply Forall_cons in Hps as [Hp Hps].
    apply write_row_style in Hw as (Ht1 & Hb1 & Hf1); [|done].
    intros (Ht' & Hb' & Hbelow & Hrows)%IH; [|done].
    split_and!; [congruence..| |].
    + intros r c Hr. rewrite Hbelow, Hf1 by lia.
      destruct (decide (r = k ∧ _)) as [Hdec|Hdec]; [destruct Hdec; lia|done].
    + intros [|i] q c Hq.
      * injection Hq as ->. rewrite Nat.add_0_r, Hbelow, Hf1 by lia.
        destruct (decide (k = k ∧ _)) as [(_ & Hdec)|Hdec];
          destruct (decide (1 ≤ c ≤ 5 ∧ _)) as [Hdec'|Hdec']; try done.
        by destruct Hdec.
      * replace (k + S i) with (S k + i) by lia. rewrite (Hrows i q c Hq), Hf1.
        destruct (decide (1 ≤ c ≤ 5 ∧ _)) as [Hdec'|Hdec']; [done|].
        destruct (decide (S k + i = k ∧ _)) as [Hdec|Hdec]; [destruct Hdec; lia|done].
Qed.

Lemma adjust_columns_style cols : ∀ ws,
  ws_title (foldl adjust_column ws cols) = ws_title ws ∧
  ws_bold (foldl adjust_column ws cols) = ws_bold ws ∧
  ws_fill (foldl adjust_column ws cols) = ws_fill ws.
Proof.
  induction cols as [|col cols IH]; intros ws; [done|].
  cbn [foldl]. by destruct (IH (adjust_column ws col)) as (-> & -> & ->).
Qed.

(** The style of the sheet that is saved. *)
Lemma write_to_excel_style w ps filename ws :
  Forall activity_record ps →
  write_to_excel w ps filename = Some ws →
  ws_title ws = "Project Activity" ∧
  ws_bold ws = {[ (1, 1); (1, 2); (1, 3); (1, 4); (1, 5) ]} ∧
  (∀ c, ws_fill ws !! (1, c) = None) ∧
  (∀ i p c, ps !! i = Some p →
     ws_fill ws !! (i + 2, c) =
     if decide (1 ≤ c ≤ 5 ∧ has_issues p = true) then Some access_issue_fill else None).
Proof.
  intros Hps. unfold write_to_excel, write_try. rewrite write_headers_eq.
  unfold mbind, result_bind.
  destruct (for_each _ _ _) as [ws1|e] eqn:Hrows; [|done].
  destruct (wb_save w filename _); [|done]. intros [= <-].
  apply write_rows_style in Hrows as (Ht & Hb & Hbelow & Hrows); [|done].
  destruct (adjust_columns_style (seq 1 (ws_max_column ws1)) ws1) as (-> & -> & ->).
  rewrite Ht, Hb. split_and!.
  - done.
  - unfold headed_sheet. cbn. set_solver.
  - intros c. by rewrite Hbelow by lia.
  - intros i p c Hi. rewrite (Nat.add_comm i 2), (Hrows i p c Hi). by case_decide.
Qed.

(** X5.  The saved sheet is titled ["Project Activity"], has five columns and
    one row per record below the header row, and its first row holds the five
    headers, which are the only bold cells. *)
Theorem report_has_header_and_one_row_per_record (w : world)
    (ps : list (gmap string pyval)) (filename : string) (ws : worksheet) :
  Forall activity_record ps →
  write_to_excel w ps filename = Some ws →
  ws_title ws = "Project Activity" ∧
  ws_max_row ws = S (length ps) ∧
  ws_max_column ws = 5 ∧
  (λ c, ws_value ws 1 c) <$> seq 1 5 = VStr <$> headers ∧
  (∀ r c, (r, c) ∈ ws_bold ws ↔ r = 1 ∧ 1 ≤ c ≤ 5).
Proof.
  intros Hps Hws.
  destruct (write_to_excel_spec w ps filename ws Hps Hws) as (_ & Hr & Hc & Hhead & _).
  destruct (write_to_excel_style w ps filename ws Hps Hws) as (Ht & Hb & _).
  split_and!; [done..| |].
  - cbn [seq fmap list_fmap].
    pose proof (Hhead 1 ltac:(lia)) as H1. pose proof (Hhead 2 ltac:(lia)) as H2.
    pose proof (Hhead 3 ltac:(lia)) as H3. pose proof (Hhead 4 ltac:(lia)) as H4.
    pose proof (Hhead 5 ltac:(lia)) as H5. cbn in H1, H2, H3, H4, H5.
    injection H1 as <-. injection H2 as <-. injection H3 as <-.
    injection H4 as <-. by injection H5 as <-.
  - intros r c. rewrite Hb. rewrite !elem_of_union, !elem_of_singleton. split.
    + intros Hin. destruct_or!; injection Hin as -> ->; lia.
    + intros [-> Hc']. assert (c = 1 ∨ c = 2 ∨ c = 3 ∨ c = 4 ∨ c = 5) as Hcs by lia.
      destruct_or!; subst c; auto 10.
Qed.

(** X6.  In the row of a record, column 1 holds the project id, column 3 the
    activity source, and column 5 the access issues when the record has any
    and nothing otherwise. *)
Theorem report_id_source_and_issue_cells (w : world) (ps : list (gmap string pyval))
    (filename : string) (ws : worksheet) (i : nat) (p : gmap string pyval) :
  Forall activity_record ps →
  write_to_excel w ps filename = Some ws →
  ps !! i = Some p →
  p !! "project_id" = Some (ws_value ws (i + 2) 1) ∧
  p !! "activity_source" = Some (ws_value ws (i + 2) 3) ∧
  ws_value ws (i + 2) 5
    = (if has_issues p then default VNone (p !! "access_issues") else VNone).
Proof.
  intros Hps Hws Hi.
  destruct (write_to_excel_spec w ps filename ws Hps Hws) as (_ & _ & _ & _ & Hrows & _).
  pose proof (Hrows i p 1 Hi ltac:(lia)) as H1.
  pose proof (Hrows i p 3 Hi ltac:(lia)) as H3.
  pose proof (Hrows i p 5 Hi ltac:(lia)) as H5.
  assert (activity_record p) as ([pid Hpid] & _ & [src Hsrc] & Hiss).
  { eapply Forall_forall in Hps; [done|]. by eapply list_elem_of_lookup_2. }
  unfold report_row in H1, H3, H5. cbn -[strftime td_days] in H1, H3, H5.
  rewrite Hpid in *. rewrite Hsrc in *. cbn in H1, H3.
  injection H1 as <-. injection H3 as <-. injection H5 as <-.
  split_and!; [done..|]. unfold has_issues.
  destruct Hiss as [-> | [s ->]]; [done|]. cbn. by destruct (String.eqb s "").
Qed.

(** X7.  A row of the saved sheet is filled with the highlight colour, in all
    of its five columns, exactly when its record has access issues; the
    header row is never filled. *)
Theorem report_highlights_rows_with_issues (w : world) (ps : list (gmap string pyval))
    (filename : string) (ws : worksheet) (i : nat) (p : gmap string pyval) (c : nat) :
  Forall activity_record ps →
  write_to_excel w ps filename = Some ws →
  ps !! i = Some p →
  1 ≤ c ≤ 5 →
  ws_fill ws !! (i + 2, c) = (if has_issues p then Some "FFF2CC" else None) ∧
  ws_fill ws !! (1, c) = None.
Proof.
  intros Hps Hws Hi Hc.
  destruct (write_to_excel_style w ps filename ws Hps Hws) as (_ & _ & Hhead & Hrows).
  split; [|done]. rewrite (Hrows i p c Hi).
  destruct (has_issues p); case_decide as Hdec; try done.
  - by destruct Hdec.
  - by destruct Hdec as [_ ?].
Qed.

Lemma for_each_raises {A S : Type} (P : A → Prop) (body : S → A → result S) l :
  (∀ s x, P x → ∃ e, body s x = Raise e) →
  (∃ x, x ∈ l ∧ P x) →
  ∀ s, ∃ e, for_each l s body = Raise e.
Proof.
  intros Hbody. induction l as [|y l IH]; intros Hex s.
  - by destruct Hex as (x & ?%elem_of_nil & _).
  - cbn. destruct (body s y) as [s'|e] eqn:Hy; [|by eexists]. cbn.
    apply IH. destruct Hex as (x & [-> | Hx]%elem_of_cons & HP); [|by exists x].
    destruct (Hbody s y HP) as [e He]. congruence.
Qed.

Lemma elem_of_enumerate {A : Type} (x : A) l : ∀ k,
  x ∈ l → ∃ n, (n, x) ∈ enumerate k l.
Proof.
  induction l as [|y l IH]; intros k; [by intros ?%elem_of_nil|].
  rewrite enumerate_cons. intros [-> | Hx]%elem_of_cons.
  - exists k. apply list_elem_of_here.
  - destruct (IH (S k) Hx) as [n Hn]. exists n. by apply list_elem_of_further.
Qed.

Lemma write_row_raises w ws rp :
  unwritable rp.2 → ∃ e, write_row (datetime_now_utc w) ws rp = Raise e.
Proof.
  unfold unwritable, write_row, getitem, mbind, result_bind.
  destruct (rp.2 !! "project_id") as [pid|]; [|by eexists].
  destruct (ws_cell ws rp.1 1 pid) as [ws1|e]; [|by eexists].
  destruct (rp.2 !! "last_activity_date") as [v|]; [|by eexists].
  intros [? | [? | [Hsrc | (d & [= ->] & Haw)]]]; try done.
  - destruct (if truthy v then _ else _); [|by eexists]. rewrite Hsrc.
    by eexists.
  - cbn -[strftime td_days ws_cell].
    destruct (ws_cell ws1 rp.1 2 _) as [ws2|e]; [|by eexists].
    unfold dt_sub. rewrite bool_decide_eq_false_2; [by eexists|]. cbn. by rewrite Haw.
Qed.

(** X8.  When one record of the list has a naive date, or lacks the
    [project_id], [last_activity_date] or [activity_source] key, nothing is
    saved. *)
Theorem report_is_not_saved_on_a_bad_record (w : world)
    (ps : list (gmap string pyval)) (filename : string) :
  (∃ p, p ∈ ps ∧ unwritable p) →
  write_to_excel w ps filename = None.
Proof.
  intros (p & Hp & Hbad). unfold write_to_excel, write_try.
  rewrite write_headers_eq. unfold mbind, result_bind.
  destruct (elem_of_enumerate p ps 2 Hp) as [n Hn].
  destruct (for_each_raises (λ rp, unwritable rp.2) (write_row (datetime_now_utc w))
              (enumerate 2 ps)) with (s := headed_sheet)
    as [e ->]; [|by exists (n, p)|done].
  intros ws rp. apply write_row_raises.
Qed.

End report_lemmas.

(** ** The probes: what they return *)

Lemma newer_latest seen latest c b :
  newer c latest = Ok b → latest_of seen latest →
  latest_of (seen ++ [c]) (if b then Some c else latest).
Proof.
  unfold newer, latest_of. destruct latest as [l|].
  - unfold dt_gt, dt_lt. case_bool_decide as Haw; [|done].
    intros [= <-] [Hl Hseen]. destruct (Z.ltb_spec (instant l) (instant c)).
    + split; [apply elem_of_app; right; by apply list_elem_of_singleton|].
      intros t [Ht | ->%list_elem_of_singleton]%elem_of_app.
      * destruct (Hseen t Ht) as [-> ?]. split; [done|lia].
      * done.
    + split; [apply elem_of_app; by left|].
      intros t [Ht | ->%list_elem_of_singleton]%elem_of_app.
      * by apply Hseen.
      * split; [done|lia].
  - intros [= <-] ->. split; [by apply list_elem_of_singleton|].
    by intros t ->%list_elem_of_singleton.
Qed.

Lemma bump_latest seen latest x latest' :
  bump x latest = Ok latest' → latest_of seen latest →
  latest_of (seen ++ option_list x) latest'.
Proof.
  unfold bump. destruct x as [u|]; cbn.
  - destruct (newer u latest) as [b|e] eqn:Hn; [|done]. cbn. intros [= <-].
    by apply newer_latest.
  - intros [= <-]. by rewrite app_nil_r.
Qed.

(** Nothing seen lies after the latest. *)
Lemma latest_of_not_later seen l t :
  latest_of seen (Some l) → t ∈ seen → dt_gt t l = Ok false.
Proof.
  intros [_ Hseen] Ht. destruct (Hseen t Ht) as [Haw Hle].
  unfold dt_gt, dt_lt. rewrite bool_decide_eq_true_2 by done.
  f_equal. lia.
Qed.

(** A loop keeps what each of its passes keeps. *)
Lemma for_each_invariant {A S : Type} (I : list A → S → Prop)
    (body : S → A → result S) l :
  (∀ seen x s s', I seen s → body s x = Ok s' → I (seen ++ [x]) s') →
  ∀ seen s s', I seen s → for_each l s body = Ok s' → I (seen ++ l) s'.
Proof.
  intros Hbody. induction l as [|x l IH]; intros seen s s' HI; cbn.
  - intros [= <-]. by rewrite app_nil_r.
  - destruct (body s x) as [s1|e] eqn:Hx; [|done]. cbn. intros Hrest.
    rewrite cons_middle, (assoc_L (++)). eapply IH; [|done]. by eapply Hbody.
Qed.

Lemma latest_stamp_snoc w stamps latest s t b :
  latest_stamp w stamps latest → parse_stamp w s = Ok t → newer t latest = Ok b →
  latest_stamp w (stamps ++ [s]) (if b then Some t else latest).
Proof.
  intros (seen & Hparse & Hlatest) Ht Hb. exists (seen ++ [t]). split.
  - apply Forall2_app; [done|]. by repeat constructor.
  - by apply newer_latest.
Qed.

Lemma compute_instance_latest w stamps latest inst latest' :
  compute_instance w latest inst = Ok latest' →
  latest_stamp w stamps latest →
  latest_stamp w (stamps ++ instance_stamps inst) latest'.
Proof.
  unfold compute_instance, instance_stamps, mbind, result_bind.
  destruct (creationTimestamp inst) as [s|]; [|done].
  fold (parse_stamp w s). destruct (parse_stamp w s) as [created|e] eqn:Hs; [|done].
  destruct (newer created latest) as [b|e] eqn:Hb; [|done].
  destruct (lastStartTimestamp inst) as [s2|]; cbn.
  - fold (parse_stamp w s2).
    destruct (parse_stamp w s2) as [last_start|e] eqn:Hs2; [|done].
    destruct (newer last_start _) as [b2|e] eqn:Hb2; [|done].
    intros [= <-] HJ. change [s; s2] with ([s] ++ [s2]). rewrite (assoc_L (++)).
    eapply latest_stamp_snoc; [|done..]. by eapply latest_stamp_snoc.
  - intros [= <-] HJ. by eapply latest_stamp_snoc.
Qed.

(** The [try] block of the Compute probe returns the latest of all the
    timestamps of the listing. *)
Lemma compute_try_latest w project_id latest error :
  compute_try w project_id = Ok (latest, error) →
  ∃ response, aggregatedList w project_id = Ok response ∧
              latest_stamp w (response_stamps response) latest.
Proof.
  unfold compute_try, mbind, result_bind.
  destruct (build w "compute"); [|done].
  destruct (aggregatedList w project_id) as [response|e]; [|done].
  destruct (for_each _ _ _) as [l|e] eqn:Hloop; [|done]. intros [= <- <-].
  exists response. split; [done|]. unfold response_stamps.
  eapply (for_each_invariant
            (λ seen l, latest_stamp w
               (flat_map (λ zi : string * zone_entry,
                            flat_map instance_stamps (default [] (zone_instances zi.2)))
                         seen) l)) with (seen := []) in Hloop; [done| |].
  - intros seen zi s s' HJ. rewrite flat_map_app. cbn. rewrite app_nil_r.
    destruct (zone_instances zi.2) as [insts|]; cbn.
    + intros Hinner.
      eapply (for_each_invariant
                (λ seen' l, latest_stamp w (_ ++ flat_map instance_stamps seen') l))
        with (seen := []) in Hinner; [done| |].
      * intros seen' inst l1 l2 HJ' Hinst. rewrite flat_map_app. cbn.
        rewrite app_nil_r, (assoc_L (++)). by eapply compute_instance_latest.
      * cbn. by rewrite app_nil_r.
    + intros [= <-]. by rewrite app_nil_r.
  - by exists [].
Qed.

(** X9.  When the Compute probe returns a timestamp, every timestamp in the
    listing of instances was parsed, the one returned is among them, and none
    of them is later. *)
Theorem compute_probe_returns_the_latest (w : world) (project_id : string)
    (t : datetime) (error : option string) :
  probe_result Compute w project_id = (Some t, error) →
  ∃ response, aggregatedList w project_id = Ok response ∧
    (∃ s, s ∈ response_stamps response ∧ parse_stamp w s = Ok t) ∧
    (∀ s, s ∈ response_stamps response →
          ∃ t', parse_stamp w s = Ok t' ∧ dt_gt t' t = Ok false).
Proof.
  unfold probe_result. cbn [probe_try].
  destruct (compute_try w project_id) as [[latest err]|e] eqn:Htry; [|done].
  intros [= -> ->].
  apply compute_try_latest in Htry as (response & Hlist & seen & Hparse & Hlatest).
  exists response. split; [done|]. split.
  - destruct Hlatest as [Hin _].
    apply list_elem_of_lookup in Hin as [i Hi].
    destruct (Forall2_lookup_r _ _ _ _ _ Hparse Hi) as (s & Hs & Hst).
    exists s. split; [|done]. by eapply list_elem_of_lookup_2.
  - intros s [i Hi]%list_elem_of_lookup.
    destruct (Forall2_lookup_l _ _ _ _ _ Hparse Hi) as (t' & Ht' & Hst).
    exists t'. split; [done|]. eapply latest_of_not_later; [done|].
    by eapply list_elem_of_lookup_2.
Qed.

(** X10.  When the listing comes back with no instance in any zone (zones
    without the [instances] key or with an empty list, or no [items] at all),
    the Compute probe returns neither a timestamp nor an error. *)
Theorem compute_probe_without_instances (w : world) (project_id : string)
    (response : compute_response) (u : unit) :
  build w "compute" = Ok u →
  aggregatedList w project_id = Ok response →
  (∀ zi, zi ∈ default [] (items response) → default [] (zone_instances zi.2) = []) →
  probe_result Compute w project_id = (None, None).
Proof.
  intros Hb Hl Hzones. unfold probe_result. cbn [probe_try].
  unfold compute_try, mbind, result_bind. rewrite Hb, Hl.
  assert (for_each (default [] (items response)) None
            (λ latest_activity (zi : string * zone_entry),
               match zone_instances zi.2 with
               | Some l => for_each l latest_activity (compute_instance w)
               | None => Ok latest_activity
               end) = Ok None) as ->; [|done].
  induction (default [] (items response)) as [|zi zones IH]; [done|]. cbn.
  pose proof (Hzones zi ltac:(apply list_elem_of_here)) as Hzi.
  destruct (zone_instances zi.2) as [insts|]; cbn in Hzi; [subst insts|]; cbn;
    apply IH; intros z Hz; by apply Hzones, list_elem_of_further.
Qed.

Lemma compute_instance_unreadable w latest inst :
  unreadable w inst → ∃ e, compute_instance w latest inst = Raise e.
Proof.
  unfold unreadable, compute_instance, mbind, result_bind.
  destruct (creationTimestamp inst) as [s|]; [|by eexists].
  fold (parse_stamp w s). intros [e ->]. by eexists.
Qed.

(** X11.  One instance without a creation timestamp, or with one that does not
    parse, costs the project its whole Compute result: the probe returns no
    timestamp, and an error, whatever the other instances hold. *)
Theorem compute_probe_is_all_or_nothing (w : world) (project_id : string)
    (response : compute_response) (zi : string * zone_entry) (insts : list instance)
    (inst : instance) :
  aggregatedList w project_id = Ok response →
  zi ∈ default [] (items response) →
  zone_instances zi.2 = Some insts →
  inst ∈ insts →
  unreadable w inst →
  ∃ e, probe_result Compute w project_id = (None, Some e).
Proof.
  intros Hl Hzi Hinsts Hinst Hbad.
  assert (∃ e, compute_try w project_id = Raise e) as [e He].
  { unfold compute_try, mbind, result_bind.
    destruct (build w "compute"); [|by eexists]. rewrite Hl.
    match goal with
    | |- context [for_each ?zones ?s0 ?body] =>
        assert (∃ e, for_each zones s0 body = Raise e) as [e ->]; [|by eexists];
        apply (for_each_raises
                 (λ z : string * zone_entry,
                    ∃ il i, zone_instances z.2 = Some il ∧ i ∈ il ∧ unreadable w i))
    end.
    - intros s z (il & i & -> & Hi & Hu).
      apply for_each_raises with (P := unreadable w); [|by exists i].
      intros s' x. apply compute_instance_unreadable.
    - exists zi. split; [done|]. by exists insts, inst. }
  unfold probe_result. cbn [probe_try]. rewrite He. by eexists.
Qed.

(** X12.  No probe returns a timestamp together with an error, and a probe
    returns an error exactly when its [try] block raised. *)
Theorem probe_returns_timestamp_or_error (p : probe) (w : world) (project_id : string) :
  (is_Some (probe_result p w project_id).1 → (probe_result p w project_id).2 = None) ∧
  (is_Some (probe_result p w project_id).2 ↔ ∃ e, probe_try p w project_id = Raise e).
Proof.
  split.
  - intros [t Ht]. by eapply probe_result_exclusive.
  - unfold probe_result.
    destruct (probe_try p w project_id) as [r|e] eqn:Hr.
    + rewrite (probe_try_no_error _ _ _ _ Hr). split; [by intros [? ?]|by intros [? ?]].
    + split; [by eexists|by eexists].
Qed.

Lemma storage_bucket_latest w seen latest b latest' :
  storage_bucket w latest b = Ok latest' →
  latest_of seen latest →
  latest_of (seen ++ bucket_times w b) latest'.
Proof.
  unfold storage_bucket, bucket_times, mbind, result_bind. intros Hb Hseen.
  assert (∃ c, match latest with
               | None => Ok true
               | Some l =>
                   match bucket_time_created b with
                   | Some t => dt_gt t l
                   | None => Raise (TypeError
                       "'>' not supported between instances of 'NoneType' and 'datetime.datetime'")
                   end
               end = Ok c ∧
               latest_of (seen ++ option_list (bucket_time_created b))
                 (if c : bool then bucket_time_created b else latest)) as (c & Hc & H1).
  { destruct latest as [l|].
    - destruct (bucket_time_created b) as [t|]; [|done].
      destruct (dt_gt t l) as [c|e] eqn:Hgt; [|done].
      exists c. split; [done|]. cbn.
      by apply (newer_latest seen (Some l) t c).
    - exists true. split; [done|]. cbn in Hseen. subst seen.
      destruct (bucket_time_created b) as [t|]; cbn; [|done].
      split; [by apply list_elem_of_singleton|]. by intros ? ->%list_elem_of_singleton. }
  rewrite Hc in Hb.
  destruct (bump (bucket_updated b) _) as [latest2|e] eqn:H2; [|done].
  eapply bump_latest in H2; [|done].
  destruct (list_blobs w (bucket_name b) 10) as [blobs|e]; [|done].
  rewrite !(assoc_L (++)).
  eapply (for_each_invariant (λ done l, latest_of (_ ++ omap blob_updated done) l))
    with (seen := []) in Hb; [done| |].
  - intros done bl l1 l2 Hl Hbump. rewrite omap_app, (assoc_L (++)). cbn.
    replace (match blob_updated bl with Some y => [y] | None => [] end)
      with (option_list (blob_updated bl)) by by destruct (blob_updated bl).
    by eapply bump_latest.
  - cbn. by rewrite app_nil_r.
Qed.

(** X13.  When the Storage probe returns a timestamp, it is one of the times
    read from the buckets (creation, update, and the updates of the objects
    listed), and none of those times is later. *)
Theorem storage_probe_returns_the_latest (w : world) (project_id : string)
    (t : datetime) (error : option string) :
  probe_result Storage w project_id = (Some t, error) →
  ∃ buckets, list_buckets w project_id = Ok buckets ∧
    t ∈ flat_map (bucket_times w) buckets ∧
    ∀ t', t' ∈ flat_map (bucket_times w) buckets → dt_gt t' t = Ok false.
Proof.
  unfold probe_result. cbn [probe_try].
  destruct (storage_try w project_id) as [[latest err]|e] eqn:Htry; [|done].
  intros [= -> ->]. revert Htry. unfold storage_try, mbind, result_bind.
  destruct (storage_client w project_id); [|done].
  destruct (list_buckets w project_id) as [buckets|e]; [|done].
  destruct (for_each _ _ _) as [l|e] eqn:Hloop; [|done]. intros [= ->].
  exists buckets. split; [done|].
  eapply (for_each_invariant (λ done l, latest_of (flat_map (bucket_times w) done) l))
    with (seen := []) in Hloop; [| |done].
  - cbn in Hloop. split; [apply Hloop|].
    intros t' Ht'. by eapply latest_of_not_later.
  - intros done b l1 l2 Hl Hb. rewrite flat_map_app. cbn. rewrite app_nil_r.
    by eapply storage_bucket_latest.
Qed.

(** X14.  When the objects of one bucket cannot be listed, the Storage probe
    returns no timestamp and an error, whatever the other buckets hold. *)
Theorem storage_probe_is_all_or_nothing (w : world) (project_id : string)
    (buckets : list bucket) (b : bucket) (e : exn) :
  list_buckets w project_id = Ok buckets →
  b ∈ buckets →
  list_blobs w (bucket_name b) 10 = Raise e →
  ∃ msg, probe_result Storage w project_id = (None, Some msg).
Proof.
  intros Hl Hb Hblobs.
  assert (∃ e', storage_try w project_id = Raise e') as [e' He'].
  { unfold storage_try, mbind, result_bind.
    destruct (storage_client w project_id); [|by eexists]. rewrite Hl.
    match goal with
    | |- context [for_each ?bs ?s0 ?body] =>
        assert (∃ e', for_each bs s0 body = Raise e') as [e' ->]; [|by eexists];
        apply (for_each_raises
                 (λ b' : bucket, ∃ e', list_blobs w (bucket_name b') 10 = Raise e'))
    end.
    - intros s b' [e' Hb']. unfold storage_bucket, mbind, result_bind.
      destruct (match s with None => _ | Some _ => _ end); [|by eexists].
      destruct (bump _ _); [|by eexists]. rewrite Hb'. by eexists.
    - exists b. split; [done|]. by exists e. }
  unfold probe_result. cbn [probe_try]. rewrite He'. by eexists.
Qed.

(** ** The aggregator: which timestamp it keeps, when it fails *)

Lemma dt_gt_winner a b c :
  dt_gt a b = Ok c →
  dt_gt a (if c then a else b) = Ok false ∧ dt_gt b (if c then a else b) = Ok false.
Proof.
  unfold dt_gt, dt_lt. case_bool_decide as Haw; [|done]. intros [= <-].
  destruct (Z.ltb_spec (instant b) (instant a)).
  - rewrite !bool_decide_eq_true_2 by done. split; f_equal; lia.
  - rewrite !bool_decide_eq_true_2 by done. split; f_equal; lia.
Qed.

Lemma dt_gt_refl a : dt_gt a a = Ok false.
Proof.
  unfold dt_gt, dt_lt. rewrite bool_decide_eq_true_2 by done. f_equal. lia.
Qed.

Lemma dt_gt_raise_iff a b :
  (∃ e, dt_gt a b = Raise e) ↔ aware b ≠ aware a.
Proof.
  unfold dt_gt, dt_lt. case_bool_decide; split; try done.
  - by intros [e ?].
  - by eexists.
Qed.

(** X15.  A date in the record the aggregator returns is a timestamp one of
    the probes that ran returned, the source names that probe, and no probe
    that ran returned a later one. *)
Theorem record_date_is_the_latest_returned (w : world) (project_id : string)
    (r : gmap string pyval) (calls : list event) (d : datetime) :
  run (get_project_last_activity w project_id) = (Ok r, calls) →
  r !! "last_activity_date" = Some (VDate d) →
  (∃ p, Called p ∈ calls ∧ (probe_result p w project_id).1 = Some d ∧
        r !! "activity_source" = Some (VStr (source_name p))) ∧
  ∀ p t, Called p ∈ calls → (probe_result p w project_id).1 = Some t →
         dt_gt t d = Ok false.
Proof.
  rewrite run_get_project_last_activity.
  destruct (probe_result Compute w project_id).1 as [tc|] eqn:Hc,
           (probe_result Storage w project_id).1 as [ts|] eqn:Hs;
    intros [= <- <-].
  - destruct (dt_gt ts tc) as [b|e] eqn:Hgt; [|done].
    rewrite record_of_date, record_of_source. cbn. intros [= <-].
    apply dt_gt_winner in Hgt as [H1 H2]. split.
    + destruct b.
      * exists Storage. split_and!; [apply called_first_two; by right|done..].
      * exists Compute. split_and!; [apply called_first_two; by left|done..].
    + intros p t [-> | ->]%called_first_two Ht; congruence.
  - rewrite record_of_date, record_of_source. cbn. intros [= <-]. split.
    + exists Compute. split_and!; [apply called_first_two; by left|done..].
    + intros p t [-> | ->]%called_first_two Ht; [|congruence].
      assert (t = tc) as -> by congruence. apply dt_gt_refl.
  - rewrite record_of_date, record_of_source. cbn. intros [= <-]. split.
    + exists Storage. split_and!; [apply called_first_two; by right|done..].
    + intros p t [-> | ->]%called_first_two Ht; [congruence|].
      assert (t = ts) as -> by congruence. apply dt_gt_refl.
  - rewrite record_of_date, record_of_source.
    destruct (probe_result ServiceUsage w project_id).1 as [ta|] eqn:Ha; [|done].
    cbn. intros [= <-]. split.
    + exists ServiceUsage. split_and!; [apply called_all_three|done..].
    + intros p t _ Ht. destruct p; [congruence..|].
      assert (t = ta) as -> by congruence. apply dt_gt_refl.
Qed.

(** X16.  The aggregator always returns a record, and its source is
    ["Error"] exactly when Compute and Storage both returned a timestamp and
    only one of the two carries a time zone. *)
Theorem aggregator_fails_iff_awareness_differs (w : world) (project_id : string) :
  ∃ r calls, run (get_project_last_activity w project_id) = (Ok r, calls) ∧
    (r !! "activity_source" = Some (VStr "Error") ↔
     ∃ tc ts, (probe_result Compute w project_id).1 = Some tc ∧
              (probe_result Storage w project_id).1 = Some ts ∧
              aware tc ≠ aware ts).
Proof.
  rewrite run_get_project_last_activity.
  destruct (probe_result Compute w project_id).1 as [tc|] eqn:Hc,
           (probe_result Storage w project_id).1 as [ts|] eqn:Hs;
    eexists _, _; (split; [done|]).
  - pose proof (dt_gt_raise_iff ts tc) as Hraise.
    destruct (dt_gt ts tc) as [b|e] eqn:Hgt.
    + rewrite record_of_source. split.
      * by destruct b.
      * intros (? & ? & [= <-] & [= <-] & Hne). apply Hraise in Hne as [? ?]. done.
    + split; [|done]. intros _. exists tc, ts. split_and!; [done..|].
      apply Hraise. by eexists.
  - rewrite record_of_source. split; [done|]. by intros (? & ? & _ & ? & _).
  - rewrite record_of_source. split; [done|]. by intros (? & ? & ? & _).
  - rewrite record_of_source. split; [by case_match|]. by intros (? & ? & ? & _).
Qed.

(** X17.  Sorting keeps every record: the sorted list is a rearrangement of
    the list given. *)
Theorem sort_keeps_every_record (l l' : list (gmap string pyval)) :
  sort_projects l = Ok l' →
  l' ≡ₚ l ∧ length l' = length l ∧ ∀ x, x ∈ l' ↔ x ∈ l.
Proof.
  intros Hperm%sort_projects_perm. split_and!; [done|by rewrite Hperm|].
  intros x. by rewrite Hperm.
Qed.

(** ** The enumeration of projects *)

Lemma str_split_nonempty sep s : str_split sep s ≠ [].
Proof.
  destruct s as [|c rest]; cbn; [done|].
  destruct (Ascii.eqb c sep); [done|]. by destruct (str_split sep rest).
Qed.

Lemma str_split_no_sep sep s :
  contains (String sep "") s = false → str_split sep s = [s].
Proof.
  induction s as [|c rest IH]; [done|]. cbn.
  destruct (ascii_dec sep c) as [->|Hne].
  - by destruct rest.
  - rewrite (proj2 (Ascii.eqb_neq c sep)) by done. cbn.
    intros H. by rewrite IH.
Qed.

Lemma str_split_app sep p s :
  str_split sep (p +:+ String sep s) = str_split sep p ++ str_split sep s.
Proof.
  induction p as [|c p IH].
  - change ("" +:+ String sep s) with (String sep s). cbn.
    by rewrite Ascii.eqb_refl.
  - rewrite append_cons. cbn. rewrite IH.
    destruct (Ascii.eqb c sep); [done|].
    pose proof (str_split_nonempty sep p). by destruct (str_split sep p).
Qed.

(** X18.  The id [traverse_folder] takes from a folder name
    ["<parent>/<id>"] is [id], when [id] holds no slash: the name built for a
    listing, ["folders/<id>"], gives back the id it was built from. *)
Theorem folder_id_is_the_last_piece (parent id : string) :
  contains "/" id = false →
  getitem_last (str_split "/" (parent +:+ "/" +:+ id)) = Ok id.
Proof.
  intros Hid. change ("/" +:+ id) with (String "/" id).
  rewrite str_split_app, (str_split_no_sep "/" id Hid).
  unfold getitem_last. by rewrite last_snoc.
Qed.

Lemma for_each_append (l acc : list string) :
  for_each l acc (λ projects project_id, Ok (projects ++ [project_id])) = Ok (acc ++ l).
Proof.
  revert acc. induction l as [|x l IH]; intros acc; cbn.
  - by rewrite app_nil_r.
  - by rewrite IH, <- app_assoc.
Qed.

Lemma for_each_page_Ok {A S : Type} (p : pager A) (s : S) body r :
  for_each_page p s body = Ok r ↔
  pager_error p = None ∧ for_each (pager_items p) s body = Ok r.
Proof.
  unfold for_each_page, mbind, result_bind.
  destruct (for_each _ _ _) as [s'|e], (pager_error p); split;
    first [done | by intros [? ?]].
Qed.

(** The body of the loop over the subfolders. *)
Lemma traverse_folder_Ok depth rm f acc r :
  traverse_folder (S depth) rm f acc = Ok r ↔
  ∃ found listing,
    search_projects rm ("parent.type:folder parent.id:" +:+ f) = Ok found ∧
    pager_error found = None ∧
    list_folders rm ("folders/" +:+ f) = Ok listing ∧
    pager_error listing = None ∧
    for_each (pager_items listing) (acc ++ pager_items found)
      (λ projects name,
         folder_id ← getitem_last (str_split "/" name);
         traverse_folder depth rm folder_id projects) = Ok r.
Proof.
  cbn [traverse_folder]. unfold mbind at 1 2 3. unfold result_bind. split.
  - destruct (search_projects rm _) as [found|e]; [|done].
    destruct (for_each_page found acc _) as [acc'|e] eqn:Hfound; [|done].
    apply for_each_page_Ok in Hfound as [Herr Hfound].
    rewrite for_each_append in Hfound. injection Hfound as <-.
    destruct (list_folders rm _) as [listing|e]; [|done].
    intros [Herr' Hloop]%for_each_page_Ok. by exists found, listing.
  - intros (found & listing & -> & Herr & -> & Herr' & Hloop).
    assert (for_each_page found acc (λ projects project_id, Ok (projects ++ [project_id]))
            = Ok (acc ++ pager_items found)) as ->.
    { apply for_each_page_Ok. split; [done|]. apply for_each_append. }
    by apply for_each_page_Ok.
Qed.

(** A loop whose passes only extend the list they are given extends the
    list it is given. *)
Lemma for_each_extends {A : Type} (body : list string → A → result (list string)) l :
  (∀ a x, body a x = match body [] x with
                     | Ok r0 => Ok (a ++ r0)
                     | Raise e => Raise e
                     end) →
  ∀ a, for_each l a body = match for_each l [] body with
                           | Ok r0 => Ok (a ++ r0)
                           | Raise e => Raise e
                           end.
Proof.
  intros Hbody. induction l as [|x l IH]; intros a; cbn.
  - by rewrite app_nil_r.
  - rewrite (Hbody a x). destruct (body [] x) as [r1|e]; [|done]. cbn.
    rewrite (IH (a ++ r1)), (IH r1).
    destruct (for_each l [] body) as [r0|e]; [|done]. by rewrite app_assoc.
Qed.

(** What a traversal returns is the list it was given followed by what it
    returns from the empty list. *)
Lemma traverse_folder_extends depth rm : ∀ f acc,
  traverse_folder depth rm f acc = match traverse_folder depth rm f [] with
                                   | Ok r0 => Ok (acc ++ r0)
                                   | Raise e => Raise e
                                   end.
Proof.
  induction depth as [|depth IH]; intros f acc; [done|].
  cbn [traverse_folder]. unfold mbind at 1 2 3 5 6 7. unfold result_bind.
  destruct (search_projects rm _) as [found|e]; [|done].
  assert (∀ a, for_each_page found a (λ projects project_id, Ok (projects ++ [project_id]))
               = match pager_error found with
                 | Some e => Raise e
                 | None => Ok (a ++ pager_items found)
                 end) as Hfound.
  { intros a. unfold for_each_page. by rewrite for_each_append. }
  rewrite !Hfound. cbn.
  destruct (pager_error found); [done|].
  destruct (list_folders rm _) as [listing|e]; [|done].
  unfold for_each_page, mbind, result_bind.
  match goal with
  | |- context [for_each _ (acc ++ _) ?body] =>
      rewrite (for_each_extends body (pager_items listing)) with (a := acc ++ pager_items found);
      [rewrite (for_each_extends body (pager_items listing)) with (a := pager_items found)|]
  end.
  - destruct (for_each _ [] _) as [r0|e]; [|done].
    destruct (pager_error listing); [done|]. by rewrite app_assoc.
  - intros a x. destruct (getitem_last _) as [child|e]; [|done]. apply IH.
  - intros a x. destruct (getitem_last _) as [child|e]; [|done]. apply IH.
Qed.

Lemma get_projects_recursive_Ok depth rm f ps :
  get_projects_recursive depth rm f = Ok ps ↔
  (∃ u, FoldersClient rm = Ok u) ∧ (∃ u, ProjectsClient rm = Ok u) ∧
  traverse_folder depth rm f [] = Ok ps.
Proof.
  unfold get_projects_recursive, mbind, result_bind.
  destruct (FoldersClient rm), (ProjectsClient rm); split;
    first [done | by intros ([? ?] & [? ?] & ?) | by eauto].
Qed.

Lemma subfolder_loop_elem depth rm l :
  (∀ child acc r, traverse_folder depth rm child acc = Ok r →
     ∀ p, p ∈ r ↔ p ∈ acc ∨ ∃ g, below rm child g ∧ found_in rm g p) →
  ∀ acc r,
    for_each l acc (λ projects name,
      folder_id ← getitem_last (str_split "/" name);
      traverse_folder depth rm folder_id projects) = Ok r →
    ∀ p, p ∈ r ↔
      p ∈ acc ∨ ∃ name child g, name ∈ l ∧
        getitem_last (str_split "/" name) = Ok child ∧
        below rm child g ∧ found_in rm g p.
Proof.
  intros IH. induction l as [|x l IHl]; intros acc r; cbn.
  - intros [= <-] p. split; [by left|].
    intros [?|(? & ? & ? & ?%elem_of_nil & _)]; done.
  - destruct (getitem_last (str_split "/" x)) as [child|e] eqn:Hx; [|done]. cbn.
    destruct (traverse_folder depth rm child acc) as [acc'|e] eqn:Hchild; [|done].
    cbn. intros Hrest p. rewrite (IHl _ _ Hrest p), (IH _ _ _ Hchild p). split.
    + intros [[?|(g & ? & ?)]|(name & c & g & ? & ? & ? & ?)].
      * by left.
      * right. exists x, child, g. split_and!; [apply list_elem_of_here|done..].
      * right. exists name, c, g. split_and!; [by apply list_elem_of_further|done..].
    + intros [?|(name & c & g & [->|?]%elem_of_cons & Hc & ? & ?)].
      * by left; left.
      * left; right. exists g. rewrite Hx in Hc. by injection Hc as <-.
      * right. by exists name, c, g.
Qed.

Lemma traverse_folder_elem depth rm : ∀ f acc r,
  traverse_folder depth rm f acc = Ok r →
  ∀ p, p ∈ r ↔ p ∈ acc ∨ ∃ g, below rm f g ∧ found_in rm g p.
Proof.
  induction depth as [|depth IH]; intros f acc r; [done|].
  intros (found & listing & Hfound & _ & Hlisting & _ & Hloop)%traverse_folder_Ok p.
  rewrite (subfolder_loop_elem depth rm _ IH _ _ Hloop p), elem_of_app.
  split.
  - intros [[?|?]|(name & child & g & ? & ? & ? & ?)].
    + by left.
    + right. exists f. split; [apply rtc_refl|]. by exists found.
    + right. exists g. split; [|done].
      apply rtc_l with child; [|done]. by exists listing, name.
  - intros [?|(g & Hg & Hp)]; [by left; left|].
    apply rtc_inv in Hg as [->|(child & (listing' & name & Hl' & ? & ?) & ?)].
    + destruct Hp as (found' & Hf' & ?). left; right.
      rewrite Hfound in Hf'. by injection Hf' as <-.
    + right. exists name, child, g.
      rewrite Hlisting in Hl'. by injection Hl' as <-.
Qed.

(** X19.  The enumeration returns the projects of the folders at or below
    the folder given, and no other project: a project id is in the list
    exactly when the search in one of those folders finds it. *)
Theorem enumeration_finds_the_projects_below (depth : nat) (rm : resource_manager)
    (folder_id : string) (projects : list string) :
  get_projects_recursive depth rm folder_id = Ok projects →
  ∀ project_id, project_id ∈ projects ↔
    ∃ g, below rm folder_id g ∧ found_in rm g project_id.
Proof.
  intros (_ & _ & Htr)%get_projects_recursive_Ok project_id.
  rewrite (traverse_folder_elem _ _ _ _ _ Htr project_id). split; [|by right].
  by intros [?%elem_of_nil|?].
Qed.

Lemma subfolder_loop_concat depth rm l : ∀ acc r,
  for_each l acc (λ projects name,
    folder_id ← getitem_last (str_split "/" name);
    traverse_folder depth rm folder_id projects) = Ok r →
  ∃ subs,
    Forall2 (λ name sub, ∃ child, getitem_last (str_split "/" name) = Ok child ∧
                                  traverse_folder depth rm child [] = Ok sub) l subs ∧
    r = acc ++ concat subs.
Proof.
  induction l as [|x l IH]; intros acc r; cbn.
  - intros [= <-]. exists []. split; [constructor|]. by rewrite app_nil_r.
  - destruct (getitem_last (str_split "/" x)) as [child|e] eqn:Hx; [|done]. cbn.
    rewrite traverse_folder_extends.
    destruct (traverse_folder depth rm child []) as [sub|e] eqn:Hchild; [|done].
    cbn. intros (subs & Hsubs & ->)%IH. exists (sub :: subs). split.
    + constructor; [|done]. by exists child.
    + cbn. by rewrite app_assoc.
Qed.

(** X20.  The list is in the order of the traversal: first the projects
    found in the folder itself, then, for each of its subfolders in the order
    listed, what the enumeration of that subfolder returns. *)
Theorem enumeration_is_in_traversal_order (depth : nat) (rm : resource_manager)
    (folder_id : string) (projects : list string) :
  get_projects_recursive (S depth) rm folder_id = Ok projects →
  ∃ found listing subs,
    search_projects rm ("parent.type:folder parent.id:" +:+ folder_id) = Ok found ∧
    list_folders rm ("folders/" +:+ folder_id) = Ok listing ∧
    Forall2 (λ name sub, ∃ child, getitem_last (str_split "/" name) = Ok child ∧
                                  get_projects_recursive depth rm child = Ok sub)
            (pager_items listing) subs ∧
    projects = pager_items found ++ concat subs.
Proof.
  intros (Hf & Hp & Htr)%get_projects_recursive_Ok.
  apply traverse_folder_Ok in Htr
    as (found & listing & Hfound & _ & Hlisting & _ & Hloop).
  apply subfolder_loop_concat in Hloop as (subs & Hsubs & ->).
  exists found, listing, subs. split_and!; [done..| |done].
  eapply Forall2_impl; [done|]. cbn. intros name sub (child & ? & ?).
  exists child. split; [done|]. by apply get_projects_recursive_Ok.
Qed.

Lemma for_each_mono {A S : Type} (body body' : S → A → result S) l :
  (∀ s x s', body s x = Ok s' → body' s x = Ok s') →
  ∀ s r, for_each l s body = Ok r → for_each l s body' = Ok r.
Proof.
  intros Hbody. induction l as [|x l IH]; intros s r; cbn; [done|].
  destruct (body s x) as [s'|e] eqn:Hx; [|done].
  rewrite (Hbody _ _ _ Hx). cbn. apply IH.
Qed.

Lemma traverse_folder_deeper depth rm : ∀ f acc r,
  traverse_folder depth rm f acc = Ok r →
  ∀ depth', (depth ≤ depth')%nat → traverse_folder depth' rm f acc = Ok r.
Proof.
  induction depth as [|depth IH]; intros f acc r; [done|].
  intros (found & listing & ? & ? & ? & ? & Hloop)%traverse_folder_Ok depth' Hle.
  destruct depth' as [|depth']; [lia|].
  apply traverse_folder_Ok. exists found, listing. split_and!; [done..|].
  revert Hloop. apply for_each_mono. intros s x s'.
  destruct (getitem_last _) as [child|e]; [|done]. cbn.
  intros Hchild. apply (IH _ _ _ Hchild). lia.
Qed.

(** X21.  A list returned under one bound on the nesting of calls is returned
    under every larger bound. *)
Theorem enumeration_is_the_same_under_a_larger_bound (depth depth' : nat)
    (rm : resource_manager) (folder_id : string) (projects : list string) :
  get_projects_recursive depth rm folder_id = Ok projects →
  (depth ≤ depth')%nat →
  get_projects_recursive depth' rm folder_id = Ok projects.
Proof.
  intros (Hf & Hp & Htr)%get_projects_recursive_Ok Hle.
  apply get_projects_recursive_Ok. split_and!; [done..|].
  by apply (traverse_folder_deeper depth).
Qed.

Lemma for_each_page_raises {A S : Type} (p : pager A) (s : S) body :
  (∃ e, for_each (pager_items p) s body = Raise e) ∨ is_Some (pager_error p) →
  ∃ e, for_each_page p s body = Raise e.
Proof.
  unfold for_each_page, mbind, result_bind.
  intros [[e ->]|[e ->]]; [by eexists|].
  destruct (for_each _ _ _); by eexists.
Qed.

Lemma traverse_folder_raises rm f g :
  below rm f g → unlistable rm g →
  ∀ depth acc, ∃ e, traverse_folder depth rm f acc = Raise e.
Proof.
  intros Hbelow Hbad.
  induction Hbelow as [f|f child g (listing & name & Hl & Hname & Hchild) _ IH];
    intros [|depth] acc; try by eexists.
  - cbn [traverse_folder]. unfold mbind at 1 2 3. unfold result_bind.
    destruct Hbad as [Hbad|Hbad]; unfold fails in Hbad.
    + destruct (search_projects rm _) as [found|e]; [|by eexists].
      destruct (for_each_page_raises found acc
                  (λ projects project_id, Ok (projects ++ [project_id]))) as [e ->];
        [by right|by eexists].
    + destruct (search_projects rm _) as [found|e]; [|by eexists].
      destruct (for_each_page found acc _) as [acc'|e]; [|by eexists].
      destruct (list_folders rm _) as [listing|e]; [|by eexists].
      apply for_each_page_raises. by right.
  - cbn [traverse_folder]. unfold mbind at 1 2 3. unfold result_bind.
    destruct (search_projects rm _) as [found|e]; [|by eexists].
    destruct (for_each_page found acc _) as [acc'|e]; [|by eexists].
    rewrite Hl. apply for_each_page_raises. left.
    apply (for_each_raises (λ x, x = name)); [|by exists name].
    intros s x ->. rewrite Hchild. cbn. apply (IH Hbad).
Qed.

(** X22.  When one of the two listings fails for a folder at or below the
    folder given, at once or on a later page, the enumeration raises and no
    project is returned, whatever the bound on the nesting of calls. *)
Theorem enumeration_is_all_or_nothing (depth : nat) (rm : resource_manager)
    (folder_id g : string) :
  below rm folder_id g → unlistable rm g →
  ∃ e, get_projects_recursive depth rm folder_id = Raise e.
Proof.
  intros Hbelow Hbad. unfold get_projects_recursive, mbind, result_bind.
  destruct (FoldersClient rm); [|by eexists].
  destruct (ProjectsClient rm); [|by eexists].
  by eapply traverse_folder_raises.
Qed.

(** ** The main program *)

Lemma future_returns w project_id :
  ∃ r, (get_project_last_activity w project_id []).1 = Ok r ∧
       activity_record r ∧ r !! "project_id" = Some (VStr project_id).
Proof.
  pose proof (run_get_project_last_activity w project_id) as Hrun.
  pose proof (aggregator_returns_activity_record w project_id) as Hrec.
  unfold run in *.
  destruct (get_project_last_activity w project_id []) as [[r|e] calls].
  - exists r. split_and!; [done|by eapply Hrec|].
    destruct (probe_result Compute w project_id).1,
             (probe_result Storage w project_id).1;
      injection Hrun as -> _; try apply record_of_project_id.
    by destruct (dt_gt _ _).
  - destruct (probe_result Compute w project_id).1,
             (probe_result Storage w project_id).1; done.
Qed.

Lemma futures_return w projects :
  ∃ recs,
    (λ project_id, (get_project_last_activity w project_id []).1) <$> projects
      = Ok <$> recs ∧
    Forall2 (λ project_id r,
               (get_project_last_activity w project_id []).1 = Ok r ∧
               activity_record r ∧ r !! "project_id" = Some (VStr project_id))
            projects recs.
Proof.
  induction projects as [|pid projects (recs & Heq & Hrecs)].
  - exists []. split; [done|constructor].
  - destruct (future_returns w pid) as (r & Hr & Hrec & Hpid).
    exists (r :: recs). cbn. rewrite Hr, Heq. split; [done|]. by constructor.
Qed.

(** The loop over the completed futures keeps the records they hold. *)
Lemma completed_loop (l : list (result (gmap string pyval))) : ∀ acc,
  Forall (λ future, ∃ r, future = Ok r ∧ is_Some (r !! "project_id")) l →
  for_each l acc
    (λ projects_activity future,
       res ← future;
       if dict_truthy res then
         getitem res "project_id";;
         Ok (projects_activity ++ [res])
       else Ok projects_activity)
  = Ok (acc ++ omap returned l).
Proof.
  induction l as [|future l IH]; intros acc Hl; cbn.
  - by rewrite app_nil_r.
  - apply Forall_cons in Hl as [(r & -> & [v Hv]) Hl]. cbn.
    unfold dict_truthy. rewrite bool_decide_eq_true_2.
    + unfold getitem. rewrite Hv. cbn. rewrite (IH _ Hl).
      by rewrite <- app_assoc.
    + intros ->. by rewrite lookup_empty in Hv.
Qed.

Lemma omap_returned_Ok {A : Type} (l : list A) : omap returned (Ok <$> l) = l.
Proof. induction l as [|x l IH]; [done|]. cbn. by rewrite IH. Qed.

(** What [main] has in hand before it sorts: the records of the projects
    enumerated, in the order of completion. *)
Lemma main_try_inv h w rm args saved :
  (∀ l, as_completed h l ≡ₚ l) →
  main_try h w rm args = Ok saved →
  ∃ projects recs completed sorted,
    get_projects_recursive (recursion_limit h) rm (args_folder_id args) = Ok projects ∧
    0 < args_max_workers args ∧
    Forall2 (λ project_id r,
               (get_project_last_activity w project_id []).1 = Ok r ∧
               activity_record r ∧ r !! "project_id" = Some (VStr project_id))
            projects recs ∧
    completed ≡ₚ recs ∧
    sort_projects completed = Ok sorted ∧
    saved = write_to_excel w sorted (args_output args).
Proof.
  intros Hperm. unfold main_try, mbind, result_bind.
  destruct (get_credentials h); [|done].
  destruct (get_projects_recursive _ _ _) as [projects|e]; [|done].
  unfold ThreadPoolExecutor. destruct (Z.leb_spec (args_max_workers args) 0); [done|].
  destruct (futures_return w projects) as (recs & -> & Hrecs).
  rewrite completed_loop.
  - rewrite app_nil_l.
    destruct (sort_projects (omap returned _)) as [sorted|e] eqn:Hsort; [|done].
    intros [= <-].
    exists projects, recs, (omap returned (as_completed h (Ok <$> recs))), sorted.
    split_and!; [done..| |done|done].
    by rewrite Hperm, omap_returned_Ok.
  - rewrite Hperm. apply Forall_fmap, Forall_forall. intros r Hr. cbn.
    exists r. split; [done|].
    apply list_elem_of_lookup in Hr as [i Hi].
    destruct (Forall2_lookup_r _ _ _ _ _ Hrecs Hi) as (pid & _ & _ & _ & ->).
    by eexists.
Qed.

(** X23.  A report that [main] saves holds one row for each project the
    enumeration returned, whatever the order in which the workers finished:
    the column of project ids is a rearrangement of the enumerated ids. *)
Theorem report_lists_every_project_once (h : host) (w : world)
    (rm : resource_manager) (args : arguments) (ws : worksheet) :
  (∀ l, as_completed h l ≡ₚ l) →
  main h w rm args = Some ws →
  ∃ projects,
    get_projects_recursive (recursion_limit h) rm (args_folder_id args) = Ok projects ∧
    ws_max_row ws = S (length projects) ∧
    id_column ws (length projects) ≡ₚ VStr <$> projects.
Proof.
  intros Hperm. unfold main.
  destruct (main_try h w rm args) as [saved|e] eqn:Htry; [|done]. intros ->.
  apply main_try_inv in Htry
    as (projects & recs & completed & sorted & Henum & _ & Hrecs & Hcompleted
        & Hsort%sort_projects_perm & Hws); [|done].
  symmetry in Hws.
  assert (sorted ≡ₚ recs) as Hsorted by by rewrite Hsort.
  assert (Forall activity_record sorted) as Hact.
  { rewrite Hsorted. apply Forall_forall. intros r Hr.
    apply list_elem_of_lookup in Hr as [i Hi].
    by destruct (Forall2_lookup_r _ _ _ _ _ Hrecs Hi) as (pid & _ & _ & ? & _). }
  destruct (write_to_excel_spec w sorted (args_output args) ws Hact Hws)
    as (_ & Hrows & _ & _ & Hcells & _).
  assert (length sorted = length projects) as Hlen.
  { by rewrite Hsorted, (Forall2_length _ _ _ Hrecs). }
  exists projects. split_and!; [done|by rewrite Hrows, Hlen|].
  unfold id_column. rewrite <- Hlen.
  rewrite (fmap_seq_cells _ (λ p, default VNone (p !! "project_id")) sorted).
  - rewrite Hsorted. clear -Hrecs.
    induction Hrecs as [|pid r projects recs (_ & _ & Hpid) _ IH]; [done|].
    cbn. rewrite Hpid. cbn. by constructor.
  - intros i p Hi. specialize (Hcells i p 1%nat Hi ltac:(lia)).
    unfold report_row in Hcells. cbn -[strftime td_days] in Hcells. congruence.
Qed.

Lemma record_date_from_probe w project_id r d :
  (get_project_last_activity w project_id []).1 = Ok r →
  r !! "last_activity_date" = Some (VDate d) →
  ∃ p, (probe_result p w project_id).1 = Some d.
Proof.
  pose proof (run_get_project_last_activity w project_id) as Hrun. unfold run in Hrun.
  rewrite Hrun. clear Hrun.
  destruct (probe_result Compute w project_id).1 as [tc|] eqn:Hc,
           (probe_result Storage w project_id).1 as [ts|] eqn:Hs;
    cbn; intros [= <-].
  - destruct (dt_gt ts tc) as [[]|e]; [| |done]; rewrite record_of_date;
      intros [= <-]; [by exists Storage|by exists Compute].
  - rewrite record_of_date. intros [= <-]. by exists Compute.
  - rewrite record_of_date. intros [= <-]. by exists Storage.
  - rewrite record_of_date.
    destruct (probe_result ServiceUsage w project_id).1 eqn:Ha; [|done].
    intros [= <-]. by exists ServiceUsage.
Qed.

Lemma has_illegal_character_join sep l :
  has_illegal_character sep = false →
  (∀ x, x ∈ l → has_illegal_character x = false) →
  has_illegal_character (join sep l) = false.
Proof.
  intros Hsep. unfold join. induction l as [|x l IH]; intros Hl; [done|].
  destruct l as [|y l]; cbn [String.concat].
  - apply Hl, list_elem_of_here.
  - rewrite !has_illegal_character_append, Hsep, (Hl x) by apply list_elem_of_here.
    cbn. apply IH. intros z Hz. by apply Hl, list_elem_of_further.
Qed.

Lemma record_of_writable pid d src iss :
  has_illegal_character pid = false →
  has_illegal_character src = false →
  (∀ x, x ∈ iss → has_illegal_character x = false) →
  writable_text (record_of pid d src iss).
Proof.
  intros Hpid Hsrc Hiss key s. unfold record_of.
  assert (has_illegal_character (join "; " iss) = false) as Hjoin
    by by apply has_illegal_character_join.
  rewrite !lookup_insert_Some, lookup_singleton_Some.
  intros [[_ Hv] | [_ [[_ Hv] | [_ [[_ Hv] | [_ [_ Hv]]]]]]].
  - destruct iss as [|x iss]; [done|]. injection Hv as <-. exact Hjoin.
  - by injection Hv as <-.
  - by destruct d.
  - by injection Hv as <-.
Qed.

Lemma error_record_writable pid e :
  has_illegal_character pid = false →
  has_illegal_character (exn_str e) = false →
  writable_text (error_record pid e).
Proof.
  intros Hpid He key s. unfold error_record.
  rewrite !lookup_insert_Some, lookup_empty.
  intros [[_ Hv] | [_ [[_ Hv] | [_ [[_ Hv] | [_ [[_ Hv] | [_ Hv]]]]]]]]; try done.
  - by injection Hv as <-.
  - by injection Hv as <-.
  - by injection Hv as <-.
Qed.

(** The record of a project holds no text the cells refuse when its id and
    the error texts of its probes hold none. *)
Lemma record_writable w project_id r :
  (get_project_last_activity w project_id []).1 = Ok r →
  has_illegal_character project_id = false →
  (∀ p msg, (probe_result p w project_id).2 = Some msg →
            has_illegal_character msg = false) →
  writable_text r.
Proof.
  intros Hr Hpid Hmsg.
  assert (∀ calls x, x ∈ reported_issues w project_id calls →
                     has_illegal_character x = false) as Hissues.
  { intros calls x (p & msg & _ & Hp & _ & ->)%elem_of_reported_issues.
    rewrite has_illegal_character_append, (Hmsg p msg Hp). by destruct p. }
  pose proof (run_get_project_last_activity w project_id) as Hrun.
  unfold run in Hrun. rewrite Hrun, ?issues2_reported, ?issues3_reported in Hr.
  clear Hrun.
  destruct (probe_result Compute w project_id).1 as [tc|],
           (probe_result Storage w project_id).1 as [ts|];
    cbn [fst] in Hr; injection Hr as <-.
  - destruct (dt_gt ts tc) as [[]|e] eqn:Hgt.
    + apply record_of_writable;
        [done..|apply (Hissues [Called Compute; Called Storage])].
    + apply record_of_writable;
        [done..|apply (Hissues [Called Compute; Called Storage])].
    + apply error_record_writable; [done|].
      by rewrite (dt_lt_raise _ _ _ Hgt).
  - apply record_of_writable; [done..|apply (Hissues [Called Compute; Called Storage])].
  - apply record_of_writable; [done..|apply (Hissues [Called Compute; Called Storage])].
  - apply record_of_writable;
      [done| |apply (Hissues [Called Compute; Called Storage; Called ServiceUsage])].
    by case_match.
Qed.

(** X24.  [main] saves a report when the credentials load, the enumeration
    returns, the number of workers is positive, every timestamp the probes
    return for the projects carries a time zone, neither a project id nor an
    error text of a probe holds a character the cells refuse, and the workbook
    can be written to the output file, whatever the order in which the
    workers finish. *)
Theorem report_is_saved_when_dates_carry_a_zone (h : host) (w : world)
    (rm : resource_manager) (args : arguments) (projects : list string) :
  (∀ l, as_completed h l ≡ₚ l) →
  from_authorized_user_file h = Ok tt →
  get_projects_recursive (recursion_limit h) rm (args_folder_id args) = Ok projects →
  0 < args_max_workers args →
  (∀ project_id p d, project_id ∈ projects →
     (probe_result p w project_id).1 = Some d → aware d = true) →
  (∀ project_id, project_id ∈ projects → has_illegal_character project_id = false) →
  (∀ project_id p msg, project_id ∈ projects →
     (probe_result p w project_id).2 = Some msg → has_illegal_character msg = false) →
  (∀ ws, wb_save w (args_output args) ws = Ok tt) →
  ∃ ws, main h w rm args = Some ws.
Proof.
  intros Hperm Hcred Henum Hworkers Haware Hids Hmsgs Hsave.
  unfold main, main_try, get_credentials, mbind, result_bind.
  rewrite Hcred, Henum. cbn [try_except]. unfold ThreadPoolExecutor.
  destruct (Z.leb_spec (args_max_workers args) 0); [lia|].
  destruct (futures_return w projects) as (recs & -> & Hrecs).
  assert (∀ r, r ∈ recs → activity_record r ∧ writable_text r ∧
             ∀ d, r !! "last_activity_date" = Some (VDate d) → aware d = true) as Hrec.
  { intros r [i Hi]%list_elem_of_lookup.
    destruct (Forall2_lookup_r _ _ _ _ _ Hrecs Hi) as (pid & Hpid & Hr & Hact & _).
    apply list_elem_of_lookup_2 in Hpid.
    split_and!; [done| |].
    - apply (record_writable w pid r Hr); [by apply Hids|].
      intros p msg. by apply Hmsgs.
    - intros d Hd. destruct (record_date_from_probe w pid r d Hr Hd) as [p Hp].
      by eapply Haware. }
  rewrite completed_loop.
  - rewrite app_nil_l.
    assert (omap returned (as_completed h (Ok <$> recs)) ≡ₚ recs) as Hcompleted.
    { by rewrite Hperm, omap_returned_Ok. }
    set (completed := omap returned (as_completed h (Ok <$> recs))) in *.
    assert (∃ sorted, sort_projects completed = Ok sorted) as [sorted Hsort].
    { unfold sort_projects.
      destruct (mapM_keyed_returns completed) as [keyed Hkeyed].
      { intros x Hx. rewrite Hcompleted in Hx.
        destruct (Hrec x Hx) as [(_ & [->| [d ->]] & _) _]; by eexists. }
      rewrite Hkeyed. cbn. apply mapM_keyed in Hkeyed as [Hk Hok].
      destruct (sort_desc_returns keyed) as [s ->]; [|by eexists].
      apply (keyed_comparable keyed true); [done|].
      intros x Hx. rewrite Hk, Hcompleted in Hx.
      destruct (Hrec x Hx) as [(_ & [Hn | [d Hd]] & _) [_ Hd']]; [by left|].
      right. exists d. split; [done|]. by apply Hd'. }
    rewrite Hsort. apply sort_projects_perm in Hsort.
    destruct (write_to_excel_returns w sorted (args_output args)) as [ws ->];
      [| | |done|by eexists].
    + apply Forall_forall. intros r Hr. rewrite Hsort, Hcompleted in Hr.
      by apply Hrec.
    + apply Forall_forall. intros r Hr. rewrite Hsort, Hcompleted in Hr.
      by apply Hrec.
    + intros r d Hr. rewrite Hsort, Hcompleted in Hr. by apply Hrec.
  - rewrite Hperm. apply Forall_fmap, Forall_forall. intros r Hr. cbn.
    exists r. split; [done|].
    destruct (Hrec r Hr) as [([pid ->] & _) _]. by eexists.
Qed.

(** X25.  When the record of one enumerated project holds a date without a
    time zone, [main] saves no report. *)
Theorem no_report_when_a_date_has_no_zone (h : host) (w : world)
    (rm : resource_manager) (args : arguments) (projects : list string)
    (project_id : string) (r : gmap string pyval) (calls : list event)
    (d : datetime) :
  (∀ l, as_completed h l ≡ₚ l) →
  get_projects_recursive (recursion_limit h) rm (args_folder_id args) = Ok projects →
  project_id ∈ projects →
  run (get_project_last_activity w project_id) = (Ok r, calls) →
  r !! "last_activity_date" = Some (VDate d) →
  aware d = false →
  main h w rm args = None.
Proof.
  intros Hperm Henum Hpid Hrun Hd Hnaive. unfold main.
  destruct (main_try h w rm args) as [saved|e] eqn:Htry; [|done].
  apply main_try_inv in Htry
    as (projects' & recs & completed & sorted & Henum' & _ & Hrecs & Hcompleted
        & Hsort%sort_projects_perm & ->); [|done].
  rewrite Henum in Henum'. injection Henum' as <-.
  apply list_elem_of_lookup in Hpid as [i Hi].
  destruct (Forall2_lookup_l _ _ _ _ _ Hrecs Hi) as (r' & Hr' & Hfut & _).
  unfold run in Hrun. rewrite Hrun in Hfut. injection Hfut as <-.
  assert (r ∈ sorted) as Hr.
  { rewrite Hsort, Hcompleted. by eapply list_elem_of_lookup_2. }
  unfold write_to_excel, write_try. rewrite write_headers_eq.
  unfold mbind, result_bind.
  destruct (elem_of_enumerate r sorted 2 Hr) as [n Hn].
  destruct (for_each_raises (λ rp, unwritable rp.2) (write_row (datetime_now_utc w))
              (enumerate 2 sorted))
    with (s := headed_sheet)
    as [e ->]; [|exists (n, r)|done].
  - intros ws rp. apply write_row_raises.
  - split; [done|]. do 3 right. by exists d.
Qed.

(** X26.  When one of the two listings fails for a folder at or below the
    folder given on the command line, [main] saves no report. *)
Theorem no_report_when_a_folder_cannot_be_listed (h : host) (w : world)
    (rm : resource_manager) (args : arguments) (g : string) :
  below rm (args_folder_id args) g → unlistable rm g →
  main h w rm args = None.
Proof.
  intros Hbelow Hbad. unfold main, main_try, mbind, result_bind.
  destruct (get_credentials h); [|done].
  assert (∃ e, get_projects_recursive (recursion_limit h) rm (args_folder_id args)
               = Raise e) as [e ->]; [|done].
  unfold get_projects_recursive, mbind, result_bind.
  destruct (FoldersClient rm); [|by eexists].
  destruct (ProjectsClient rm); [|by eexists].
  by eapply traverse_folder_raises.
Qed.

(** ** Example runs of the further properties *)

Lemma sorted_records_descend_witness :
  sort_projects sort_example = Ok sorted_example ∧
  dt_gt (utc 2024 1 1 0 0 0) (utc 2025 6 1 0 0 0) = Ok false.
Proof.
  split; [reflexivity|].
  apply (sorted_records_descend sort_example sorted_example 1
           (activity "c" (Some (utc 2025 6 1 0 0 0)))
           (activity "a" (Some (utc 2024 1 1 0 0 0))));
    reflexivity.
Defined.

Lemma sort_needs_the_date_key_witness :
  sort_projects [activity "a" None; {[ "project_id" := VStr "b" ]}]
    = Raise (KeyError "last_activity_date").
Proof.
  apply sort_needs_the_date_key. exists {[ "project_id" := VStr "b" ]}.
  split; [|reflexivity]. apply list_elem_of_further, list_elem_of_here.
Defined.

Lemma sorted_dates_agree_in_awareness_witness :
  (∃ l', sort_projects sort_example = Ok l') ∧
  aware (utc 2024 1 1 0 0 0) = aware (utc 2025 6 1 0 0 0).
Proof.
  split; [eexists; reflexivity|].
  apply (sorted_dates_agree_in_awareness sort_example sorted_example
           (activity "a" (Some (utc 2024 1 1 0 0 0)))
           (activity "c" (Some (utc 2025 6 1 0 0 0))) _ _ eq_refl).
  - apply list_elem_of_here.
  - do 2 apply list_elem_of_further. apply list_elem_of_here.
  - reflexivity.
  - reflexivity.
Defined.

Lemma sort_returns_for_comparable_dates_witness :
  ∃ l', sort_projects sort_example = Ok l'.
Proof.
  apply (sort_returns_for_comparable_dates sort_example true).
  intros x Hx. unfold sort_example in Hx.
  apply elem_of_cons in Hx as [->|Hx]; [right; eexists; split; reflexivity|].
  apply elem_of_cons in Hx as [->|Hx]; [left; reflexivity|].
  apply list_elem_of_singleton in Hx as ->. right; eexists; split; reflexivity.
Defined.

Lemma flagged_example_records : Forall activity_record flagged_example.
Proof.
  apply Forall_cons; split; [apply activity_is_record|].
  apply Forall_cons; split; [|by apply Forall_nil].
  split_and!; [by eexists|by left|by eexists|right; by eexists].
Qed.

Lemma report_has_header_and_one_row_per_record_witness :
  ∃ ws, write_to_excel idle_world report_example "report.xlsx" = Some ws ∧
        ws_title ws = "Project Activity" ∧ ws_max_row ws = 3%nat ∧
        ws_value ws 1 1 = VStr "Project ID".
Proof.
  destruct (write_to_excel idle_world report_example "report.xlsx") as [ws|] eqn:Hws;
    [|by vm_compute in Hws].
  exists ws. split; [done|].
  destruct (report_has_header_and_one_row_per_record idle_world report_example "report.xlsx" ws
              report_example_records Hws) as (Htitle & Hrows & _ & Hhead & _).
  split_and!; [done..|]. by injection Hhead.
Defined.

Lemma report_id_source_and_issue_cells_witness :
  ∃ ws, write_to_excel idle_world flagged_example "report.xlsx" = Some ws ∧
        ws_value ws 3 1 = VStr "c" ∧
        ws_value ws 3 3 = VStr "None" ∧
        ws_value ws 3 5 = VStr "Compute: API not enabled".
Proof.
  destruct (write_to_excel idle_world flagged_example "report.xlsx") as [ws|] eqn:Hws;
    [|by vm_compute in Hws].
  exists ws. split; [done|].
  destruct (report_id_source_and_issue_cells idle_world flagged_example "report.xlsx" ws 1 _
              flagged_example_records Hws eq_refl) as (H1 & H3 & H5).
  rewrite record_of_project_id in H1. rewrite record_of_source in H3.
  injection H1 as <-. injection H3 as <-. by split_and!.
Defined.

Lemma report_highlights_rows_with_issues_witness :
  ∃ ws, write_to_excel idle_world flagged_example "report.xlsx" = Some ws ∧
        ws_fill ws !! (3, 1)%nat = Some "FFF2CC" ∧
        ws_fill ws !! (2, 1)%nat = None.
Proof.
  destruct (write_to_excel idle_world flagged_example "report.xlsx") as [ws|] eqn:Hws;
    [|by vm_compute in Hws].
  exists ws. split; [done|]. split.
  - apply (report_highlights_rows_with_issues idle_world flagged_example "report.xlsx" ws 1 _ 1
             flagged_example_records Hws eq_refl). lia.
  - apply (report_highlights_rows_with_issues idle_world flagged_example "report.xlsx" ws 0 _ 1
             flagged_example_records Hws eq_refl). lia.
Defined.

Lemma report_is_not_saved_on_a_bad_record_witness :
  write_to_excel idle_world
    [activity "a" None; activity "n" (Some (naive 2025 6 1 0 0 0))] "report.xlsx"
  = None.
Proof.
  apply report_is_not_saved_on_a_bad_record.
  exists (activity "n" (Some (naive 2025 6 1 0 0 0))).
  split; [apply list_elem_of_further, list_elem_of_here|].
  do 3 right. exists (naive 2025 6 1 0 0 0). split; reflexivity.
Defined.

Lemma compute_probe_returns_the_latest_witness :
  ∃ response, aggregatedList tie_world "p" = Ok response ∧
    (∃ s, s ∈ response_stamps response ∧
          parse_stamp tie_world s = Ok (utc 2025 6 1 0 0 0)) ∧
    (∀ s, s ∈ response_stamps response →
          ∃ t', parse_stamp tie_world s = Ok t' ∧
                dt_gt t' (utc 2025 6 1 0 0 0) = Ok false).
Proof.
  exact (compute_probe_returns_the_latest tie_world "p" (utc 2025 6 1 0 0 0) None
           eq_refl).
Defined.

Lemma compute_probe_without_instances_witness :
  probe_result Compute idle_world "p" = (None, None).
Proof.
  apply (compute_probe_without_instances idle_world "p" no_instances tt);
    [reflexivity..|].
  intros zi Hzi. by apply elem_of_nil in Hzi.
Defined.

Lemma compute_probe_is_all_or_nothing_witness :
  ∃ e, probe_result Compute untimed_instance_world "p" = (None, Some e).
Proof.
  apply (compute_probe_is_all_or_nothing untimed_instance_world "p"
           (mk_compute_response
              (Some [("zones/us-central1-a",
                      mk_zone_entry (Some [mk_instance None None]))]))
           ("zones/us-central1-a", mk_zone_entry (Some [mk_instance None None]))
           [mk_instance None None] (mk_instance None None)).
  - reflexivity.
  - apply list_elem_of_here.
  - reflexivity.
  - apply list_elem_of_here.
  - exact I.
Defined.

Lemma storage_probe_returns_the_latest_witness :
  ∃ buckets, list_buckets tie_world "p" = Ok buckets ∧
    utc 2025 6 1 0 0 0 ∈ flat_map (bucket_times tie_world) buckets ∧
    ∀ t', t' ∈ flat_map (bucket_times tie_world) buckets →
          dt_gt t' (utc 2025 6 1 0 0 0) = Ok false.
Proof.
  exact (storage_probe_returns_the_latest tie_world "p" (utc 2025 6 1 0 0 0) None
           eq_refl).
Defined.

Lemma storage_probe_is_all_or_nothing_witness :
  ∃ msg, probe_result Storage locked_bucket_world "p" = (None, Some msg).
Proof.
  apply (storage_probe_is_all_or_nothing locked_bucket_world "p" [locked_bucket]
           locked_bucket (HttpError 403 "forbidden")).
  - reflexivity.
  - apply list_elem_of_here.
  - reflexivity.
Defined.

Lemma record_date_is_the_latest_returned_witness :
  (∃ p, Called p ∈ [Called Compute; Called Storage] ∧
        (probe_result p tie_world "p").1 = Some (utc 2025 6 1 0 0 0) ∧
        record_of "p" (Some (utc 2025 6 1 0 0 0)) "Compute Engine" [] !! "activity_source"
          = Some (VStr (source_name p))) ∧
  ∀ p t, Called p ∈ [Called Compute; Called Storage] →
         (probe_result p tie_world "p").1 = Some t →
         dt_gt t (utc 2025 6 1 0 0 0) = Ok false.
Proof.
  exact (record_date_is_the_latest_returned tie_world "p"
           (record_of "p" (Some (utc 2025 6 1 0 0 0)) "Compute Engine" [])
           [Called Compute; Called Storage] (utc 2025 6 1 0 0 0) eq_refl eq_refl).
Defined.

Lemma sort_keeps_every_record_witness :
  sorted_example ≡ₚ sort_example ∧ length sorted_example = length sort_example ∧
  ∀ x, x ∈ sorted_example ↔ x ∈ sort_example.
Proof.
  exact (sort_keeps_every_record sort_example sorted_example eq_refl).
Defined.

Lemma folder_id_is_the_last_piece_witness :
  getitem_last (str_split "/" ("folders" +:+ "/" +:+ "200")) = Ok "200".
Proof.
  exact (folder_id_is_the_last_piece "folders" "200" eq_refl).
Defined.

Lemma enumeration_finds_the_projects_below_witness :
  "gamma" ∈ ["alpha"; "beta"; "gamma"] ↔
  ∃ g, below folder_tree "100" g ∧ found_in folder_tree g "gamma".
Proof.
  exact (enumeration_finds_the_projects_below 5 folder_tree "100"
           ["alpha"; "beta"; "gamma"] eq_refl "gamma").
Defined.

Lemma enumeration_is_in_traversal_order_witness :
  ∃ found listing subs,
    search_projects folder_tree ("parent.type:folder parent.id:" +:+ "100") = Ok found ∧
    list_folders folder_tree ("folders/" +:+ "100") = Ok listing ∧
    Forall2 (λ name sub, ∃ child, getitem_last (str_split "/" name) = Ok child ∧
                                  get_projects_recursive 4 folder_tree child = Ok sub)
            (pager_items listing) subs ∧
    ["alpha"; "beta"; "gamma"] = pager_items found ++ concat subs.
Proof.
  exact (enumeration_is_in_traversal_order 4 folder_tree "100"
           ["alpha"; "beta"; "gamma"] eq_refl).
Defined.

Lemma enumeration_is_the_same_under_a_larger_bound_witness :
  get_projects_recursive 5 folder_tree "100" = Ok ["alpha"; "beta"; "gamma"] ∧
  get_projects_recursive 8 folder_tree "100" = Ok ["alpha"; "beta"; "gamma"].
Proof.
  split; [reflexivity|].
  apply (enumeration_is_the_same_under_a_larger_bound 5 8); [reflexivity|lia].
Defined.

Lemma broken_tree_below : below broken_tree "100" "300".
Proof.
  eapply rtc_l; [|apply rtc_refl].
  exists (mk_pager ["folders/200"; "folders/300"] None), "folders/300".
  split_and!; [reflexivity| |reflexivity].
  apply list_elem_of_further, list_elem_of_here.
Qed.

Lemma enumeration_is_all_or_nothing_witness :
  ∃ e, get_projects_recursive 5 broken_tree "100" = Raise e.
Proof.
  apply (enumeration_is_all_or_nothing 5 broken_tree "100" "300");
    [apply broken_tree_below|].
  left. exact I.
Defined.

Lemma report_lists_every_project_once_witness :
  ∃ ws, main example_host tie_world folder_tree example_args = Some ws ∧
        ws_max_row ws = 4%nat ∧
        id_column ws 3 ≡ₚ [VStr "alpha"; VStr "beta"; VStr "gamma"].
Proof.
  destruct (main example_host tie_world folder_tree example_args) as [ws|] eqn:Hmain;
    [|by vm_compute in Hmain].
  exists ws. split; [done|].
  destruct (report_lists_every_project_once example_host tie_world folder_tree
              example_args ws reverse_Permutation Hmain)
    as (projects & Henum & Hrows & Hids).
  vm_compute in Henum. injection Henum as <-. by split.
Defined.

Lemma report_is_saved_when_dates_carry_a_zone_witness :
  ∃ ws, main example_host tie_world folder_tree example_args = Some ws.
Proof.
  apply (report_is_saved_when_dates_carry_a_zone example_host tie_world folder_tree
           example_args ["alpha"; "beta"; "gamma"]).
  - apply reverse_Permutation.
  - reflexivity.
  - reflexivity.
  - reflexivity.
  - intros project_id p d _ Hd.
    destruct p; vm_compute in Hd; [injection Hd as <-..|discriminate Hd]; reflexivity.
  - intros project_id Hid. unfold elem_of in Hid.
    repeat (apply elem_of_cons in Hid as [->|Hid]; [reflexivity|]).
    by apply elem_of_nil in Hid.
  - intros project_id p msg _ Hmsg. destruct p; vm_compute in Hmsg; discriminate Hmsg.
  - reflexivity.
Defined.

Lemma no_report_when_a_date_has_no_zone_witness :
  main example_host zoneless_world folder_tree example_args = None.
Proof.
  apply (no_report_when_a_date_has_no_zone example_host zoneless_world folder_tree
           example_args ["alpha"; "beta"; "gamma"] "alpha"
           (record_of "alpha" (Some (naive 2025 6 1 0 0 0)) "Compute Engine" [])
           [Called Compute; Called Storage] (naive 2025 6 1 0 0 0)).
  - apply reverse_Permutation.
  - reflexivity.
  - apply list_elem_of_here.
  - reflexivity.
  - reflexivity.
  - reflexivity.
Defined.

Lemma no_report_when_a_folder_cannot_be_listed_witness :
  main example_host idle_world broken_tree example_args = None.
Proof.
  apply (no_report_when_a_folder_cannot_be_listed example_host idle_world broken_tree
           example_args "300"); [apply broken_tree_below|].
  left. exact I.
Defined.

Lemma probe_returns_timestamp_or_error_witness :
  is_Some (probe_result Compute denied_world "p").2 ↔
  ∃ e, probe_try Compute denied_world "p" = Raise e.
Proof.
  exact (proj2 (probe_returns_timestamp_or_error Compute denied_world "p")).
Defined.

Lemma aggregator_fails_iff_awareness_differs_witness :
  ∃ r calls, run (get_project_last_activity mixed_world "p") = (Ok r, calls) ∧
    (r !! "activity_source" = Some (VStr "Error") ↔
     ∃ tc ts, (probe_result Compute mixed_world "p").1 = Some tc ∧
              (probe_result Storage mixed_world "p").1 = Some ts ∧
              aware tc ≠ aware ts).
Proof.
  exact (aggregator_fails_iff_awareness_differs mixed_world "p").
Defined.
